(** * Time Balance: balance accounting, timer operations, import/export and
    the persistence adapter.

    Shallow embedding of [app/components/TimeBalanceApp.js] and
    [app/utils/storage.js].

    Modelling conventions.
    - Minutes, seconds, ids and the time bank are JavaScript numbers that hold
      integers; they are modelled by [Z].  [null] is [None].
    - A JavaScript string is a [string]; its characters are the code units
      below 256.
    - The React state of the component is the record [AppState]; an event
      handler is a function on it.  [setX v] and [setX (prev => ...)] calls of
      one handler run in the order they are written.
    - Code that can throw runs in the exception monad [M] of the storage
      module; handlers of the component that wrap their body in [try]/[catch]
      are written with the two branches spelled out.
    - The text of an export is written by [Json.stringify] and read by
      [Json.parse], the models of [JSON.stringify(value, null, 2)] and
      [JSON.parse] on values whose numbers are integers or [NaN]. *)

From Stdlib Require Import ZArith String Ascii List Bool Lia.
From Stdlib Require Import DecimalString DecimalZ DecimalPos DecimalFacts.
From stdpp Require Import base option list gmap strings.

Local Open Scope Z_scope.

(* ===================================================================== *)
(** * JavaScript primitives used by the component                        *)
(* ===================================================================== *)

Module Js.

(** White space of [String.prototype.trim] among the code units below 256:
    TAB, LF, VT, FF, CR, SPACE and NO-BREAK SPACE. *)
Definition is_whitespace (c : ascii) : bool :=
  let n := N_of_ascii c in
  ((9 <=? n) && (n <=? 13) || (n =? 32) || (n =? 160))%N.

Fixpoint trimStart (l : list ascii) : list ascii :=
  match l with
  | c :: l' => if is_whitespace c then trimStart l' else l
  | [] => []
  end.

Definition trimEnd (l : list ascii) : list ascii :=
  rev (trimStart (rev l)).

(** [s.trim()] *)
Definition trim (s : string) : string :=
  string_of_list_ascii (trimEnd (trimStart (list_ascii_of_string s))).

(** Truthiness of a string: every string but the empty one. *)
Definition truthy_string (s : string) : bool :=
  match s with
  | EmptyString => false
  | String _ _ => true
  end.

(** Truthiness of a number: every integer but 0. *)
Definition truthy_number (n : Z) : bool := negb (n =? 0).

(** [x || d] for a number-or-null [x]. *)
Definition or_number (x : option Z) (d : Z) : Z :=
  match x with
  | Some n => if truthy_number n then n else d
  | None => d
  end.

(** [ToNumber] of a number-or-null, as the arithmetic operators apply it:
    [null] is 0. *)
Definition to_number (x : option Z) : Z :=
  match x with
  | Some n => n
  | None => 0
  end.

(** [Math.ceil(n / d)] for integers [n] and a positive integer [d]. *)
Definition ceil_div (n d : Z) : Z := - ((- n) / d).

(** [Math.max(...l, 0)] *)
Definition max_with_0 (l : list Z) : Z := foldr Z.max 0 l.

(** Value of a digit in the given radix. *)
Definition digit_value (radix : Z) (c : ascii) : option Z :=
  let n := Z.of_N (N_of_ascii c) in
  let v := if (48 <=? n) && (n <=? 57) then Some (n - 48)
           else if (97 <=? n) && (n <=? 102) then Some (n - 87)
           else if (65 <=? n) && (n <=? 70) then Some (n - 55)
           else None in
  match v with
  | Some d => if d <? radix then Some d else None
  | None => None
  end.

(** The integer written by the longest prefix of digits; [acc] is [None]
    as long as no digit was read. *)
Fixpoint digits_prefix (radix : Z) (acc : option Z) (l : list ascii)
  : option Z :=
  match l with
  | c :: l' =>
      match digit_value radix c with
      | Some d => digits_prefix radix (Some (radix * to_number acc + d)) l'
      | None => acc
      end
  | [] => acc
  end.

(** [parseInt(s)] without a radix argument.  [None] is [NaN]. *)
Definition parseInt (s : string) : option Z :=
  let S0 := trimStart (list_ascii_of_string s) in
  let '(sign, S1) :=
    match S0 with
    | "-"%char :: r => (-1, r)
    | "+"%char :: r => (1, r)
    | _ => (1, S0)
    end in
  let '(radix, S2) :=
    match S1 with
    | "0"%char :: "x"%char :: r => (16, r)
    | "0"%char :: "X"%char :: r => (16, r)
    | _ => (10, S1)
    end in
  match digits_prefix radix None S2 with
  | Some n => Some (sign * n)
  | None => None
  end.

End Js.

(* ===================================================================== *)
(** * The component state                                                *)
(* ===================================================================== *)

(** [{ id, title, estimatedMin, actualMin, completed, timeSpent }] *)
Record Step := mkStep {
  step_id : Z;
  step_title : string;
  estimatedMin : Z;
  actualMin : option Z;
  completed : bool;
  timeSpent : Z
}.

(** [{ id, title, steps }] *)
Record Outcome := mkOutcome {
  outcome_id : Z;
  outcome_title : string;
  steps : list Step
}.

(** [activeTimer], when it is not [null]: [{ outcomeId, stepId }] *)
Record Timer := mkTimer {
  outcomeId : Z;
  stepId : Z
}.

Inductive NotificationType := NInfo | NSuccess | NWarning | NError.

Record Notification := mkNotification {
  message : string;
  type : NotificationType
}.

(** The form of a new step: both fields are the strings of the inputs. *)
Record NewStep := mkNewStep {
  ns_title : string;
  ns_estimatedMin : string
}.

(** The [useState] cells of [TimeBalanceApp] that the handlers below read
    or write. *)
Record AppState := mkAppState {
  outcomes : list Outcome;
  activeTimer : option Timer;
  timerSeconds : Z;
  stepNotes : gmap string string;
  timeBank : Z;
  newOutcome : string;
  newStep : NewStep;
  addingStepTo : option Z;
  notification : option Notification
}.

(** State setters.  [setOutcomes] takes the updater function, as every call
    of it in the handlers does ([setOutcomes(prev => ...)]); import and clear
    pass a constant function. *)
Definition setOutcomes (f : list Outcome -> list Outcome) (s : AppState)
  : AppState :=
  mkAppState (f (outcomes s)) (activeTimer s) (timerSeconds s) (stepNotes s)
    (timeBank s) (newOutcome s) (newStep s) (addingStepTo s) (notification s).

Definition setActiveTimer (a : option Timer) (s : AppState) : AppState :=
  mkAppState (outcomes s) a (timerSeconds s) (stepNotes s)
    (timeBank s) (newOutcome s) (newStep s) (addingStepTo s) (notification s).

Definition setTimerSeconds (f : Z -> Z) (s : AppState) : AppState :=
  mkAppState (outcomes s) (activeTimer s) (f (timerSeconds s)) (stepNotes s)
    (timeBank s) (newOutcome s) (newStep s) (addingStepTo s) (notification s).

Definition setStepNotes (n : gmap string string) (s : AppState) : AppState :=
  mkAppState (outcomes s) (activeTimer s) (timerSeconds s) n
    (timeBank s) (newOutcome s) (newStep s) (addingStepTo s) (notification s).

Definition setTimeBank (f : Z -> Z) (s : AppState) : AppState :=
  mkAppState (outcomes s) (activeTimer s) (timerSeconds s) (stepNotes s)
    (f (timeBank s)) (newOutcome s) (newStep s) (addingStepTo s)
    (notification s).

Definition setNewOutcome (v : string) (s : AppState) : AppState :=
  mkAppState (outcomes s) (activeTimer s) (timerSeconds s) (stepNotes s)
    (timeBank s) v (newStep s) (addingStepTo s) (notification s).

Definition setNewStep (v : NewStep) (s : AppState) : AppState :=
  mkAppState (outcomes s) (activeTimer s) (timerSeconds s) (stepNotes s)
    (timeBank s) (newOutcome s) v (addingStepTo s) (notification s).

Definition setAddingStepTo (v : option Z) (s : AppState) : AppState :=
  mkAppState (outcomes s) (activeTimer s) (timerSeconds s) (stepNotes s)
    (timeBank s) (newOutcome s) (newStep s) v (notification s).

Definition setNotification (v : option Notification) (s : AppState)
  : AppState :=
  mkAppState (outcomes s) (activeTimer s) (timerSeconds s) (stepNotes s)
    (timeBank s) (newOutcome s) (newStep s) (addingStepTo s) v.

(** [showNotification(message, type)]; the notice is cleared three seconds
    later by a timeout, which is no part of the handlers. *)
Definition showNotification (msg : string) (ty : NotificationType)
  (s : AppState) : AppState :=
  setNotification (Some (mkNotification msg ty)) s.

(** The cells as [useState] initialises them. *)
Definition initialState : AppState :=
  mkAppState [] None 0 ∅ 0 "" (mkNewStep "" "") None None.

Definition DEFAULT_OUTCOMES : list Outcome :=
  [ mkOutcome 1 "Write Marketing Blog Post"
      [ mkStep 1 "Research competitors & trends" 60 None false 0;
        mkStep 2 "Create detailed outline" 45 None false 0;
        mkStep 3 "Write first draft" 120 None false 0;
        mkStep 4 "Edit, optimize & publish" 30 None false 0 ];
    mkOutcome 2 "Design Client Logo"
      [ mkStep 1 "Research brand & create mood board" 90 None false 0;
        mkStep 2 "Sketch 10 initial concepts" 75 None false 0;
        mkStep 3 "Create 3 digital versions" 60 None false 0;
        mkStep 4 "Refine chosen concept" 45 None false 0 ] ].

(* ===================================================================== *)
(** * Balance accounting                                                 *)
(* ===================================================================== *)

(** [arr.reduce((sum, x) => sum + f(x), 0)] *)
Definition sum_by {A : Type} (f : A -> Z) (l : list A) : Z :=
  fold_left (fun sum x => sum + f x) l 0.

(** The [balance] memo of one outcome card. *)
Definition balance (outcome : Outcome) : Z :=
  let completedSteps := List.filter (fun step => completed step) (steps outcome) in
  if (Z.of_nat (length completedSteps) =? 0) then 0
  else
    let estimatedForCompleted := sum_by estimatedMin completedSteps in
    let actualForCompleted :=
      sum_by (fun step => Js.or_number (actualMin step) 0) completedSteps in
    estimatedForCompleted - actualForCompleted.

(** The [totalEstimated] memo of one outcome card. *)
Definition totalEstimated (outcome : Outcome) : Z :=
  sum_by estimatedMin (steps outcome).

(** The [globalBalance] memo: a function of [outcomes] and [timeBank]. *)
Definition globalBalance (s : AppState) : Z :=
  let outcomeBalance :=
    fold_left (fun total outcome =>
      let completedSteps :=
        List.filter (fun step => completed step) (steps outcome) in
      if (Z.of_nat (length completedSteps) =? 0) then total
      else
        let estimatedForCompleted := sum_by estimatedMin completedSteps in
        let actualForCompleted :=
          sum_by (fun step => Js.or_number (actualMin step) 0) completedSteps in
        total + (estimatedForCompleted - actualForCompleted))
      (outcomes s) 0 in
  outcomeBalance + timeBank s.

(** The [totalEstimatedToday] memo. *)
Definition totalEstimatedToday (s : AppState) : Z :=
  fold_left (fun total outcome => total + sum_by estimatedMin (steps outcome))
    (outcomes s) 0.

(* ===================================================================== *)
(** * Timer functions                                                    *)
(* ===================================================================== *)

Definition startTimer (outcomeId stepId : Z) (s : AppState) : AppState :=
  setTimerSeconds (fun _ => 0)
    (setActiveTimer (Some (mkTimer outcomeId stepId)) s).

(** The one-second interval, which runs while [activeTimer] is set. *)
Definition tick (s : AppState) : AppState :=
  match activeTimer s with
  | Some _ => setTimerSeconds (fun prev => prev + 1) s
  | None => s
  end.

Definition pauseTimer (s : AppState) : AppState :=
  let s1 :=
    match activeTimer s with
    | Some a =>
        let timeToAdd := Js.ceil_div (timerSeconds s) 60 in
        setOutcomes (fun prev => map (fun outcome =>
          if outcome_id outcome =? outcomeId a then
            mkOutcome (outcome_id outcome) (outcome_title outcome)
              (map (fun step =>
                 if step_id step =? stepId a then
                   mkStep (step_id step) (step_title step) (estimatedMin step)
                     (actualMin step) (completed step)
                     (Js.or_number (Some (timeSpent step)) 0 + timeToAdd)
                 else step) (steps outcome))
          else outcome) prev) s
    | None => s
    end in
  setTimerSeconds (fun _ => 0) (setActiveTimer None s1).

Definition addTime (s : AppState) : AppState :=
  if bool_decide (is_Some (activeTimer s)) && (timeBank s >=? 10) then
    showNotification "Added 10 minutes from time bank" NSuccess
      (setTimerSeconds (fun prev => prev + 600)
         (setTimeBank (fun prev => prev - 10) s))
  else
    showNotification "Not enough time in bank" NWarning s.

Definition markStepDone (s : AppState) : AppState :=
  let s1 :=
    match activeTimer s with
    | Some a =>
        let totalTime := Js.ceil_div (timerSeconds s) 60 in
        showNotification "Step completed!" NSuccess
          (setOutcomes (fun prev => map (fun outcome =>
             if outcome_id outcome =? outcomeId a then
               mkOutcome (outcome_id outcome) (outcome_title outcome)
                 (map (fun step =>
                    if step_id step =? stepId a then
                      mkStep (step_id step) (step_title step)
                        (estimatedMin step)
                        (Some (Js.or_number (Some (timeSpent step)) 0 + totalTime))
                        true
                        0
                    else step) (steps outcome))
             else outcome) prev) s)
    | None => s
    end in
  setTimerSeconds (fun _ => 0) (setActiveTimer None s1).

(* ===================================================================== *)
(** * Outcome and step management                                        *)
(* ===================================================================== *)

Definition addOutcome (s : AppState) : AppState :=
  if negb (Js.truthy_string (Js.trim (newOutcome s))) then s
  else
    let newId := Js.max_with_0 (map outcome_id (outcomes s)) + 1 in
    showNotification "Outcome added" NSuccess
      (setNewOutcome ""
         (setOutcomes (fun prev =>
            prev ++ [mkOutcome newId (Js.trim (newOutcome s)) []]) s)).

(** The updater of [addStep] on one outcome.  [parseInt] is evaluated in the
    branch of the matching outcome only.  Where it yields [NaN] the new step
    would hold a [NaN] estimate, which the integer model of minutes does not
    represent: the result is [None]. *)
Definition addStep_outcome (outcomeId : Z) (form : NewStep)
  (outcome : Outcome) : option Outcome :=
  if outcome_id outcome =? outcomeId then
    let newStepId := Js.max_with_0 (map step_id (steps outcome)) + 1 in
    match Js.parseInt (ns_estimatedMin form) with
    | Some est =>
        Some (mkOutcome (outcome_id outcome) (outcome_title outcome)
                (steps outcome ++
                   [mkStep newStepId (Js.trim (ns_title form)) est None false 0]))
    | None => None
    end
  else Some outcome.

(** [addStep(outcomeId)].  [None] only in the [NaN] case of
    [addStep_outcome]. *)
Definition addStep (outcomeId : Z) (s : AppState) : option AppState :=
  if negb (Js.truthy_string (Js.trim (ns_title (newStep s))))
     || negb (Js.truthy_string (ns_estimatedMin (newStep s)))
  then Some s
  else
    match mapM (addStep_outcome outcomeId (newStep s)) (outcomes s) with
    | Some outcomes' =>
        Some (showNotification "Step added" NSuccess
                (setAddingStepTo None
                   (setNewStep (mkNewStep "" "")
                      (setOutcomes (fun _ => outcomes') s))))
    | None => None
    end.

(** [removeOutcome(outcomeId)]; [confirmed] is the answer to the [confirm]
    dialog. *)
Definition removeOutcome (confirmed : bool) (outcomeId : Z) (s : AppState)
  : AppState :=
  if negb confirmed then s
  else
    showNotification "Outcome deleted" NSuccess
      (setOutcomes (fun prev =>
         List.filter (fun outcome => negb (outcome_id outcome =? outcomeId)) prev)
         s).

Definition removeStep (outcomeId stepId : Z) (s : AppState) : AppState :=
  showNotification "Step deleted" NSuccess
    (setOutcomes (fun prev => map (fun outcome =>
       if outcome_id outcome =? outcomeId then
         mkOutcome (outcome_id outcome) (outcome_title outcome)
           (List.filter (fun step => negb (step_id step =? stepId))
              (steps outcome))
       else outcome) prev) s).

(* ===================================================================== *)
(** * Data import/export                                                 *)
(* ===================================================================== *)

(** A value as [JSON.parse] can deliver it for the [outcomes] property.
    The elements of an array are outcome objects. *)
Inductive Dyn :=
| DUndefined
| DNull
| DBool (b : bool)
| DNum (n : Z)
| DStr (str : string)
| DObj
| DArr (a : list Outcome).

(** Truthiness: [undefined], [null], [false], [0] and [""] are falsy; objects
    and arrays, the empty array too, are truthy. *)
Definition truthy (v : Dyn) : bool :=
  match v with
  | DUndefined | DNull => false
  | DBool b => b
  | DNum n => Js.truthy_number n
  | DStr str => Js.truthy_string str
  | DObj | DArr _ => true
  end.

(** [Array.isArray] *)
Definition isArray (v : Dyn) : bool :=
  match v with
  | DArr _ => true
  | _ => false
  end.

(** The properties of a parsed document.  [stepNotes] is absent (or [null])
    or a notes object, [timeBank] is absent (or [null]) or a number;
    [exportDate] and [version] are never read by the import. *)
Record Doc := mkDoc {
  d_outcomes : Dyn;
  d_stepNotes : option (gmap string string);
  d_timeBank : option Z;
  d_exportDate : option string;
  d_version : option string
}.

(** What [JSON.parse(e.target.result)] makes of the text of a file. *)
Inductive Parsed :=
| SyntaxError              (* the text is no JSON: [JSON.parse] throws *)
| ParsedNull               (* the text [null]: reading [data.outcomes] throws *)
| ParsedDoc (data : Doc).  (* any other value, by the properties it has *)

(** What the file input and the [FileReader] deliver. *)
Inductive FileEvent :=
| NoFile                   (* [event.target.files[0]] is undefined *)
| ReadError                (* [reader.onerror] *)
| Loaded (text : Parsed).  (* [reader.onload] *)

(** The object [exportData] serialises. *)
Record ExportData := mkExportData {
  x_outcomes : list Outcome;
  x_stepNotes : gmap string string;
  x_timeBank : Z;
  x_exportDate : string;
  x_version : string
}.

(** [exportData()].  [now] is [new Date().toISOString()]; [download_ok] tells
    whether the blob and anchor calls of the [try] block go through.  The
    result is the object written to the downloaded file, if any, and the
    state after the handler. *)
Definition exportData (now : string) (download_ok : bool) (s : AppState)
  : option ExportData * AppState :=
  let exportData :=
    mkExportData (outcomes s) (stepNotes s) (timeBank s) now "1.0" in
  if download_ok then
    (Some exportData, showNotification "Data exported successfully" NSuccess s)
  else
    (None, showNotification "Export failed" NError s).

(** The body of the [try] block of [reader.onload]: [None] when it throws. *)
Definition import_try (text : Parsed) (s : AppState) : option AppState :=
  match text with
  | SyntaxError => None
  | ParsedNull => None
  | ParsedDoc data =>
      if negb (truthy (d_outcomes data)) || negb (isArray (d_outcomes data))
      then None
      else
        match d_outcomes data with
        | DArr a =>
            Some (showNotification "Data imported successfully" NSuccess
                    (setTimeBank (fun _ => Js.or_number (d_timeBank data) 0)
                       (setStepNotes (default ∅ (d_stepNotes data))
                          (setOutcomes (fun _ => a) s))))
        | _ => None
        end
  end.

(** [importData(event)], with the callbacks of the reader run. *)
Definition importData (event : FileEvent) (s : AppState) : AppState :=
  match event with
  | NoFile => s
  | ReadError => showNotification "Failed to read file" NError s
  | Loaded text =>
      match import_try text s with
      | Some s' => s'
      | None => showNotification "Import failed: Invalid file format" NError s
      end
  end.

(* ===================================================================== *)
(** * Events of the component                                            *)
(* ===================================================================== *)

Inductive Event :=
| ETypeOutcome (v : string)        (* [setNewOutcome(e.target.value)] *)
| ETypeStep (v : NewStep)          (* [setNewStep({...})] *)
| EAddOutcome
| EAddStep (outcomeId : Z)
| ERemoveOutcome (confirmed : bool) (outcomeId : Z)
| ERemoveStep (outcomeId stepId : Z)
| EStartTimer (outcomeId stepId : Z)
| ETick
| EPauseTimer
| EAddTime
| EMarkStepDone
| EExport (now : string) (download_ok : bool)
| EImport (event : FileEvent).

(** The state after an event; [None] as for [addStep]. *)
Definition handle (e : Event) (s : AppState) : option AppState :=
  match e with
  | ETypeOutcome v => Some (setNewOutcome v s)
  | ETypeStep v => Some (setNewStep v s)
  | EAddOutcome => Some (addOutcome s)
  | EAddStep o => addStep o s
  | ERemoveOutcome c o => Some (removeOutcome c o s)
  | ERemoveStep o st => Some (removeStep o st s)
  | EStartTimer o st => Some (startTimer o st s)
  | ETick => Some (tick s)
  | EPauseTimer => Some (pauseTimer s)
  | EAddTime => Some (addTime s)
  | EMarkStepDone => Some (markStepDone s)
  | EExport now ok => Some (snd (exportData now ok s))
  | EImport ev => Some (importData ev s)
  end.

(** Runs of the component: the states a list of events leads to. *)
Inductive run : AppState -> list Event -> AppState -> Prop :=
| run_nil s : run s [] s
| run_cons s e s1 es s2 :
    handle e s = Some s1 -> run s1 es s2 -> run s (e :: es) s2.

(* ===================================================================== *)
(** * The persistence adapter ([app/utils/storage.js])                   *)
(* ===================================================================== *)

Module Storage.

(** Outcome of a computation that can throw. *)
Inductive Res (A : Type) :=
| Ok (a : A)
| Thrown (msg : string).
Arguments Ok {A} a.
Arguments Thrown {A} msg.

(** What reading [window.localStorage] does where there is a [window]: the
    getter throws (a browser that blocks storage for the page raises a
    [SecurityError]), or it delivers [undefined], [null] or the storage
    object. *)
Inductive LocalStorageGetter :=
| GetterThrows (msg : string)
| GetterUndefined
| GetterNull
| GetterStorage.

Section Adapter.

(** The values handed to the adapter. *)
Context {V : Type}.

(** [JSON.stringify] and [JSON.parse]; [None] when they throw.  The text
    of [JSON_stringify] is the one [setItem] stores: where [JSON.stringify]
    returns [undefined] that is the string ["undefined"]. *)
Variable JSON_stringify : V -> option string.
Variable JSON_parse : string -> option V.

(** The environment [isBrowser()] looks at.  [None]: [typeof window] is
    ['undefined'].  Otherwise what reading the property [window.localStorage]
    does. *)
Variable window : option LocalStorageGetter.

(** [value === undefined], for a value handed to the adapter. *)
Variable is_undefined : V -> bool.

(** Whether [localStorage.setItem(k, v)] goes through on the given
    content of the store (quota, private browsing) or throws. *)
Variable setItem_ok : gmap string string -> string -> string -> bool.

(** The two stores: the content of [window.localStorage] and the module
    variable [memoryStorage], a [Map]. *)
Record World := mkWorld {
  localStorage : gmap string string;
  memoryStorage : gmap string V
}.

(** Computations on the stores that can throw. *)
Definition M (A : Type) : Type := World -> Res A * World.

Definition ret {A} (a : A) : M A := fun w => (Ok a, w).

Definition throw {A} (msg : string) : M A := fun w => (Thrown msg, w).

Definition bind {A B} (m : M A) (k : A -> M B) : M B :=
  fun w =>
    match m w with
    | (Ok a, w') => k a w'
    | (Thrown msg, w') => (Thrown msg, w')
    end.

(** [try { body } catch (error) { handler(error.message) }]: the handler
    runs on the stores as the body left them. *)
Definition try_catch {A} (body : M A) (handler : string -> M A) : M A :=
  fun w =>
    match body w with
    | (Ok a, w') => (Ok a, w')
    | (Thrown msg, w') => handler msg w'
    end.

Notation "'let!' x ':=' m 'in' k" := (bind m (fun x => k))
  (at level 10, x name, m at level 100, k at level 200).
Notation "'exec!' m 'in' k" := (bind m (fun _ => k))
  (at level 10, m at level 100, k at level 200).

Definition localStorage_setItem (k v : string) : M unit :=
  fun w =>
    if setItem_ok (localStorage w) k v then
      (Ok tt, mkWorld (<[k := v]> (localStorage w)) (memoryStorage w))
    else (Thrown "QuotaExceededError", w).

Definition localStorage_removeItem (k : string) : M unit :=
  fun w => (Ok tt, mkWorld (delete k (localStorage w)) (memoryStorage w)).

Definition localStorage_getItem (k : string) : M (option string) :=
  fun w => (Ok (localStorage w !! k), w).

Definition localStorage_clear : M unit :=
  fun w => (Ok tt, mkWorld ∅ (memoryStorage w)).

Definition memoryStorage_set (k : string) (v : V) : M unit :=
  fun w => (Ok tt, mkWorld (localStorage w) (<[k := v]> (memoryStorage w))).

Definition memoryStorage_get (k : string) : M (option V) :=
  fun w => (Ok (memoryStorage w !! k), w).

Definition memoryStorage_delete (k : string) : M unit :=
  fun w => (Ok tt, mkWorld (localStorage w) (delete k (memoryStorage w))).

Definition memoryStorage_clear : M unit :=
  fun w => (Ok tt, mkWorld (localStorage w) ∅).

Definition stringify (v : V) : M string :=
  match JSON_stringify v with
  | Some str => ret str
  | None => throw "TypeError"
  end.

Definition parse (str : string) : M V :=
  match JSON_parse str with
  | Some v => ret v
  | None => throw "SyntaxError"
  end.

(** [isBrowser()].  [typeof window.localStorage] and
    [window.localStorage !== null] read the property, so a getter that
    throws makes the call throw. *)
Definition isBrowser : M bool :=
  match window with
  | None => ret false
  | Some (GetterThrows msg) => throw msg
  | Some GetterUndefined => ret false
  | Some GetterNull => ret false
  | Some GetterStorage => ret true
  end.

Definition isStorageAvailable : M bool :=
  let! browser := isBrowser in
  if negb browser then ret false
  else
    try_catch
      (let testKey := "__storage_test__"%string in
       exec! localStorage_setItem testKey "test" in
       exec! localStorage_removeItem testKey in
       ret true)
      (fun _ => ret false).

(** [memoryItem !== undefined ? memoryItem : defaultValue], [memoryItem]
    being what [memoryStorage.get(key)] returns: [undefined] for a key the
    map does not hold. *)
Definition defined_or (memoryItem : option V) (defaultValue : V) : V :=
  match memoryItem with
  | Some v => if is_undefined v then defaultValue else v
  | None => defaultValue
  end.

Definition get (key : string) (defaultValue : V) : M V :=
  let! browser := isBrowser in
  if negb browser then ret defaultValue
  else
    try_catch
      (let! available := isStorageAvailable in
       if available then
         let! item := localStorage_getItem key in
         match item with
         | Some str =>
             if Js.truthy_string str then parse str else ret defaultValue
         | None => ret defaultValue
         end
       else
         let! memoryItem := memoryStorage_get key in
         ret (defined_or memoryItem defaultValue))
      (fun _ =>
         try_catch
           (let! memoryItem := memoryStorage_get key in
            ret (defined_or memoryItem defaultValue))
           (fun _ => ret defaultValue)).

Definition set (key : string) (value : V) : M bool :=
  let! browser := isBrowser in
  if negb browser then ret false
  else
    try_catch
      (let! serializedValue := stringify value in
       let! available := isStorageAvailable in
       if available then
         exec! localStorage_setItem key serializedValue in
         exec! memoryStorage_set key value in
         ret true
       else
         exec! memoryStorage_set key value in
         ret true)
      (fun _ =>
         try_catch
           (exec! memoryStorage_set key value in
            ret true)
           (fun _ => ret false)).

Definition remove (key : string) : M bool :=
  let! browser := isBrowser in
  if negb browser then ret false
  else
    try_catch
      (let! available := isStorageAvailable in
       exec! (if available then localStorage_removeItem key else ret tt) in
       exec! memoryStorage_delete key in
       ret true)
      (fun _ =>
         try_catch
           (exec! memoryStorage_delete key in
            ret true)
           (fun _ => ret false)).

Definition clear : M bool :=
  let! browser := isBrowser in
  if negb browser then ret false
  else
    try_catch
      (let! available := isStorageAvailable in
       exec! (if available then localStorage_clear else ret tt) in
       exec! memoryStorage_clear in
       ret true)
      (fun _ =>
         try_catch
           (exec! memoryStorage_clear in
            ret true)
           (fun _ => ret false)).

(** [isBrowser() && isStorageAvailable()] *)
Definition isAvailable : M bool :=
  let! browser := isBrowser in
  if browser then isStorageAvailable else ret false.

Definition getStorageType : M string :=
  let! browser := isBrowser in
  if negb browser then ret "none"%string
  else
    let! available := isStorageAvailable in
    if available then ret "localStorage"%string else ret "memory"%string.

(** [keys()].  The array is built from a [Set]; it is modelled by the set of
    its elements, the order of [localStorage.key(i)] being the browser's.
    A key of [localStorage] that is the empty string is skipped
    ([if (key) keys.add(key)]), a key of the memory map is not. *)
Definition keys : M (gset string) :=
  let! browser := isBrowser in
  if negb browser then ret ∅
  else
    try_catch
      (let! available := isStorageAvailable in
       let! fromLocal :=
         (if available then
            fun w => (Ok (filter (fun key => Is_true (Js.truthy_string key))
                            (dom (localStorage w))), w)
          else ret ∅) in
       let! fromMemory := (fun w => (Ok (dom (memoryStorage w)), w)) in
       ret (fromLocal ∪ fromMemory))
      (fun _ => fun w => (Ok (dom (memoryStorage w)), w)).

(** A computation returns: it does not throw. *)
Definition returns {A} (m : M A) (w : World) : Prop :=
  exists a w', m w = (Ok a, w').

End Adapter.

Arguments World V : clear implicits.
Arguments M V A : clear implicits.

End Storage.

(* ===================================================================== *)
(** * Specification-side definitions                                     *)
(* ===================================================================== *)

Definition Zsum (l : list Z) : Z := foldr Z.add 0 l.

(** The accounting rules as the specification words them.  What one step
    contributes to a balance: estimated minus actual minutes when it is
    completed, nothing otherwise. *)
Definition spec_step_balance (step : Step) : Z :=
  if completed step then estimatedMin step - Js.to_number (actualMin step)
  else 0.

(** Per-outcome balance: the sum of the contributions of its steps. *)
Definition spec_outcome_balance (outcome : Outcome) : Z :=
  Zsum (map spec_step_balance (steps outcome)).

(** Global balance: the sum of the outcome balances plus the time bank. *)
Definition spec_global_balance (os : list Outcome) (bank : Z) : Z :=
  Zsum (map spec_outcome_balance os) + bank.

(** The invariant of the data model: a step that is not completed has no
    actual minutes. *)
Definition step_ok (step : Step) : Prop :=
  completed step = false -> actualMin step = None.

Definition outcomes_ok (os : list Outcome) : Prop :=
  Forall (fun outcome => Forall step_ok (steps outcome)) os.

(** The step of a list of outcomes at position [j] of the outcome at
    position [i]. *)
Definition step_at (os : list Outcome) (i j : nat) : option Step :=
  match os !! i with
  | Some outcome => steps outcome !! j
  | None => None
  end.

(** Whether a step is named by a timer: it has the timer's [stepId] and
    lies in an outcome that has the timer's [outcomeId]. *)
Definition targets (a : Timer) (outcome : Outcome) (step : Step) : bool :=
  (outcome_id outcome =? outcomeId a) && (step_id step =? stepId a).

(** Whether some step of the list is named by the timer. *)
Definition timer_target_exists (a : Timer) (os : list Outcome) : bool :=
  existsb (fun outcome => existsb (targets a outcome) (steps outcome)) os.

(** The step a pause leaves in place of [step]. *)
Definition paused (sec : Z) (step : Step) : Step :=
  mkStep (step_id step) (step_title step) (estimatedMin step)
    (actualMin step) (completed step)
    (timeSpent step + Js.ceil_div sec 60).

(** The step a completion leaves in place of [step]. *)
Definition finished (sec : Z) (step : Step) : Step :=
  mkStep (step_id step) (step_title step) (estimatedMin step)
    (Some (timeSpent step + Js.ceil_div sec 60)) true 0.

(** The state of the worked example: one step with [timeSpent = 5], its
    timer running for 125 seconds. *)
Definition example_running : AppState :=
  mkAppState
    [mkOutcome 1 "Write" [mkStep 1 "Draft" 10 None false 5;
                          mkStep 2 "Edit" 20 None false 0]]
    (Some (mkTimer 1 1)) 125 ∅ 0 "" (mkNewStep "" "") None None.

(** The [outcomes] property is present and is a sequence. *)
Definition is_sequence (v : Dyn) : Prop := exists a, v = DArr a.

(** The document of the failing example: [{ outcomes: "not-an-array" }]. *)
Definition not_an_array_doc : Doc :=
  mkDoc (DStr "not-an-array") None None None None.

(** The form filled with a title and the estimate [est], for an outcome
    without steps. *)
Definition step_form (est : string) : AppState :=
  mkAppState [mkOutcome 1 "Write" []] None 0 ∅ 0 ""
    (mkNewStep "Draft" est) (Some 1) None.

(** An import that installs outcomes which satisfy the invariant. *)
Definition import_ok (event : FileEvent) : Prop :=
  match event with
  | Loaded (ParsedDoc data) =>
      match d_outcomes data with
      | DArr a => outcomes_ok a
      | _ => True
      end
  | _ => True
  end.

Definition event_ok (e : Event) : Prop :=
  match e with
  | EImport event => import_ok event
  | _ => True
  end.

(** A document with a step that is not completed and has actual minutes. *)
Definition inconsistent_doc : Doc :=
  mkDoc (DArr [mkOutcome 1 "Write" [mkStep 1 "Draft" 10 (Some 5) false 0]])
    None None None None.

(** The sentinel key of the availability probe. *)
Definition testKey : string := "__storage_test__".

(** The primary store takes every write. *)
Definition accepts_all (setItem_ok : gmap string string -> string -> string -> bool)
  : Prop :=
  forall m k v, setItem_ok m k v = true.

(** Whether [isBrowser()] finds the storage object. *)
Definition has_storage (window : option Storage.LocalStorageGetter) : bool :=
  match window with
  | Some Storage.GetterStorage => true
  | _ => false
  end.

(** What [get] makes of an item read from the primary store: the parsed
    value; the default for a missing or empty item; when the item does not
    parse, the entry of the memory map unless it is missing or [undefined],
    and the default then. *)
Definition decode_item {V : Type} (JSON_parse : string -> option V)
  (is_undefined : V -> bool)
  (defaultValue : V) (memoryItem : option V) (item : option string) : V :=
  match item with
  | Some str =>
      if Js.truthy_string str then
        match JSON_parse str with
        | Some v => v
        | None => Storage.defined_or is_undefined memoryItem defaultValue
        end
      else defaultValue
  | None => defaultValue
  end.

(* ===================================================================== *)
(** * Text: numbers in strings, dates, notes and the two formatters      *)
(* ===================================================================== *)

Module JsText.

(** [String(n)] of an integer, as template literals and [+] with a string
    apply it: decimal digits, with a leading minus sign for a negative
    number. *)
Definition toString (n : Z) : string :=
  NilZero.string_of_int (Z.to_int n).

(** [s.padStart(targetLength, c)] for a filler of one character. *)
Definition padStart (targetLength : nat) (c : ascii) (s : string) : string :=
  string_of_list_ascii (repeat c (targetLength - String.length s)) ++ s.

(** [s.split(c)[0]]: the characters before the first [c]. *)
Fixpoint split_0 (c : ascii) (s : string) : string :=
  match s with
  | EmptyString => EmptyString
  | String d s' => if Ascii.eqb d c then EmptyString else String d (split_0 c s')
  end.

(** A decimal digit. *)
Definition is_digit (c : ascii) : bool :=
  let n := N_of_ascii c in ((48 <=? n) && (n <=? 57))%N.

(** Every character of the string satisfies [p]. *)
Fixpoint all_chars (p : ascii -> bool) (s : string) : bool :=
  match s with
  | EmptyString => true
  | String c s' => p c && all_chars p s'
  end.

End JsText.

(** [new Date().toISOString().split('T')[0]], from the ISO string. *)
Definition today (now : string) : string := JsText.split_0 "T" now.

(** The key of a note: [`${outcomeId}-${stepId}-${today}`]. *)
Definition noteKey (outcomeId stepId : Z) (day : string) : string :=
  JsText.toString outcomeId ++ "-" ++ JsText.toString stepId ++ "-" ++ day.

Definition saveStepNote (now : string) (outcomeId stepId : Z) (note : string)
  (s : AppState) : AppState :=
  setStepNotes (<[noteKey outcomeId stepId (today now) := note]> (stepNotes s))
    s.

(** [stepNotes[noteKey] || ''] *)
Definition getStepNote (now : string) (outcomeId stepId : Z) (s : AppState)
  : string :=
  match stepNotes s !! noteKey outcomeId stepId (today now) with
  | Some note => if Js.truthy_string note then note else ""
  | None => ""
  end.

(** [formatTime(minutes)]; [%] is the remainder of JavaScript, taken of a
    number that is not negative here. *)
Definition formatTime (minutes : Z) : string :=
  if minutes =? 0 then "0m"
  else
    let hours := Z.abs minutes / 60 in
    let mins := Z.rem (Z.abs minutes) 60 in
    let sign : string := if minutes <? 0 then "-" else "+" in
    if hours >? 0 then
      Js.trim (sign ++ JsText.toString hours ++ "h "
               ++ (if mins >? 0 then JsText.toString mins ++ "m" else ""))
    else sign ++ JsText.toString mins ++ "m".

(** [formatSeconds(seconds)]: [Math.floor] of the quotient, and the
    remainder of JavaScript, which has the sign of [seconds]. *)
Definition formatSeconds (seconds : Z) : string :=
  let mins := seconds / 60 in
  let secs := Z.rem seconds 60 in
  JsText.toString mins ++ ":" ++ JsText.padStart 2 "0" (JsText.toString secs).

(* ===================================================================== *)
(** * Editing titles, and the remaining cells of the component           *)
(* ===================================================================== *)

(** The cells of [TimeBalanceApp] beside those of [AppState].  [editingStep]
    is [null] or [{ outcomeId, stepId }]; [lastSaved] is kept as the ISO
    string of the date. *)
Record UiState := mkUiState {
  app : AppState;
  editingOutcome : option Z;
  editingStep : option Timer;
  editValue : string;
  editingNotes : option string;
  lastSaved : option string;
  isLoading : bool;
  storageType : string
}.

Definition setApp (f : AppState -> AppState) (u : UiState) : UiState :=
  mkUiState (f (app u)) (editingOutcome u) (editingStep u) (editValue u)
    (editingNotes u) (lastSaved u) (isLoading u) (storageType u).

Definition setEditingOutcome (v : option Z) (u : UiState) : UiState :=
  mkUiState (app u) v (editingStep u) (editValue u)
    (editingNotes u) (lastSaved u) (isLoading u) (storageType u).

Definition setEditingStep (v : option Timer) (u : UiState) : UiState :=
  mkUiState (app u) (editingOutcome u) v (editValue u)
    (editingNotes u) (lastSaved u) (isLoading u) (storageType u).

Definition setEditValue (v : string) (u : UiState) : UiState :=
  mkUiState (app u) (editingOutcome u) (editingStep u) v
    (editingNotes u) (lastSaved u) (isLoading u) (storageType u).

Definition setLastSaved (v : option string) (u : UiState) : UiState :=
  mkUiState (app u) (editingOutcome u) (editingStep u) (editValue u)
    (editingNotes u) v (isLoading u) (storageType u).

Definition setIsLoading (v : bool) (u : UiState) : UiState :=
  mkUiState (app u) (editingOutcome u) (editingStep u) (editValue u)
    (editingNotes u) (lastSaved u) v (storageType u).

Definition setStorageType (v : string) (u : UiState) : UiState :=
  mkUiState (app u) (editingOutcome u) (editingStep u) (editValue u)
    (editingNotes u) (lastSaved u) (isLoading u) v.

(** The cells as [useState] initialises them. *)
Definition initialUi : UiState :=
  mkUiState initialState None None "" None None true "none".

Definition startEditOutcome (outcomeId : Z) (currentTitle : string)
  (u : UiState) : UiState :=
  setEditValue currentTitle (setEditingOutcome (Some outcomeId) u).

(** [outcome.id === editingOutcome], the latter being a number or [null]. *)
Definition id_is (n : Z) (v : option Z) : bool :=
  match v with
  | Some m => n =? m
  | None => false
  end.

Definition saveOutcomeEdit (u : UiState) : UiState :=
  if negb (Js.truthy_string (Js.trim (editValue u))) then u
  else
    setEditValue ""
      (setEditingOutcome None
         (setApp (setOutcomes (fun prev => map (fun outcome =>
            if id_is (outcome_id outcome) (editingOutcome u) then
              mkOutcome (outcome_id outcome) (Js.trim (editValue u))
                (steps outcome)
            else outcome) prev)) u)).

Definition startEditStep (outcomeId stepId : Z) (currentTitle : string)
  (u : UiState) : UiState :=
  setEditValue currentTitle
    (setEditingStep (Some (mkTimer outcomeId stepId)) u).

(** [saveStepEdit()].  The updater reads [editingStep.outcomeId] for every
    outcome: with [editingStep] being [null] and an outcome in the list it
    throws a [TypeError], which is [None] here. *)
Definition saveStepEdit (u : UiState) : option UiState :=
  if negb (Js.truthy_string (Js.trim (editValue u))) then Some u
  else
    match editingStep u, outcomes (app u) with
    | None, _ :: _ => None
    | None, [] => Some (setEditValue "" (setEditingStep None u))
    | Some e, _ =>
        Some (setEditValue ""
                (setEditingStep None
                   (setApp (setOutcomes (fun prev => map (fun outcome =>
                      if outcome_id outcome =? outcomeId e then
                        mkOutcome (outcome_id outcome) (outcome_title outcome)
                          (map (fun step =>
                             if step_id step =? stepId e then
                               mkStep (step_id step) (Js.trim (editValue u))
                                 (estimatedMin step) (actualMin step)
                                 (completed step) (timeSpent step)
                             else step) (steps outcome))
                      else outcome) prev)) u)))
    end.

(* ===================================================================== *)
(** * Saving and loading through the persistence adapter                 *)
(* ===================================================================== *)

(** The values the component hands to the adapter and gets back from it:
    [null] (the default of [get]), the outcome list, the notes object, a
    number, the object [{ activeTimer, timerSeconds }] and a string. *)
Inductive Stored :=
| SNull
| SOutcomes (os : list Outcome)
| SNotes (notes : gmap string string)
| SNumber (n : Z)
| STimer (active : option Timer) (seconds : Z)
| SString (str : string).

(** [STORAGE_KEYS] *)
Definition KEY_OUTCOMES : string := "timebalance-outcomes".
Definition KEY_NOTES : string := "timebalance-notes".
Definition KEY_TIME_BANK : string := "timebalance-timebank".
Definition KEY_TIMER : string := "timebalance-timer".
Definition KEY_LAST_SAVED : string := "timebalance-lastsaved".

(** [Object.values(STORAGE_KEYS)] *)
Definition STORAGE_KEYS : list string :=
  [KEY_OUTCOMES; KEY_NOTES; KEY_TIME_BANK; KEY_TIMER; KEY_LAST_SAVED].

(** [savedOutcomes || DEFAULT_OUTCOMES], for the values the component can
    go on with: a falsy value gives the defaults, an array is taken as it
    is.  [None]: another truthy value would be installed as the list. *)
Definition outcomes_or_default (v : Stored) : option (list Outcome) :=
  match v with
  | SNull => Some DEFAULT_OUTCOMES
  | SOutcomes os => Some os
  | SNumber n => if Js.truthy_number n then None else Some DEFAULT_OUTCOMES
  | SString str => if Js.truthy_string str then None else Some DEFAULT_OUTCOMES
  | SNotes _ | STimer _ _ => None
  end.

(** The value read for the notes, when it is a notes object. *)
Definition as_notes (v : Stored) : option (gmap string string) :=
  match v with
  | SNotes notes => Some notes
  | _ => None
  end.

(** The value read for the time bank, when it is a number. *)
Definition as_number (v : Stored) : option Z :=
  match v with
  | SNumber n => Some n
  | _ => None
  end.

(** [if (savedTimer) { setActiveTimer(savedTimer.activeTimer);
    setTimerSeconds(savedTimer.timerSeconds || 0) }]; [None] for a truthy
    value that is no timer object. *)
Definition restore_timer (v : Stored) (s : AppState) : option AppState :=
  match v with
  | SNull => Some s
  | STimer active seconds =>
      Some (setTimerSeconds (fun _ => Js.or_number (Some seconds) 0)
              (setActiveTimer active s))
  | SNumber n => if Js.truthy_number n then None else Some s
  | SString str => if Js.truthy_string str then None else Some s
  | SOutcomes _ | SNotes _ => None
  end.

(** [if (savedTime) setLastSaved(new Date(savedTime))]; [None] for a truthy
    value that is no string. *)
Definition restore_lastSaved (v : Stored) (u : UiState) : option UiState :=
  match v with
  | SNull => Some u
  | SString str =>
      if Js.truthy_string str then Some (setLastSaved (Some str) u)
      else Some u
  | SNumber n => if Js.truthy_number n then None else Some u
  | SOutcomes _ | SNotes _ | STimer _ _ => None
  end.

(** [value === undefined]: none of these values is. *)
Definition stored_is_undefined (v : Stored) : bool := false.

Section Persistence.

Variable JSON_stringify : Stored -> option string.
Variable JSON_parse : string -> option Stored.
Variable window : option Storage.LocalStorageGetter.
Variable setItem_ok : gmap string string -> string -> string -> bool.

Notation "'let!' x ':=' m 'in' k" := (Storage.bind m (fun x => k))
  (at level 10, x name, m at level 100, k at level 200).

Local Abbreviation storage_set :=
  (Storage.set JSON_stringify window setItem_ok).
Local Abbreviation storage_get :=
  (Storage.get JSON_parse window stored_is_undefined setItem_ok).
Local Abbreviation storage_remove := (Storage.remove window setItem_ok).
Local Abbreviation storage_getStorageType :=
  (Storage.getStorageType window setItem_ok).

(** [saveData()].  [now] and [now'] are the two readings of the clock, for
    the stored time stamp and for [lastSaved]. *)
Definition saveData (now now' : string) (u : UiState)
  : Storage.M Stored UiState :=
  Storage.try_catch
    (let! r1 := storage_set KEY_OUTCOMES (SOutcomes (outcomes (app u))) in
     let! r2 := storage_set KEY_NOTES (SNotes (stepNotes (app u))) in
     let! r3 := storage_set KEY_TIME_BANK (SNumber (timeBank (app u))) in
     let! r4 := storage_set KEY_TIMER
                  (STimer (activeTimer (app u)) (timerSeconds (app u))) in
     let! r5 := storage_set KEY_LAST_SAVED (SString now) in
     let allSuccessful := forallb (fun result => result) [r1; r2; r3; r4; r5] in
     if allSuccessful then Storage.ret (setLastSaved (Some now') u)
     else
       let! currentStorageType := storage_getStorageType in
       if String.eqb currentStorageType "memory" then
         Storage.ret
           (setApp (showNotification
                      "Data saved to memory (localStorage unavailable)"
                      NWarning) u)
       else
         Storage.ret
           (setApp (showNotification
                      "Some data may not have saved correctly" NWarning) u))
    (fun _ =>
       Storage.ret (setApp (showNotification "Failed to save data" NError) u)).

(** The part of the [try] block of [loadData()] that follows the reads:
    the setters and the notice about the storage type.  [None] as for
    [outcomes_or_default]. *)
Definition install_loaded (currentStorageType : string)
  (savedOutcomes savedNotes savedTimeBank savedTimer savedTime : Stored)
  (u : UiState) : option UiState :=
  match outcomes_or_default savedOutcomes, as_notes savedNotes,
        as_number savedTimeBank with
  | Some os, Some notes, Some bank =>
      match restore_timer savedTimer
              (setTimeBank (fun _ => bank)
                 (setStepNotes notes
                    (setOutcomes (fun _ => os) (app u)))) with
      | Some s1 =>
          match restore_lastSaved savedTime
                  (setApp (fun _ => s1)
                     (setStorageType currentStorageType u)) with
          | Some u1 =>
              Some
                (if String.eqb currentStorageType "memory" then
                   setApp (showNotification
                             "Using memory storage (data will not persist)"
                             NWarning) u1
                 else if String.eqb currentStorageType "none" then
                   setApp (showNotification
                             "Storage unavailable - changes will not be saved"
                             NError) u1
                 else u1)
          | None => None
          end
      | None => None
      end
  | _, _, _ => None
  end.

(** The [try] block of [loadData()]. *)
Definition loadData_try (u : UiState) : Storage.M Stored (option UiState) :=
  let! currentStorageType := storage_getStorageType in
  let! savedOutcomes := storage_get KEY_OUTCOMES SNull in
  let! savedNotes := storage_get KEY_NOTES (SNotes ∅) in
  let! savedTimeBank := storage_get KEY_TIME_BANK (SNumber 0) in
  let! savedTimer := storage_get KEY_TIMER SNull in
  let! savedTime := storage_get KEY_LAST_SAVED SNull in
  Storage.ret
    (install_loaded currentStorageType savedOutcomes savedNotes
       savedTimeBank savedTimer savedTime u).

(** [loadData()]: the [try] block, the [catch] block and [finally]. *)
Definition loadData (u : UiState) : Storage.M Stored (option UiState) :=
  let! loaded :=
    Storage.try_catch (loadData_try u)
      (fun _ =>
         Storage.ret
           (Some (setApp (setOutcomes (fun _ => DEFAULT_OUTCOMES))
                    (setApp (showNotification
                               "Failed to load saved data. Starting fresh."
                               NWarning) u)))) in
  Storage.ret (option_map (setIsLoading false) loaded).

(** The effect that saves after every change of the state: it runs
    [saveData] once loading is over, while the list of outcomes is not
    empty and [window] is defined. *)
Definition autoSave (windowDefined : bool) (now now' : string) (u : UiState)
  : Storage.M Stored UiState :=
  if negb (isLoading u) && (0 <? Z.of_nat (length (outcomes (app u))))
     && windowDefined
  then saveData now now' u
  else Storage.ret u.

(** [storage.remove(key)] for every key of the list, in order. *)
Fixpoint remove_each (ks : list string) : Storage.M Stored unit :=
  match ks with
  | k :: ks' => let! _ignored := storage_remove k in remove_each ks'
  | [] => Storage.ret tt
  end.

(** [clearAllData()]; [confirmed] is the answer to the [confirm] dialog. *)
Definition clearAllData (confirmed : bool) (u : UiState)
  : Storage.M Stored UiState :=
  if negb confirmed then Storage.ret u
  else
    let cleared :=
      setLastSaved None
        (setApp (fun s =>
           setTimerSeconds (fun _ => 0)
             (setActiveTimer None
                (setTimeBank (fun _ => 0)
                   (setStepNotes ∅
                      (setOutcomes (fun _ => []) s))))) u) in
    Storage.try_catch
      (let! _done := remove_each STORAGE_KEYS in
       Storage.ret
         (setApp (showNotification "All data cleared" NSuccess) cleared))
      (fun _ =>
         Storage.ret
           (setApp (showNotification "Failed to clear data" NError) cleared)).

End Persistence.

(** [n] runs of the one-second interval. *)
Definition ticks (n : nat) (s : AppState) : AppState := Nat.iter n tick s.

(** Outcome ids are pairwise distinct, and so are the step ids within each
    outcome. *)
Definition ids_unique (os : list Outcome) : Prop :=
  NoDup (map outcome_id os) /\
  Forall (fun outcome => NoDup (map step_id (steps outcome))) os.

(** An event that, when it is an import, installs outcomes with distinct
    ids. *)
Definition event_keeps_ids (e : Event) : Prop :=
  match e with
  | EImport (Loaded (ParsedDoc data)) =>
      match d_outcomes data with
      | DArr a => ids_unique a
      | _ => True
      end
  | _ => True
  end.

(** The running example with the title of its first step being edited. *)
Definition example_editing : UiState :=
  mkUiState example_running None (Some (mkTimer 1 1)) "Outline" None None
    false "localStorage".

(** One work session on a step: start its timer, let [n] seconds pass,
    pause. *)
Definition session (n : nat) (outcomeId stepId : Z) (s : AppState)
  : AppState :=
  pauseTimer (ticks n (startTimer outcomeId stepId s)).

(** The running example with a second step just created (it has the
    highest id), a note on it, and the form filled for one more step. *)
Definition example_noted : AppState :=
  mkAppState
    [mkOutcome 1 "Write" [mkStep 1 "Draft" 10 None false 5;
                          mkStep 2 "Edit" 20 None false 0]]
    None 0 {[ noteKey 1 2 "2025-01-31" := "ask Ana"%string ]} 0 ""
    (mkNewStep "Publish" "15") (Some 1) None.

(** What a reader of the primary store finds under a key: the item, the
    sentinel of the probe being gone. *)
Definition item {V : Type} (w : Storage.World V) (k : string) : option string :=
  delete testKey (Storage.localStorage w) !! k.

(** A key that [get] cannot find: the memory map does not hold it, and the
    primary store does not hold it or is unavailable. *)
Definition absent {V : Type}
  (setItem_ok : gmap string string -> string -> string -> bool)
  (w : Storage.World V) (k : string) : Prop :=
  Storage.memoryStorage w !! k = None /\
  (Storage.localStorage w !! k = None \/
   setItem_ok (Storage.localStorage w) testKey "test" = false).

(** A state of the component with data in it, loading being over. *)
Definition example_ui : UiState :=
  mkUiState example_noted None None "" None None false "localStorage".

(** The five values [saveData] writes. *)
Definition saved_values (now : string) (u : UiState) : list Stored :=
  [SOutcomes (outcomes (app u)); SNotes (stepNotes (app u));
   SNumber (timeBank (app u));
   STimer (activeTimer (app u)) (timerSeconds (app u)); SString now].

(** A value that serialises to a text that is not empty and parses back to
    the value. *)
Definition round_trips (JSON_stringify : Stored -> option string)
  (JSON_parse : string -> option Stored) (v : Stored) : Prop :=
  exists ser,
    JSON_stringify v = Some ser /\ ser <> ""%string /\
    JSON_parse ser = Some v.

(** The data of the component that is saved and loaded. *)
Definition same_data (u u' : UiState) : Prop :=
  outcomes (app u') = outcomes (app u) /\
  stepNotes (app u') = stepNotes (app u) /\
  timeBank (app u') = timeBank (app u) /\
  activeTimer (app u') = activeTimer (app u) /\
  timerSeconds (app u') = timerSeconds (app u).

(** An item of the primary store that reads as the value [v]. *)
Definition readable (JSON_parse : string -> option Stored)
  (w : Storage.World Stored) (k : string) (v : Stored) : Prop :=
  exists ser,
    item w k = Some ser /\ ser <> ""%string /\ JSON_parse ser = Some v.

(** A serialisation for the values saved from [example_ui], by the kind of
    the value, and the reading of its texts. *)
Definition example_stringify (v : Stored) : option string :=
  Some (match v with
        | SNull => "null"
        | SOutcomes _ => "O"
        | SNotes _ => "N"
        | SNumber _ => "B"
        | STimer _ _ => "T"
        | SString _ => "S"
        end)%string.

Definition example_parse (now : string) (ser : string) : option Stored :=
  if String.eqb ser "O" then Some (SOutcomes (outcomes (app example_ui)))
  else if String.eqb ser "N" then Some (SNotes (stepNotes (app example_ui)))
  else if String.eqb ser "B" then Some (SNumber (timeBank (app example_ui)))
  else if String.eqb ser "T" then
    Some (STimer (activeTimer (app example_ui))
            (timerSeconds (app example_ui)))
  else if String.eqb ser "S" then Some (SString now)
  else None.

(** The numbers from 0 to 59, and the check that they get different
    two-character texts. *)
Definition below_60 : list Z := map Z.of_nat (seq 0 60).

Definition pad2 (n : Z) : string := JsText.padStart 2 "0" (JsText.toString n).

Definition pad2_distinct : bool :=
  forallb (fun x =>
    forallb (fun y => implb (String.eqb (pad2 x) (pad2 y)) (x =? y)) below_60)
    below_60.

(* ===================================================================== *)
(** * JSON text: [JSON.stringify] and [JSON.parse]                       *)
(* ===================================================================== *)

Module Json.

(** A number of the component: an integer, or [NaN]. *)
Inductive Number :=
| NaN
| Int (n : Z).

#[local] Unset Elimination Schemes.
Inductive Value :=
| Null
| Bool (b : bool)
| Num (n : Number)
| Str (s : string)
| Arr (items : list Value)
| Obj (members : list (string * Value)).
#[local] Set Elimination Schemes.

Definition quotation_mark : ascii := "034"%char.
Definition reverse_solidus : ascii := "\"%char.
Definition line_feed : ascii := "010"%char.

(** A hexadecimal digit, in lower case. *)
Definition hex_digit (n : N) : ascii :=
  ascii_of_N (if (n <? 10)%N then 48 + n else 87 + n).

(** What [QuoteJSONString] writes for one code unit. *)
Definition escape (c : ascii) : list ascii :=
  let n := N_of_ascii c in
  if (n =? 8)%N then [reverse_solidus; "b"%char]
  else if (n =? 9)%N then [reverse_solidus; "t"%char]
  else if (n =? 10)%N then [reverse_solidus; "n"%char]
  else if (n =? 12)%N then [reverse_solidus; "f"%char]
  else if (n =? 13)%N then [reverse_solidus; "r"%char]
  else if (n =? 34)%N then [reverse_solidus; quotation_mark]
  else if (n =? 92)%N then [reverse_solidus; reverse_solidus]
  else if (n <? 32)%N then
    [reverse_solidus; "u"%char; "0"%char; "0"%char;
     hex_digit (n / 16); hex_digit (n mod 16)]
  else [c].

Definition quote (s : string) : list ascii :=
  quotation_mark :: flat_map escape (list_ascii_of_string s)
    ++ [quotation_mark].

(** A line break and the indentation of the next line. *)
Definition break (indent : nat) : list ascii :=
  line_feed :: repeat " "%char indent.

Definition number_text (n : Z) : list ascii :=
  list_ascii_of_string (JsText.toString n).

(** [JSON.stringify(value, null, 2)], for a value at the given
    indentation: [NaN] is written as [null]; an array or object that is not
    empty has one element or member per line, two spaces deeper. *)
Fixpoint print (indent : nat) (v : Value) : list ascii :=
  match v with
  | Null => list_ascii_of_string "null"
  | Bool true => list_ascii_of_string "true"
  | Bool false => list_ascii_of_string "false"
  | Num NaN => list_ascii_of_string "null"
  | Num (Int n) => number_text n
  | Str s => quote s
  | Arr [] => list_ascii_of_string "[]"
  | Arr (x :: xs) =>
      "["%char :: break (indent + 2) ++ print (indent + 2) x
        ++ flat_map (fun y =>
                       ","%char :: break (indent + 2) ++ print (indent + 2) y)
             xs
        ++ break indent ++ ["]"%char]
  | Obj [] => list_ascii_of_string "{}"
  | Obj (m :: ms) =>
      "{"%char :: break (indent + 2) ++ quote (fst m)
        ++ ":"%char :: " "%char :: print (indent + 2) (snd m)
        ++ flat_map (fun m' =>
                       ","%char :: break (indent + 2) ++ quote (fst m')
                         ++ ":"%char :: " "%char
                         :: print (indent + 2) (snd m'))
             ms
        ++ break indent ++ ["}"%char]
  end.

Definition stringify (v : Value) : string :=
  string_of_list_ascii (print 0 v).


(** White space of the JSON grammar: space, tab, line feed, carriage
    return. *)
Definition is_ws (c : ascii) : bool :=
  let n := N_of_ascii c in
  ((n =? 32) || (n =? 9) || (n =? 10) || (n =? 13))%N.

Fixpoint skip_ws (s : list ascii) : list ascii :=
  match s with
  | c :: r => if is_ws c then skip_ws r else s
  | [] => []
  end.

(** The rest of [s] after the prefix [p], when [s] starts with it. *)
Fixpoint strip (p s : list ascii) : option (list ascii) :=
  match p, s with
  | [], _ => Some s
  | a :: p', c :: s' => if Ascii.eqb a c then strip p' s' else None
  | _ :: _, [] => None
  end.

(** The value of a hexadecimal digit. *)
Definition hex_value (c : ascii) : option N :=
  let n := N_of_ascii c in
  if ((48 <=? n) && (n <=? 57))%N then Some (n - 48)%N
  else if ((97 <=? n) && (n <=? 102))%N then Some (n - 87)%N
  else if ((65 <=? n) && (n <=? 70))%N then Some (n - 55)%N
  else None.

(** The code unit written by the four digits of a [\u] escape, when it is
    below 256. *)
Definition hex4 (a b c d : ascii) : option ascii :=
  match hex_value a, hex_value b, hex_value c, hex_value d with
  | Some x, Some y, Some z, Some t =>
      if ((x =? 0) && (y =? 0))%N then Some (ascii_of_N (16 * z + t))
      else None
  | _, _, _, _ => None
  end.

(** The character a one-letter escape stands for. *)
Definition unescape (e : ascii) : option ascii :=
  let n := N_of_ascii e in
  if (n =? 34)%N then Some quotation_mark
  else if (n =? 92)%N then Some reverse_solidus
  else if (n =? 47)%N then Some "/"%char
  else if (n =? 98)%N then Some "008"%char
  else if (n =? 102)%N then Some "012"%char
  else if (n =? 110)%N then Some "010"%char
  else if (n =? 114)%N then Some "013"%char
  else if (n =? 116)%N then Some "009"%char
  else None.

(** The characters of a string literal after its opening quotation mark,
    and the text after the closing one. *)
Fixpoint parse_chars (s : list ascii) : option (list ascii * list ascii) :=
  match s with
  | [] => None
  | c :: r =>
      if Ascii.eqb c quotation_mark then Some ([], r)
      else if Ascii.eqb c reverse_solidus then
        match r with
        | [] => None
        | e :: r1 =>
            if Ascii.eqb e "u"%char then
              match r1 with
              | h1 :: h2 :: h3 :: h4 :: r2 =>
                  match hex4 h1 h2 h3 h4, parse_chars r2 with
                  | Some d, Some (l, rest) => Some (d :: l, rest)
                  | _, _ => None
                  end
              | _ => None
              end
            else
              match unescape e, parse_chars r1 with
              | Some d, Some (l, rest) => Some (d :: l, rest)
              | _, _ => None
              end
        end
      else if (N_of_ascii c <? 32)%N then None
      else
        match parse_chars r with
        | Some (l, rest) => Some (c :: l, rest)
        | None => None
        end
  end.

Definition parse_string (s : list ascii) : option (string * list ascii) :=
  match parse_chars s with
  | Some (l, rest) => Some (string_of_list_ascii l, rest)
  | None => None
  end.

(** The longest prefix of digits, and the rest. *)
Fixpoint digits (s : list ascii) : list ascii * list ascii :=
  match s with
  | c :: r =>
      if JsText.is_digit c then
        let '(ds, rest) := digits r in (c :: ds, rest)
      else ([], s)
  | [] => ([], [])
  end.

(** Whether a number can end before the text [s]: a fraction or an exponent
    would go on with ['.'], ['e'] or ['E']. *)
Definition number_ends (s : list ascii) : bool :=
  match s with
  | c :: _ =>
      negb (Ascii.eqb c "."%char || Ascii.eqb c "e"%char
            || Ascii.eqb c "E"%char)
  | [] => true
  end.

(** The integer written by the digits [ds] after the sign [sign], and
    followed by [rest], by the JSON grammar: the digits are [0] alone or do
    not start with [0].  [None] for another text, and for a number that
    goes on with a fraction or an exponent. *)
Definition integer_of (sign : string) (ds rest : list ascii)
  : option (Z * list ascii) :=
  match ds with
  | [] => None
  | c :: more =>
      let leading_zero :=
        Ascii.eqb c "0"%char && negb (Nat.eqb (length more) 0) in
      if leading_zero || negb (number_ends rest) then None
      else
        match NilZero.int_of_string (sign ++ string_of_list_ascii ds) with
        | Some d => Some (Z.of_int d, rest)
        | None => None
        end
  end.

(** A number at the start of the text: an optional minus sign, then
    digits. *)
Definition parse_number (s : list ascii) : option (Z * list ascii) :=
  match s with
  | c :: r =>
      if Ascii.eqb c "-"%char then
        let '(ds, rest) := digits r in integer_of "-" ds rest
      else
        let '(ds, rest) := digits s in integer_of "" ds rest
  | [] => None
  end.

(** [object[key] = value] on the list of the properties of an object: a
    property that is there keeps its place. *)
Fixpoint assign (k : string) (v : Value) (l : list (string * Value))
  : list (string * Value) :=
  match l with
  | [] => [(k, v)]
  | (k', v') :: l' =>
      if String.eqb k' k then (k', v) :: l' else (k', v') :: assign k v l'
  end.

(** The object made of the members of an object literal, in their order;
    of two members with one key the later one counts. *)
Definition object_of (members : list (string * Value)) : Value :=
  Obj (fold_left (fun o m => assign (fst m) (snd m) o) members []).

(** A value of the JSON grammar at the start of the text, after white
    space, and the text after it.  [fuel] bounds the nesting and the number
    of elements. *)
Fixpoint parse_value (fuel : nat) (s : list ascii)
  : option (Value * list ascii) :=
  match fuel with
  | O => None
  | S fuel' =>
      match skip_ws s with
      | [] => None
      | c :: r =>
          if Ascii.eqb c quotation_mark then
            match parse_string r with
            | Some (str, rest) => Some (Str str, rest)
            | None => None
            end
          else if Ascii.eqb c "["%char then
            match skip_ws r with
            | [] => None
            | c' :: r' =>
                if Ascii.eqb c' "]"%char then Some (Arr [], r')
                else
                  match parse_elements fuel' r with
                  | Some (l, rest) => Some (Arr l, rest)
                  | None => None
                  end
            end
          else if Ascii.eqb c "{"%char then
            match skip_ws r with
            | [] => None
            | c' :: r' =>
                if Ascii.eqb c' "}"%char then Some (Obj [], r')
                else
                  match parse_members fuel' r with
                  | Some (l, rest) => Some (object_of l, rest)
                  | None => None
                  end
            end
          else
            match strip (list_ascii_of_string "null") (c :: r) with
            | Some rest => Some (Null, rest)
            | None =>
            match strip (list_ascii_of_string "true") (c :: r) with
            | Some rest => Some (Bool true, rest)
            | None =>
            match strip (list_ascii_of_string "false") (c :: r) with
            | Some rest => Some (Bool false, rest)
            | None =>
            match parse_number (c :: r) with
            | Some (n, rest) => Some (Num (Int n), rest)
            | None => None
            end end end end
      end
  end
with parse_elements (fuel : nat) (s : list ascii)
  : option (list Value * list ascii) :=
  match fuel with
  | O => None
  | S fuel' =>
      match parse_value fuel' s with
      | Some (v, r) =>
          match skip_ws r with
          | [] => None
          | c :: r' =>
              if Ascii.eqb c ","%char then
                match parse_elements fuel' r' with
                | Some (l, rest) => Some (v :: l, rest)
                | None => None
                end
              else if Ascii.eqb c "]"%char then Some ([v], r')
              else None
          end
      | None => None
      end
  end
with parse_members (fuel : nat) (s : list ascii)
  : option (list (string * Value) * list ascii) :=
  match fuel with
  | O => None
  | S fuel' =>
      match skip_ws s with
      | [] => None
      | q :: r =>
          if Ascii.eqb q quotation_mark then
            match parse_string r with
            | Some (k, r1) =>
                match skip_ws r1 with
                | [] => None
                | c1 :: r2 =>
                    if Ascii.eqb c1 ":"%char then
                      match parse_value fuel' r2 with
                      | Some (v, r3) =>
                          match skip_ws r3 with
                          | [] => None
                          | c :: r4 =>
                              if Ascii.eqb c ","%char then
                                match parse_members fuel' r4 with
                                | Some (l, rest) => Some ((k, v) :: l, rest)
                                | None => None
                                end
                              else if Ascii.eqb c "}"%char then
                                Some ([(k, v)], r4)
                              else None
                          end
                      | None => None
                      end
                    else None
                end
            | None => None
            end
          else None
      end
  end.

(** [JSON.parse(text)]; [None] where it throws a [SyntaxError], and for a
    text with a number that is no integer or a [\u] escape above 255. *)
Definition parse (text : string) : option Value :=
  let s := list_ascii_of_string text in
  match parse_value (length s) s with
  | Some (v, rest) =>
      match skip_ws rest with
      | [] => Some v
      | _ :: _ => None
      end
  | None => None
  end.

(** What [JSON.parse] reads back from the text of a value: [null] for
    [NaN]. *)
Fixpoint norm (v : Value) : Value :=
  match v with
  | Num NaN => Null
  | Arr l => Arr (map norm l)
  | Obj ms => Obj (map (fun m => (fst m, norm (snd m))) ms)
  | _ => v
  end.

(** No number of the value is [NaN]. *)
Fixpoint finite (v : Value) : bool :=
  match v with
  | Num NaN => false
  | Arr l => forallb finite l
  | Obj ms => forallb (fun m => finite (snd m)) ms
  | _ => true
  end.

(** The keys of every object of the value are pairwise distinct, as those
    of an object are. *)
Fixpoint unique_keys (v : Value) : bool :=
  match v with
  | Arr l => forallb unique_keys l
  | Obj ms =>
      bool_decide (NoDup (map fst ms))
      && forallb (fun m => unique_keys (snd m)) ms
  | _ => true
  end.

(** A bound on the fuel [parse_value] needs for the text of a value. *)
Fixpoint size (v : Value) : nat :=
  match v with
  | Arr l => S (list_sum (map (fun x => S (size x)) l))
  | Obj ms => S (list_sum (map (fun m => S (size (snd m))) ms))
  | _ => 1
  end.

(** Induction on values, with the hypothesis for every element of an array
    and every member of an object. *)
Fixpoint Value_ind' (P : Value -> Prop)
  (HNull : P Null) (HBool : forall b, P (Bool b))
  (HNum : forall n, P (Num n)) (HStr : forall s, P (Str s))
  (HArr : forall l, Forall P l -> P (Arr l))
  (HObj : forall ms, Forall (fun m => P (snd m)) ms -> P (Obj ms))
  (v : Value) : P v :=
  match v with
  | Null => HNull
  | Bool b => HBool b
  | Num n => HNum n
  | Str s => HStr s
  | Arr l =>
      HArr l
        ((fix go (l : list Value) : Forall P l :=
            match l with
            | [] => List.Forall_nil P
            | x :: l' =>
                List.Forall_cons P x l'
                  (Value_ind' P HNull HBool HNum HStr HArr HObj x) (go l')
            end) l)
  | Obj ms =>
      HObj ms
        ((fix go (l : list (string * Value))
            : Forall (fun m => P (snd m)) l :=
            match l with
            | [] => List.Forall_nil _
            | m :: l' =>
                List.Forall_cons (fun m => P (snd m)) m l'
                  (Value_ind' P HNull HBool HNum HStr HArr HObj (snd m))
                  (go l')
            end) ms)
  end.

(** What ends a number in a text that [print] writes: the end of the text,
    or a character that is neither a digit nor the start of a fraction or an
    exponent. *)
Definition closes_number (rest : list ascii) : bool :=
  match rest with
  | c :: _ => negb (JsText.is_digit c) && number_ends rest
  | [] => true
  end.

(** The first character of the text of a value: no white space and no
    closing bracket. *)
Definition opens_value (c : ascii) : Prop :=
  is_ws c = false /\ Ascii.eqb c "]" = false /\ Ascii.eqb c "}" = false.

(** What the round trip of one value says: the text of the value, followed
    by a text that closes a number, is read back as the value, [NaN] having
    become [null]. *)
Definition reads_back (v : Value) : Prop :=
  forall n fuel rest,
    unique_keys v = true -> (size v <= fuel)%nat ->
    closes_number rest = true ->
    parse_value fuel (print n v ++ rest) = Some (norm v, rest).

Definition sizes (l : list Value) : nat :=
  list_sum (map (fun x => S (size x)) l).

Definition member_sizes (l : list (string * Value)) : nat :=
  list_sum (map (fun m => S (size (snd m))) l).

End Json.

(* ===================================================================== *)
(** * The exported document as a value                                   *)
(* ===================================================================== *)

(** A property of an object literal. *)
Definition member (key : string) (v : Json.Value) : string * Json.Value :=
  (key, v).

(** A cell that holds a number or [null]. *)
Definition number_or_null (x : option Z) : Json.Value :=
  match x with
  | Some n => Json.Num (Json.Int n)
  | None => Json.Null
  end.

(** What [parseInt] returns, [NaN] included. *)
Definition number_or_NaN (x : option Z) : Json.Value :=
  match x with
  | Some n => Json.Num (Json.Int n)
  | None => Json.Num Json.NaN
  end.

(** A step object.  Its properties are in the order in which
    [DEFAULT_OUTCOMES] and [addStep] write them; the spreads of
    [pauseTimer], [markStepDone] and [saveStepEdit] keep that order. *)
Definition step_value (step : Step) : Json.Value :=
  Json.Obj
    [member "id" (Json.Num (Json.Int (step_id step)));
     member "title" (Json.Str (step_title step));
     member "estimatedMin" (Json.Num (Json.Int (estimatedMin step)));
     member "actualMin" (number_or_null (actualMin step));
     member "completed" (Json.Bool (completed step));
     member "timeSpent" (Json.Num (Json.Int (timeSpent step)))].

(** An outcome object: [{ id, title, steps }]. *)
Definition outcome_value (outcome : Outcome) : Json.Value :=
  Json.Obj
    [member "id" (Json.Num (Json.Int (outcome_id outcome)));
     member "title" (Json.Str (outcome_title outcome));
     member "steps" (Json.Arr (map step_value (steps outcome)))].

Definition outcomes_value (os : list Outcome) : Json.Value :=
  Json.Arr (map outcome_value os).

(** The notes object, from its properties in their order. *)
Definition notes_value (notes : list (string * string)) : Json.Value :=
  Json.Obj (map (fun note => member (fst note) (Json.Str (snd note))) notes).

(** The properties of the notes object, in some order: the map of the
    state does not keep the order in which the notes were written. *)
Definition notes_in_order (notes : list (string * string))
  (stepNotes : gmap string string) : Prop :=
  NoDup (map fst notes) /\ list_to_map notes = stepNotes.

(** The object literal of [exportData()], from the values of the three
    cells. *)
Definition export_object (outcomes stepNotes timeBank : Json.Value)
  (exportDate version : string) : Json.Value :=
  Json.Obj
    [member "outcomes" outcomes;
     member "stepNotes" stepNotes;
     member "timeBank" timeBank;
     member "exportDate" (Json.Str exportDate);
     member "version" (Json.Str version)].

(** The exported object as a value. *)
Definition export_value (x : ExportData) (notes : list (string * string))
  : Json.Value :=
  export_object (outcomes_value (x_outcomes x)) (notes_value notes)
    (Json.Num (Json.Int (x_timeBank x))) (x_exportDate x) (x_version x).

(** The text [exportData()] puts into the downloaded file:
    [JSON.stringify(exportData, null, 2)]. *)
Definition export_text (x : ExportData) (notes : list (string * string))
  : string :=
  Json.stringify (export_value x notes).

(** [value[key]]; [None] is [undefined].  None of the keys read here is a
    property of an array or of a primitive value. *)
Definition property (key : string) (v : Json.Value) : option Json.Value :=
  match v with
  | Json.Obj ms =>
      match List.find (fun m => String.eqb (fst m) key) ms with
      | Some m => Some (snd m)
      | None => None
      end
  | _ => None
  end.

(** Truthiness of a value that may be [undefined]. *)
Definition truthy_value (v : option Json.Value) : bool :=
  match v with
  | None => false
  | Some Json.Null => false
  | Some (Json.Bool b) => b
  | Some (Json.Num Json.NaN) => false
  | Some (Json.Num (Json.Int n)) => Js.truthy_number n
  | Some (Json.Str str) => Js.truthy_string str
  | Some (Json.Arr _) => true
  | Some (Json.Obj _) => true
  end.

(** [Array.isArray] *)
Definition is_array_value (v : option Json.Value) : bool :=
  match v with
  | Some (Json.Arr _) => true
  | _ => false
  end.

(** [x || d] *)
Definition or_value (x : option Json.Value) (d : Json.Value) : Json.Value :=
  match x with
  | Some v => if truthy_value x then v else d
  | None => d
  end.

(** The [try] block of [reader.onload] on the parsed value: the values the
    three setters receive, [None] when the block throws.  Reading a
    property of [null] throws a [TypeError]. *)
Definition import_values (data : Json.Value)
  : option (Json.Value * Json.Value * Json.Value) :=
  match data with
  | Json.Null => None
  | _ =>
      let outcomes := property "outcomes" data in
      if negb (truthy_value outcomes) || negb (is_array_value outcomes)
      then None
      else
        match outcomes with
        | Some items =>
            Some (items,
                  or_value (property "stepNotes" data) (Json.Obj []),
                  or_value (property "timeBank" data)
                    (Json.Num (Json.Int 0)))
        | None => None
        end
  end.

(** [importData] from the text of the file, on values. *)
Definition import_text (text : string)
  : option (Json.Value * Json.Value * Json.Value) :=
  match Json.parse text with
  | Some data => import_values data
  | None => None
  end.

(** The step object [addStep] appends; its estimate is what [parseInt]
    returns. *)
Definition new_step_value (newStepId : Z) (form : NewStep) : Json.Value :=
  Json.Obj
    [member "id" (Json.Num (Json.Int newStepId));
     member "title" (Json.Str (Js.trim (ns_title form)));
     member "estimatedMin"
       (number_or_NaN (Js.parseInt (ns_estimatedMin form)));
     member "actualMin" Json.Null;
     member "completed" (Json.Bool false);
     member "timeSpent" (Json.Num (Json.Int 0))].

(** The outcomes after [addStep(outcomeId)], as a value: the case in which
    [parseInt] yields [NaN], where [addStep] above has no result, is
    included. *)
Definition addStep_value (outcomeId : Z) (s : AppState) : Json.Value :=
  if negb (Js.truthy_string (Js.trim (ns_title (newStep s))))
     || negb (Js.truthy_string (ns_estimatedMin (newStep s)))
  then outcomes_value (outcomes s)
  else
    Json.Arr (map (fun outcome =>
      if outcome_id outcome =? outcomeId then
        let newStepId := Js.max_with_0 (map step_id (steps outcome)) + 1 in
        Json.Obj
          [member "id" (Json.Num (Json.Int (outcome_id outcome)));
           member "title" (Json.Str (outcome_title outcome));
           member "steps"
             (Json.Arr (map step_value (steps outcome)
                        ++ [new_step_value newStepId (newStep s)]))]
      else outcome_value outcome) (outcomes s)).

(** ** The typed reading of a parsed value *)

Definition as_integer (v : option Json.Value) : option Z :=
  match v with
  | Some (Json.Num (Json.Int n)) => Some n
  | _ => None
  end.

Definition as_text (v : option Json.Value) : option string :=
  match v with
  | Some (Json.Str str) => Some str
  | _ => None
  end.

Definition as_flag (v : option Json.Value) : option bool :=
  match v with
  | Some (Json.Bool b) => Some b
  | _ => None
  end.

(** A cell that holds an integer or [null]. *)
Definition as_nullable_integer (v : option Json.Value) : option (option Z) :=
  match v with
  | Some Json.Null => Some None
  | Some (Json.Num (Json.Int n)) => Some (Some n)
  | _ => None
  end.

(** A property that is absent, [null] or a string. *)
Definition as_optional_text (v : option Json.Value)
  : option (option string) :=
  match v with
  | None => Some None
  | Some Json.Null => Some None
  | Some (Json.Str str) => Some (Some str)
  | _ => None
  end.

(** A property that is absent, [null] or an integer. *)
Definition as_optional_integer (v : option Json.Value)
  : option (option Z) :=
  match v with
  | None => Some None
  | Some Json.Null => Some None
  | Some (Json.Num (Json.Int n)) => Some (Some n)
  | _ => None
  end.

(** The step a value stands for, if it is a step object of the data
    model. *)
Definition step_of_value (v : Json.Value) : option Step :=
  match as_integer (property "id" v), as_text (property "title" v),
        as_integer (property "estimatedMin" v),
        as_nullable_integer (property "actualMin" v),
        as_flag (property "completed" v),
        as_integer (property "timeSpent" v) with
  | Some id, Some title, Some est, Some actual, Some completed, Some spent =>
      Some (mkStep id title est actual completed spent)
  | _, _, _, _, _, _ => None
  end.

Definition outcome_of_value (v : Json.Value) : option Outcome :=
  match as_integer (property "id" v), as_text (property "title" v),
        property "steps" v with
  | Some id, Some title, Some (Json.Arr items) =>
      match mapM step_of_value items with
      | Some steps => Some (mkOutcome id title steps)
      | None => None
      end
  | _, _, _ => None
  end.

(** The notes a value stands for, if it is an object of strings. *)
Definition notes_of_value (v : Json.Value) : option (gmap string string) :=
  match v with
  | Json.Obj ms =>
      match mapM (fun m => match snd m with
                           | Json.Str str => Some (fst m, str)
                           | _ => None
                           end) ms with
      | Some notes => Some (list_to_map notes)
      | None => None
      end
  | _ => None
  end.

(** A property that is absent, [null] or a notes object. *)
Definition as_optional_notes (v : option Json.Value)
  : option (option (gmap string string)) :=
  match v with
  | None => Some None
  | Some Json.Null => Some None
  | Some n =>
      match notes_of_value n with
      | Some notes => Some (Some notes)
      | None => None
      end
  end.

(** The [outcomes] property as the import sees it; an array is read as a
    list of outcomes of the data model. *)
Definition dyn_of_value (v : option Json.Value) : option Dyn :=
  match v with
  | None => Some DUndefined
  | Some Json.Null => Some DNull
  | Some (Json.Bool b) => Some (DBool b)
  | Some (Json.Num (Json.Int n)) => Some (DNum n)
  | Some (Json.Num Json.NaN) => None
  | Some (Json.Str str) => Some (DStr str)
  | Some (Json.Obj _) => Some DObj
  | Some (Json.Arr items) =>
      match mapM outcome_of_value items with
      | Some os => Some (DArr os)
      | None => None
      end
  end.

(** The document a parsed value stands for, when its properties are of the
    kinds a document has. *)
Definition parsed_of_value (v : Json.Value) : option Parsed :=
  match v with
  | Json.Null => Some ParsedNull
  | Json.Obj _ =>
      match dyn_of_value (property "outcomes" v),
            as_optional_notes (property "stepNotes" v),
            as_optional_integer (property "timeBank" v),
            as_optional_text (property "exportDate" v),
            as_optional_text (property "version" v) with
      | Some os, Some notes, Some bank, Some date, Some version =>
          Some (ParsedDoc (mkDoc os notes bank date version))
      | _, _, _, _, _ => None
      end
  | _ => None
  end.

(** What [reader.onload] gets for the text of a file, when the text is
    JSON of the kinds above. *)
Definition parsed_of_text (text : string) : option Parsed :=
  match Json.parse text with
  | Some v => parsed_of_value v
  | None => None
  end.

(* ===================================================================== *)
(** * Examples                                                           *)
(* ===================================================================== *)

Example trim_example : Js.trim "  write draft  " = "write draft"%string.
Proof. reflexivity. Qed.

Example parseInt_examples :
  Js.parseInt "45" = Some 45 /\ Js.parseInt "0" = Some 0 /\
  Js.parseInt "-5" = Some (-5) /\ Js.parseInt "1.5" = Some 1 /\
  Js.parseInt " 12px" = Some 12 /\ Js.parseInt "0x1f" = Some 31 /\
  Js.parseInt ".5" = None /\ Js.parseInt "" = None.
Proof. repeat split; reflexivity. Qed.

Example ceil_div_examples :
  Js.ceil_div 125 60 = 3 /\ Js.ceil_div 120 60 = 2 /\
  Js.ceil_div 0 60 = 0 /\ Js.ceil_div 1 60 = 1.
Proof. repeat split; reflexivity. Qed.

(* ===================================================================== *)
(** * Balance accounting: proofs                                         *)
(* ===================================================================== *)

Section Sums.

Context {A : Type}.
Implicit Types (f g : A -> Z) (l : list A).

Lemma fold_left_add_acc f l (a : Z) :
  fold_left (fun sum x => sum + f x) l a = a + Zsum (map f l).
Proof.
  revert a. induction l as [|x l IH]; intros a; simpl.
  - lia.
  - rewrite IH. lia.
Qed.

Lemma sum_by_Zsum f l : sum_by f l = Zsum (map f l).
Proof. unfold sum_by. rewrite fold_left_add_acc. lia. Qed.

Lemma Zsum_filter f (p : A -> bool) l :
  Zsum (map f (List.filter p l)) =
  Zsum (map (fun x => if p x then f x else 0) l).
Proof.
  induction l as [|x l IH]; simpl; [reflexivity|].
  destruct (p x); simpl; rewrite IH; reflexivity.
Qed.

Lemma Zsum_sub f g l :
  Zsum (map f l) - Zsum (map g l) = Zsum (map (fun x => f x - g x) l).
Proof. induction l as [|x l IH]; simpl; lia. Qed.

Lemma Zsum_ext f g l :
  (forall x, f x = g x) -> Zsum (map f l) = Zsum (map g l).
Proof. intros E. induction l as [|x l IH]; simpl; congruence. Qed.

Lemma Zsum_zero f l :
  (forall x, In x l -> f x = 0) -> Zsum (map f l) = 0.
Proof.
  induction l as [|x l IH]; simpl; intros E; [reflexivity|].
  rewrite (E x) by auto. rewrite IH by auto. reflexivity.
Qed.

End Sums.

Lemma or_number_0 (x : option Z) : Js.or_number x 0 = Js.to_number x.
Proof.
  destruct x as [n|]; simpl; [|reflexivity].
  unfold Js.truthy_number. destruct (Z.eqb_spec n 0); simpl; lia.
Qed.

Lemma balance_spec (outcome : Outcome) :
  balance outcome = spec_outcome_balance outcome.
Proof.
  unfold balance, spec_outcome_balance, spec_step_balance.
  rewrite !sum_by_Zsum, Zsum_sub, Zsum_filter.
  destruct (List.filter (fun step => completed step) (steps outcome))
    as [|st rest] eqn:E.
  - simpl. symmetry. apply Zsum_zero. intros x Hx.
    destruct (completed x) eqn:C; [|reflexivity].
    assert (In x (List.filter (fun step => completed step) (steps outcome)))
      as Hin by (apply filter_In; auto).
    rewrite E in Hin. destruct Hin.
  - replace (Z.of_nat (length (st :: rest)) =? 0) with false
      by (symmetry; apply Z.eqb_neq; simpl; lia).
    apply Zsum_ext. intros x. rewrite or_number_0. reflexivity.
Qed.

Lemma globalBalance_fold (os : list Outcome) (acc : Z) :
  fold_left (fun total outcome =>
      let completedSteps :=
        List.filter (fun step => completed step) (steps outcome) in
      if (Z.of_nat (length completedSteps) =? 0) then total
      else
        let estimatedForCompleted := sum_by estimatedMin completedSteps in
        let actualForCompleted :=
          sum_by (fun step => Js.or_number (actualMin step) 0) completedSteps in
        total + (estimatedForCompleted - actualForCompleted)) os acc
  = acc + Zsum (map balance os).
Proof.
  revert acc. induction os as [|o os IH]; intros acc; simpl.
  - lia.
  - rewrite IH. unfold balance. simpl.
    destruct (Z.of_nat _ =? 0); lia.
Qed.

(** C1.  The global balance is the sum of the per-outcome balances plus the
    time bank; the balance of an outcome is the sum over its completed steps
    of estimated minus actual minutes, a step that is not completed
    contributing 0; an outcome without a completed step has balance 0.  The
    balance is a function of the outcome list and the bank of the current
    state, so the same equation holds in the state after any event. *)
Theorem globalBalance_sum_of_balances (s : AppState) :
  globalBalance s = Zsum (map balance (outcomes s)) + timeBank s /\
  globalBalance s = spec_global_balance (outcomes s) (timeBank s) /\
  (forall outcome, balance outcome = spec_outcome_balance outcome) /\
  (forall outcome,
      Forall (fun step => completed step = false) (steps outcome) ->
      balance outcome = 0) /\
  (forall e s', handle e s = Some s' ->
      globalBalance s' = spec_global_balance (outcomes s') (timeBank s')).
Proof.
  assert (G : forall t, globalBalance t = Zsum (map balance (outcomes t)) + timeBank t).
  { intros t. unfold globalBalance. rewrite globalBalance_fold. lia. }
  assert (G' : forall t,
             globalBalance t = spec_global_balance (outcomes t) (timeBank t)).
  { intros t. rewrite G. unfold spec_global_balance. f_equal.
    apply Zsum_ext, balance_spec. }
  repeat split; auto using balance_spec.
  intros outcome Hnone. rewrite balance_spec.
  unfold spec_outcome_balance. apply Zsum_zero. intros x Hx.
  unfold spec_step_balance.
  rewrite Forall_forall in Hnone.
  rewrite (Hnone x); [reflexivity|]. apply list_elem_of_In. exact Hx.
Qed.

Lemma globalBalance_sum_of_balances_witness :
  Forall (fun step => completed step = false)
    (steps (mkOutcome 1 "Write" [mkStep 1 "Research" 60 None false 0])) /\
  balance (mkOutcome 1 "Write" [mkStep 1 "Research" 60 None false 0]) = 0.
Proof.
  split.
  - repeat constructor.
  - apply (globalBalance_sum_of_balances initialState).
    repeat constructor.
Defined.

(* ===================================================================== *)
(** * Timer functions: proofs                                            *)
(* ===================================================================== *)

Lemma lookup_map {A B : Type} (f : A -> B) (l : list A) (i : nat) :
  map f l !! i = option_map f (l !! i).
Proof.
  revert i. induction l as [|x l IH]; intros [|i]; simpl; auto.
Qed.

Lemma ceil_div_60_bounds (sec : Z) :
  60 * (Js.ceil_div sec 60 - 1) < sec <= 60 * Js.ceil_div sec 60.
Proof.
  unfold Js.ceil_div.
  pose proof (Z.div_mod (- sec) 60 ltac:(lia)).
  pose proof (Z.mod_pos_bound (- sec) 60 ltac:(lia)).
  lia.
Qed.

Lemma or_number_Some_0 (n : Z) : Js.or_number (Some n) 0 = n.
Proof. rewrite or_number_0. reflexivity. Qed.

Lemma step_at_map_map (f : Outcome -> bool) (g : Step -> Step)
  (os : list Outcome) (i j : nat) (o : Outcome) (st : Step) :
  os !! i = Some o -> steps o !! j = Some st ->
  step_at (map (fun outcome =>
             if f outcome then
               mkOutcome (outcome_id outcome) (outcome_title outcome)
                 (map g (steps outcome))
             else outcome) os) i j
  = Some (if f o then g st else st).
Proof.
  intros Ho Hst. unfold step_at. rewrite lookup_map, Ho. simpl.
  destruct (f o); simpl; [|exact Hst].
  rewrite lookup_map, Hst. reflexivity.
Qed.

Lemma pauseTimer_step_at (s : AppState) (a : Timer) (i j : nat)
  (o : Outcome) (st : Step) :
  activeTimer s = Some a ->
  outcomes s !! i = Some o -> steps o !! j = Some st ->
  step_at (outcomes (pauseTimer s)) i j =
    Some (if targets a o st then paused (timerSeconds s) st else st).
Proof.
  intros Ha Ho Hst. unfold pauseTimer. rewrite Ha.
  cbn [outcomes setOutcomes setTimerSeconds setActiveTimer].
  rewrite (step_at_map_map _ _ _ _ _ _ _ Ho Hst).
  unfold targets, paused.
  destruct (outcome_id o =? outcomeId a); cbn [andb]; [|reflexivity].
  destruct (step_id st =? stepId a); [|reflexivity].
  rewrite or_number_Some_0. reflexivity.
Qed.

Lemma markStepDone_step_at (s : AppState) (a : Timer) (i j : nat)
  (o : Outcome) (st : Step) :
  activeTimer s = Some a ->
  outcomes s !! i = Some o -> steps o !! j = Some st ->
  step_at (outcomes (markStepDone s)) i j =
    Some (if targets a o st then finished (timerSeconds s) st else st).
Proof.
  intros Ha Ho Hst. unfold markStepDone. rewrite Ha.
  cbn [outcomes setOutcomes setTimerSeconds setActiveTimer showNotification
       setNotification].
  rewrite (step_at_map_map _ _ _ _ _ _ _ Ho Hst).
  unfold targets, finished.
  destruct (outcome_id o =? outcomeId a); cbn [andb]; [|reflexivity].
  destruct (step_id st =? stepId a); [|reflexivity].
  rewrite or_number_Some_0. reflexivity.
Qed.

(** C2.  Seconds are turned into minutes by the ceiling of seconds over 60,
    in both operations that end a timer.  A pause leaves the active step
    with its [timeSpent] increased by that many minutes; a completion leaves
    it with [actualMin] set to [timeSpent] plus that many minutes,
    [completed] set and [timeSpent] reset to 0.  Every other step is
    unchanged, and both operations clear the timer.  With [timeSpent = 5]
    and 125 seconds a completion gives [actualMin = 8], [timeSpent = 0]. *)
Theorem timer_minutes_are_ceiling :
  (forall sec, 60 * (Js.ceil_div sec 60 - 1) < sec <= 60 * Js.ceil_div sec 60) /\
  (forall s a i j o st,
      activeTimer s = Some a ->
      outcomes s !! i = Some o -> steps o !! j = Some st ->
      step_at (outcomes (pauseTimer s)) i j =
        Some (if targets a o st then paused (timerSeconds s) st else st) /\
      step_at (outcomes (markStepDone s)) i j =
        Some (if targets a o st then finished (timerSeconds s) st else st)) /\
  (forall s,
      activeTimer (pauseTimer s) = None /\ timerSeconds (pauseTimer s) = 0 /\
      activeTimer (markStepDone s) = None /\
      timerSeconds (markStepDone s) = 0) /\
  outcomes (markStepDone example_running) =
    [mkOutcome 1 "Write" [mkStep 1 "Draft" 10 (Some 8) true 0;
                          mkStep 2 "Edit" 20 None false 0]].
Proof.
  split; [exact ceil_div_60_bounds|].
  split; [|split].
  - intros s a i j o st Ha Ho Hst. split.
    + apply pauseTimer_step_at; assumption.
    + apply markStepDone_step_at; assumption.
  - intros s. unfold pauseTimer, markStepDone.
    destruct (activeTimer s); simpl; auto.
  - reflexivity.
Qed.

Lemma timer_minutes_are_ceiling_witness :
  step_at (outcomes (pauseTimer example_running)) 0 0 =
    Some (mkStep 1 "Draft" 10 None false 8) /\
  step_at (outcomes (markStepDone example_running)) 0 0 =
    Some (mkStep 1 "Draft" 10 (Some 8) true 0).
Proof.
  exact (proj1 (proj2 timer_minutes_are_ceiling) example_running
           (mkTimer 1 1) 0%nat 0%nat
           (mkOutcome 1 "Write" [mkStep 1 "Draft" 10 None false 5;
                                 mkStep 2 "Edit" 20 None false 0])
           (mkStep 1 "Draft" 10 None false 5)
           eq_refl eq_refl eq_refl).
Defined.

(** C3.  A borrow goes through exactly when a timer is active and the bank
    holds at least 10 minutes: the bank then loses exactly 10 and the elapsed
    seconds gain exactly 600.  Otherwise bank, elapsed seconds and timer are
    as before and a warning is shown.  The outcomes and the timer pointer
    are unchanged either way. *)
Theorem addTime_borrows_ten_minutes (s : AppState) :
  (timeBank (addTime s) = timeBank s - 10 <->
     is_Some (activeTimer s) /\ 10 <= timeBank s) /\
  (is_Some (activeTimer s) /\ 10 <= timeBank s ->
     timeBank (addTime s) = timeBank s - 10 /\
     timerSeconds (addTime s) = timerSeconds s + 600 /\
     notification (addTime s) =
       Some (mkNotification "Added 10 minutes from time bank" NSuccess)) /\
  (~ (is_Some (activeTimer s) /\ 10 <= timeBank s) ->
     timeBank (addTime s) = timeBank s /\
     timerSeconds (addTime s) = timerSeconds s /\
     notification (addTime s) =
       Some (mkNotification "Not enough time in bank" NWarning)) /\
  activeTimer (addTime s) = activeTimer s /\
  outcomes (addTime s) = outcomes s.
Proof.
  unfold addTime.
  destruct (bool_decide (is_Some (activeTimer s))) eqn:Ea;
    [apply bool_decide_eq_true in Ea | apply bool_decide_eq_false in Ea];
    destruct (Z.geb_spec (timeBank s) 10) as [Hb|Hb]; simpl;
    repeat split; auto; try lia; try tauto; intros; try lia; tauto.
Qed.

Lemma addTime_borrows_ten_minutes_witness :
  timeBank (addTime (setTimeBank (fun _ => 15) example_running)) = 5 /\
  timerSeconds (addTime (setTimeBank (fun _ => 15) example_running)) = 725 /\
  timeBank (addTime (setTimeBank (fun _ => 5) example_running)) = 5 /\
  timerSeconds (addTime (setTimeBank (fun _ => 5) example_running)) = 125.
Proof.
  pose proof (proj1 (proj2 (addTime_borrows_ten_minutes
                (setTimeBank (fun _ => 15) example_running)))) as Hyes.
  pose proof (proj1 (proj2 (proj2 (addTime_borrows_ten_minutes
                (setTimeBank (fun _ => 5) example_running))))) as Hno.
  destruct Hyes as (B1 & T1 & _).
  { split; [eexists; reflexivity | simpl; lia]. }
  destruct Hno as (B2 & T2 & _).
  { simpl. lia. }
  exact (conj B1 (conj T1 (conj B2 T2))).
Defined.

(* ===================================================================== *)
(** * Import and export: proofs                                          *)
(* ===================================================================== *)

Lemma import_try_Some (text : Parsed) (s s' : AppState) :
  import_try text s = Some s' ->
  exists data a, text = ParsedDoc data /\ d_outcomes data = DArr a /\
    s' = showNotification "Data imported successfully" NSuccess
           (setTimeBank (fun _ => Js.or_number (d_timeBank data) 0)
              (setStepNotes (default ∅ (d_stepNotes data))
                 (setOutcomes (fun _ => a) s))).
Proof.
  destruct text as [| |data]; simpl; try discriminate.
  destruct (d_outcomes data) as [| | | | | |a] eqn:E; simpl;
    try discriminate;
    try (destruct (negb _ || _); discriminate).
  intros [= <-]. exists data, a. auto.
Qed.

Lemma import_try_array (data : Doc) (a : list Outcome) (s : AppState) :
  d_outcomes data = DArr a ->
  import_try (ParsedDoc data) s =
    Some (showNotification "Data imported successfully" NSuccess
            (setTimeBank (fun _ => Js.or_number (d_timeBank data) 0)
               (setStepNotes (default ∅ (d_stepNotes data))
                  (setOutcomes (fun _ => a) s)))).
Proof. intros E. simpl. rewrite E. reflexivity. Qed.

(** C4.  The import goes through only for a document whose [outcomes] is
    present and is an array.  In every other case of a loaded file (text that
    is no JSON, [null], [outcomes] missing or no array) the import is
    rejected: the error notice is shown and outcomes, notes and time bank
    are those of before, as is the timer.  The document
    [{ outcomes: "not-an-array" }] is such a case. *)
Theorem importData_rejects_malformed (text : Parsed) (s : AppState) :
  (is_Some (import_try text s) <->
     exists data, text = ParsedDoc data /\ is_sequence (d_outcomes data)) /\
  (~ (exists data, text = ParsedDoc data /\ is_sequence (d_outcomes data)) ->
     importData (Loaded text) s =
       showNotification "Import failed: Invalid file format" NError s /\
     outcomes (importData (Loaded text) s) = outcomes s /\
     stepNotes (importData (Loaded text) s) = stepNotes s /\
     timeBank (importData (Loaded text) s) = timeBank s /\
     activeTimer (importData (Loaded text) s) = activeTimer s /\
     timerSeconds (importData (Loaded text) s) = timerSeconds s) /\
  importData (Loaded (ParsedDoc not_an_array_doc)) s =
    showNotification "Import failed: Invalid file format" NError s.
Proof.
  assert (Hiff : is_Some (import_try text s) <->
     exists data, text = ParsedDoc data /\ is_sequence (d_outcomes data)).
  { split.
    - intros [s' Hs']. apply import_try_Some in Hs' as (data & a & -> & E & _).
      exists data. split; [reflexivity|]. exists a. exact E.
    - intros (data & -> & a & E). rewrite (import_try_array _ _ _ E). eauto. }
  split; [exact Hiff|]. split; [|reflexivity].
  intros Hbad.
  assert (import_try text s = None) as Hnone.
  { destruct (import_try text s) eqn:E; [|reflexivity].
    exfalso. apply Hbad, Hiff. eauto. }
  unfold importData. rewrite Hnone. auto 10.
Qed.

Lemma importData_rejects_malformed_witness :
  outcomes (importData (Loaded (ParsedDoc not_an_array_doc)) example_running)
    = outcomes example_running /\
  timeBank (importData (Loaded SyntaxError) example_running)
    = timeBank example_running.
Proof.
  split.
  - apply (importData_rejects_malformed (ParsedDoc not_an_array_doc)
             example_running).
    intros (data & [= <-] & a & E). discriminate E.
  - apply (importData_rejects_malformed SyntaxError example_running).
    intros (data & E & _). discriminate E.
Defined.

Module JsonFacts.
Import Json.

Lemma skip_ws_break (n : nat) (s : list ascii) :
  skip_ws (break n ++ s) = skip_ws s.
Proof.
  unfold break. cbn [List.app skip_ws]. change (is_ws line_feed) with true.
  cbn iota. induction n as [|n IH]; [reflexivity|exact IH].
Qed.

Lemma skip_ws_id (c : ascii) (s : list ascii) :
  is_ws c = false -> skip_ws (c :: s) = c :: s.
Proof. intros H. cbn [skip_ws]. rewrite H. reflexivity. Qed.

(** ** Strings *)

Lemma parse_chars_escape (c : ascii) (tail : list ascii) :
  parse_chars (escape c ++ tail) =
  match parse_chars tail with
  | Some (l, rest) => Some (c :: l, rest)
  | None => None
  end.
Proof.
  destruct c as [[] [] [] [] [] [] [] []]; reflexivity.
Qed.

Lemma parse_chars_quoted (l rest : list ascii) :
  parse_chars (flat_map escape l ++ quotation_mark :: rest) = Some (l, rest).
Proof.
  induction l as [|c l IH]; [reflexivity|].
  cbn [flat_map]. rewrite <- app_assoc, parse_chars_escape, IH. reflexivity.
Qed.

Lemma parse_string_quote (s : string) (rest : list ascii) :
  exists body,
    quote s ++ rest = quotation_mark :: body /\
    parse_string body = Some (s, rest).
Proof.
  unfold quote. eexists. split.
  - cbn [List.app]. rewrite <- app_assoc. reflexivity.
  - unfold parse_string. cbn [List.app]. rewrite parse_chars_quoted.
    rewrite string_of_list_ascii_of_string. reflexivity.
Qed.

(** ** Numbers *)

Lemma to_uint_no_leading_zero (p : positive) (d : Decimal.uint) :
  Pos.to_uint p <> Decimal.D0 d.
Proof.
  intros E.
  assert (Decimal.unorm (Pos.to_uint p) = Pos.to_uint p) as U.
  { rewrite <- DecimalPos.Unsigned.to_of, DecimalPos.Unsigned.of_to.
    reflexivity. }
  rewrite E in U. rewrite DecimalFacts.unorm_D0 in U.
  destruct (Decimal.uint_eq_dec (Decimal.nzhead d) Decimal.Nil) as [Hn|Hn].
  - unfold Decimal.unorm in U. rewrite Hn in U. injection U as <-.
    exact (DecimalPos.Unsigned.to_uint_nonzero p E).
  - rewrite (DecimalFacts.unorm_nzhead _ Hn) in U.
    exact (DecimalFacts.nzhead_nonzero _ _ U).
Qed.

Lemma digits_of_uint (d : Decimal.uint) (rest : list ascii) :
  match rest with
  | c :: _ => JsText.is_digit c = false
  | [] => True
  end ->
  digits (list_ascii_of_string (NilEmpty.string_of_uint d) ++ rest) =
  (list_ascii_of_string (NilEmpty.string_of_uint d), rest).
Proof.
  intros Hrest.
  induction d; cbn [NilEmpty.string_of_uint list_ascii_of_string List.app digits];
    try (change (JsText.is_digit _) with true; cbn iota; rewrite IHd;
         reflexivity).
  destruct rest as [|c r]; [reflexivity|].
  cbn [digits]. rewrite Hrest. reflexivity.
Qed.

Lemma closes_number_digit (rest : list ascii) :
  closes_number rest = true ->
  match rest with
  | c :: _ => JsText.is_digit c = false
  | [] => True
  end.
Proof.
  destruct rest as [|c r]; [auto|]. cbn [closes_number].
  intros H. apply andb_true_iff in H as [H _].
  apply negb_true_iff in H. exact H.
Qed.

Lemma closes_number_ends (rest : list ascii) :
  closes_number rest = true -> number_ends rest = true.
Proof.
  destruct rest as [|c r]; [auto|]. cbn [closes_number].
  intros H. apply andb_true_iff in H as [_ H]. exact H.
Qed.

(** The digits of a positive number: at least one, the first one not
    [0]. *)
Lemma uint_digits (p : positive) :
  exists c more,
    list_ascii_of_string (NilEmpty.string_of_uint (Pos.to_uint p)) = c :: more
    /\ Ascii.eqb c "0" = false /\ Ascii.eqb c "-" = false
    /\ JsText.is_digit c = true.
Proof.
  pose proof (to_uint_no_leading_zero p) as Hz.
  pose proof (DecimalPos.Unsigned.to_uint_nonnil p) as Hn.
  destruct (Pos.to_uint p) as [|d|d|d|d|d|d|d|d|d|d];
    [destruct (Hn eq_refl)|destruct (Hz d eq_refl)|..];
    cbn [NilEmpty.string_of_uint list_ascii_of_string];
    do 2 eexists; (split; [reflexivity|repeat split]).
Qed.

Lemma integer_of_uint (sign : string) (p : positive) (rest : list ascii)
  (i : Decimal.int) :
  closes_number rest = true ->
  NilZero.int_of_string
    (sign ++ NilEmpty.string_of_uint (Pos.to_uint p)) = Some i ->
  integer_of sign
    (list_ascii_of_string (NilEmpty.string_of_uint (Pos.to_uint p))) rest
  = Some (Z.of_int i, rest).
Proof.
  intros Hrest Hi. unfold integer_of.
  destruct (uint_digits p) as (c & more & E & Hc & _ & _).
  rewrite <- (string_of_list_ascii_of_string
                (NilEmpty.string_of_uint (Pos.to_uint p))) in Hi.
  rewrite E in *. rewrite Hc, (closes_number_ends _ Hrest).
  cbn [andb orb negb]. rewrite Hi. reflexivity.
Qed.

Lemma parse_number_text (n : Z) (rest : list ascii) :
  closes_number rest = true ->
  parse_number (number_text n ++ rest) = Some (n, rest).
Proof.
  intros Hrest.
  assert (NilZero.int_of_string (JsText.toString n) = Some (Z.to_int n)) as Hi.
  { unfold JsText.toString.
    apply NilZero.isi; destruct n as [|p|p]; simpl; try discriminate;
      intros [= H]; exact (DecimalPos.Unsigned.to_uint_nonnil p H). }
  rewrite <- (DecimalZ.of_to n) at 2.
  unfold number_text. unfold JsText.toString in *.
  destruct n as [|p|p]; cbn [Z.to_int NilZero.string_of_int] in *.
  - unfold parse_number.
    cbn [NilZero.string_of_uint list_ascii_of_string List.app].
    change (Ascii.eqb "0" "-") with false. cbn iota.
    change ("0"%char :: rest)
      with (list_ascii_of_string
              (NilEmpty.string_of_uint (Decimal.D0 Decimal.Nil)) ++ rest).
    rewrite (digits_of_uint _ _ (closes_number_digit _ Hrest)).
    unfold integer_of.
    cbn [NilEmpty.string_of_uint list_ascii_of_string length Nat.eqb negb andb orb].
    rewrite andb_false_r, (closes_number_ends _ Hrest). reflexivity.
  - unfold NilZero.string_of_uint in *.
    pose proof (DecimalPos.Unsigned.to_uint_nonnil p) as Hn.
    assert (NilZero.int_of_string
              ("" ++ NilEmpty.string_of_uint (Pos.to_uint p)) =
            Some (Decimal.Pos (Pos.to_uint p))) as Hi'.
    { destruct (Pos.to_uint p); [destruct (Hn eq_refl)|..]; exact Hi. }
    replace (match Pos.to_uint p with
             | Decimal.Nil => "0"%string
             | _ => NilEmpty.string_of_uint (Pos.to_uint p)
             end) with (NilEmpty.string_of_uint (Pos.to_uint p))
      by (destruct (Pos.to_uint p); [destruct (Hn eq_refl)|..]; reflexivity).
    unfold parse_number.
    destruct (uint_digits p) as (c & more & E & _ & Hm & _).
    rewrite E at 1. cbn [List.app]. rewrite Hm.
    rewrite (digits_of_uint _ _ (closes_number_digit _ Hrest)).
    apply integer_of_uint; assumption.
  - unfold NilZero.string_of_uint in *.
    pose proof (DecimalPos.Unsigned.to_uint_nonnil p) as Hn.
    assert (NilZero.int_of_string
              ("-" ++ NilEmpty.string_of_uint (Pos.to_uint p)) =
            Some (Decimal.Neg (Pos.to_uint p))) as Hi'.
    { destruct (Pos.to_uint p); [destruct (Hn eq_refl)|..]; exact Hi. }
    replace (match Pos.to_uint p with
             | Decimal.Nil => "0"%string
             | _ => NilEmpty.string_of_uint (Pos.to_uint p)
             end) with (NilEmpty.string_of_uint (Pos.to_uint p))
      by (destruct (Pos.to_uint p); [destruct (Hn eq_refl)|..]; reflexivity).
    cbn [list_ascii_of_string List.app]. unfold parse_number.
    change (Ascii.eqb "-" "-") with true. cbn iota.
    rewrite (digits_of_uint _ _ (closes_number_digit _ Hrest)).
    apply integer_of_uint; assumption.
Qed.

(** ** Values *)

Lemma parse_value_string (fuel : nat) (body : list ascii) :
  parse_value (S fuel) (quotation_mark :: body) =
  match parse_string body with
  | Some (str, rest) => Some (Str str, rest)
  | None => None
  end.
Proof. reflexivity. Qed.

Lemma parse_value_array (fuel : nat) (r : list ascii) :
  parse_value (S fuel) ("["%char :: r) =
  match skip_ws r with
  | [] => None
  | c' :: r' =>
      if Ascii.eqb c' "]"%char then Some (Arr [], r')
      else
        match parse_elements fuel r with
        | Some (l, rest) => Some (Arr l, rest)
        | None => None
        end
  end.
Proof. reflexivity. Qed.

Lemma parse_value_object (fuel : nat) (r : list ascii) :
  parse_value (S fuel) ("{"%char :: r) =
  match skip_ws r with
  | [] => None
  | c' :: r' =>
      if Ascii.eqb c' "}"%char then Some (Obj [], r')
      else
        match parse_members fuel r with
        | Some (l, rest) => Some (object_of l, rest)
        | None => None
        end
  end.
Proof. reflexivity. Qed.

Lemma parse_elements_eq (fuel : nat) (s : list ascii) :
  parse_elements (S fuel) s =
  match parse_value fuel s with
  | Some (v, r) =>
      match skip_ws r with
      | [] => None
      | c :: r' =>
          if Ascii.eqb c ","%char then
            match parse_elements fuel r' with
            | Some (l, rest) => Some (v :: l, rest)
            | None => None
            end
          else if Ascii.eqb c "]"%char then Some ([v], r')
          else None
      end
  | None => None
  end.
Proof. reflexivity. Qed.

Lemma parse_members_eq (fuel : nat) (body : list ascii) :
  parse_members (S fuel) (quotation_mark :: body) =
  match parse_string body with
  | Some (k, r1) =>
      match skip_ws r1 with
      | [] => None
      | c1 :: r2 =>
          if Ascii.eqb c1 ":"%char then
            match parse_value fuel r2 with
            | Some (v, r3) =>
                match skip_ws r3 with
                | [] => None
                | c :: r4 =>
                    if Ascii.eqb c ","%char then
                      match parse_members fuel r4 with
                      | Some (l, rest) => Some ((k, v) :: l, rest)
                      | None => None
                      end
                    else if Ascii.eqb c "}"%char then Some ([(k, v)], r4)
                    else None
                end
            | None => None
            end
          else None
      end
  | None => None
  end.
Proof. reflexivity. Qed.

(** [parse_value] and [parse_members] start by skipping white space. *)
Lemma parse_value_ws (fuel : nat) (s s' : list ascii) :
  skip_ws s = skip_ws s' -> parse_value fuel s = parse_value fuel s'.
Proof.
  intros H. destruct fuel; [reflexivity|]. simpl. rewrite H. reflexivity.
Qed.

Lemma parse_value_space (fuel : nat) (s : list ascii) :
  parse_value fuel (" "%char :: s) = parse_value fuel s.
Proof. apply parse_value_ws. reflexivity. Qed.

Lemma parse_members_ws (fuel : nat) (s s' : list ascii) :
  skip_ws s = skip_ws s' -> parse_members fuel s = parse_members fuel s'.
Proof.
  intros H. destruct fuel; [reflexivity|]. simpl. rewrite H. reflexivity.
Qed.

(** A text that starts with a digit or a minus sign is read as a number. *)
Lemma parse_value_number (fuel : nat) (c : ascii) (r : list ascii) :
  JsText.is_digit c = true \/ c = "-"%char ->
  parse_value (S fuel) (c :: r) =
  match parse_number (c :: r) with
  | Some (n, rest) => Some (Num (Int n), rest)
  | None => None
  end.
Proof.
  intros [H| ->]; [|reflexivity].
  destruct c as [[] [] [] [] [] [] [] []]; try discriminate H; reflexivity.
Qed.

Lemma number_text_head (n : Z) :
  exists c more,
    number_text n = c :: more /\
    (JsText.is_digit c = true \/ c = "-"%char).
Proof.
  unfold number_text, JsText.toString.
  destruct n as [|p|p]; cbn [Z.to_int NilZero.string_of_int].
  - do 2 eexists. split; [reflexivity|left; reflexivity].
  - destruct (uint_digits p) as (c & more & E & _ & _ & Hd).
    unfold NilZero.string_of_uint.
    pose proof (DecimalPos.Unsigned.to_uint_nonnil p) as Hn.
    destruct (Pos.to_uint p) eqn:Ep; [destruct (Hn eq_refl)|..];
      rewrite E; eauto.
  - cbn [list_ascii_of_string]. do 2 eexists. split; [reflexivity|].
    right. reflexivity.
Qed.

Lemma print_head (n : nat) (v : Value) :
  exists c more, print n v = c :: more /\ opens_value c.
Proof.
  unfold opens_value.
  destruct v as [|[]|[|z]|str|[|x xs]|[|m ms]];
    try (do 2 eexists; split; [reflexivity|repeat split]).
  cbn [print]. destruct (number_text_head z) as (c & more & E & Hc).
  rewrite E. exists c, more. split; [reflexivity|].
  destruct Hc as [Hc| ->]; [|repeat split].
  destruct c as [[] [] [] [] [] [] [] []]; try discriminate Hc; repeat split.
Qed.

Lemma skip_ws_print (n : nat) (v : Value) (rest : list ascii) :
  skip_ws (print n v ++ rest) = print n v ++ rest.
Proof.
  destruct (print_head n v) as (c & more & E & Hc & _).
  rewrite E. cbn [List.app]. apply skip_ws_id, Hc.
Qed.

Lemma sizes_cons (x : Value) (l : list Value) :
  sizes (x :: l) = (S (size x) + sizes l)%nat.
Proof. reflexivity. Qed.

Lemma parse_elements_print (xs : list Value) :
  Forall reads_back xs ->
  forall x n fuel rest,
    reads_back x ->
    forallb unique_keys (x :: xs) = true ->
    (S (size x) + sizes xs <= fuel)%nat ->
    parse_elements fuel
      (break (n + 2) ++ print (n + 2) x
         ++ flat_map (fun y => ","%char :: break (n + 2) ++ print (n + 2) y) xs
         ++ break n ++ "]"%char :: rest)
    = Some (norm x :: map norm xs, rest).
Proof.
  induction 1 as [|y xs Hy Hxs IH]; intros x n fuel rest Hx Hu Hf;
    cbn [forallb] in Hu; apply andb_true_iff in Hu as [Hux Hu];
    (destruct fuel as [|fuel]; [lia|]);
    rewrite parse_elements_eq;
    rewrite (parse_value_ws fuel _ _ (skip_ws_break _ _)).
  - cbn [flat_map List.app].
    rewrite (Hx (n + 2)%nat fuel _ Hux); [|lia|reflexivity].
    rewrite skip_ws_break. reflexivity.
  - cbn [flat_map]. rewrite <- !app_assoc. cbn [List.app].
    rewrite (Hx (n + 2)%nat fuel _ Hux);
      [|lia|reflexivity].
    cbn [skip_ws]. change (is_ws ",") with false. cbn iota.
    change (Ascii.eqb "," ",") with true. cbn iota.
    rewrite <- !app_assoc.
    rewrite (IH y n fuel rest Hy Hu);
      [reflexivity|rewrite sizes_cons in Hf; lia].
Qed.

Lemma member_sizes_cons (m : string * Value) (l : list (string * Value)) :
  member_sizes (m :: l) = (S (size (snd m)) + member_sizes l)%nat.
Proof. reflexivity. Qed.

Lemma parse_members_print (ms : list (string * Value)) :
  Forall (fun m => reads_back (snd m)) ms ->
  forall m n fuel rest,
    reads_back (snd m) ->
    forallb (fun m => unique_keys (snd m)) (m :: ms) = true ->
    (S (size (snd m)) + member_sizes ms <= fuel)%nat ->
    parse_members fuel
      (break (n + 2) ++ quote (fst m)
         ++ ":"%char :: " "%char :: print (n + 2) (snd m)
         ++ flat_map (fun m' =>
                        ","%char :: break (n + 2) ++ quote (fst m')
                          ++ ":"%char :: " "%char
                          :: print (n + 2) (snd m')) ms
         ++ break n ++ "}"%char :: rest)
    = Some ((fst m, norm (snd m))
              :: map (fun m => (fst m, norm (snd m))) ms, rest).
Proof.
  induction 1 as [|m' ms Hm' Hms IH]; intros m n fuel rest Hm Hu Hf;
    cbn [forallb] in Hu; apply andb_true_iff in Hu as [Hum Hu];
    (destruct fuel as [|fuel]; [lia|]);
    rewrite (parse_members_ws (S fuel) _ _ (skip_ws_break _ _));
    match goal with
    | |- parse_members _ (quote ?k ++ ?X) = _ =>
        destruct (parse_string_quote k X) as (body & -> & Hbody)
    end;
    rewrite parse_members_eq, Hbody;
    cbn [skip_ws]; change (is_ws ":") with false; cbn iota;
    change (Ascii.eqb ":" ":") with true; cbn iota;
    rewrite parse_value_space.
  - cbn [flat_map List.app].
    rewrite (Hm (n + 2)%nat fuel _ Hum); [|lia|reflexivity].
    rewrite skip_ws_break. reflexivity.
  - cbn [flat_map]. rewrite <- !app_assoc. cbn [List.app].
    rewrite (Hm (n + 2)%nat fuel _ Hum); [|lia|reflexivity].
    cbn [skip_ws]. change (is_ws ",") with false. cbn iota.
    change (Ascii.eqb "," ",") with true. cbn iota.
    rewrite <- !app_assoc. cbn [List.app].
    rewrite (IH m' n fuel rest Hm' Hu);
      [reflexivity|rewrite member_sizes_cons in Hf; lia].
Qed.

(** ** Objects *)

Lemma assign_fresh (k : string) (v : Value) (l : list (string * Value)) :
  k ∉ map fst l -> assign k v l = l ++ [(k, v)].
Proof.
  induction l as [|[k' v'] l IH]; intros Hk; [reflexivity|].
  cbn [assign List.app]. cbn [map fst] in Hk.
  apply not_elem_of_cons in Hk as [Hne Hk].
  destruct (String.eqb_spec k' k) as [->|_]; [congruence|].
  rewrite (IH Hk). reflexivity.
Qed.

Lemma fold_assign (l acc : list (string * Value)) :
  NoDup (map fst (acc ++ l)) ->
  fold_left (fun o m => assign (fst m) (snd m) o) l acc = acc ++ l.
Proof.
  revert acc. induction l as [|[k v] l IH]; intros acc Hnd.
  - rewrite app_nil_r. reflexivity.
  - cbn [fold_left fst snd].
    rewrite assign_fresh.
    + rewrite IH; rewrite <- app_assoc; [reflexivity|exact Hnd].
    + rewrite map_app in Hnd. apply NoDup_app in Hnd as (_ & Hd & _).
      intros Hin. apply (Hd k Hin). cbn [map fst]. left.
Qed.

Lemma object_of_unique (l : list (string * Value)) :
  NoDup (map fst l) -> object_of l = Obj l.
Proof.
  intros Hnd. unfold object_of. rewrite (fold_assign l [] Hnd). reflexivity.
Qed.

(** ** The round trip *)

Lemma closes_number_head (c : ascii) (r : list ascii) :
  JsText.is_digit c = false ->
  Ascii.eqb c "." = false -> Ascii.eqb c "e" = false ->
  Ascii.eqb c "E" = false ->
  closes_number (c :: r) = true.
Proof.
  intros H1 H2 H3 H4. cbn [closes_number number_ends].
  rewrite H1, H2, H3, H4. reflexivity.
Qed.

Theorem parse_print (v : Value) : reads_back v.
Proof.
  induction v as [|b|[|z]|str|l IH|ms IH] using Value_ind';
    intros n fuel rest Hu Hf Hrest;
    (destruct fuel as [|fuel]; [cbn [size] in Hf; lia|]).
  - reflexivity.
  - destruct b; reflexivity.
  - reflexivity.
  - cbn [print norm].
    destruct (number_text_head z) as (c & more & E & Hc).
    rewrite E. cbn [List.app]. rewrite (parse_value_number fuel c _ Hc).
    change (c :: more ++ rest) with ((c :: more) ++ rest). rewrite <- E.
    rewrite (parse_number_text z rest Hrest). reflexivity.
  - cbn [print norm].
    destruct (parse_string_quote str rest) as (body & -> & Hbody).
    rewrite parse_value_string, Hbody. reflexivity.
  - destruct l as [|x xs]; [reflexivity|].
    cbn [print norm].
    repeat first [rewrite <- app_assoc | progress cbn [List.app]].
    rewrite parse_value_array, skip_ws_break, skip_ws_print.
    destruct (print_head (n + 2) x) as (c & more & E & _ & Hc & _).
    rewrite E at 1. cbn [List.app]. rewrite Hc.
    apply Forall_cons in IH as [Hx Hxs].
    cbn [unique_keys] in Hu. cbn [size] in Hf.
    rewrite (parse_elements_print xs Hxs x n fuel rest Hx Hu);
      [reflexivity|].
    change (list_sum (map (fun x => S (size x)) (x :: xs)))
      with (sizes (x :: xs)) in Hf.
    rewrite sizes_cons in Hf. lia.
  - destruct ms as [|m ms]; [reflexivity|].
    cbn [print norm].
    repeat first [rewrite <- app_assoc | progress cbn [List.app]].
    rewrite parse_value_object, skip_ws_break.
    destruct (parse_string_quote (fst m)
                (":"%char :: " "%char :: print (n + 2) (snd m)
                   ++ flat_map (fun m' =>
                        ","%char :: break (n + 2) ++ quote (fst m')
                          ++ ":"%char :: " "%char
                          :: print (n + 2) (snd m')) ms
                   ++ break n ++ "}"%char :: rest))
      as (body & E & _).
    rewrite E at 1. cbn [skip_ws].
    change (is_ws quotation_mark) with false. cbn iota.
    change (Ascii.eqb quotation_mark "}") with false. cbn iota.
    apply Forall_cons in IH as [Hm Hms].
    cbn [unique_keys] in Hu. apply andb_true_iff in Hu as [Hnd Hu].
    apply bool_decide_eq_true in Hnd.
    cbn [size] in Hf.
    rewrite (parse_members_print ms Hms m n fuel rest Hm Hu).
    + rewrite object_of_unique; [reflexivity|].
      change ((fst m, norm (snd m))
                :: map (fun m0 => (fst m0, norm (snd m0))) ms)
        with (map (fun m0 => (fst m0, norm (snd m0))) (m :: ms)).
      rewrite map_map. exact Hnd.
    + change (list_sum (map (fun m => S (size (snd m))) (m :: ms)))
        with (member_sizes (m :: ms)) in Hf.
      rewrite member_sizes_cons in Hf. lia.
Qed.

(** The fuel [parse] gives, the length of the text, is enough. *)
Lemma size_le_length (v : Value) :
  forall n, (size v <= length (print n v))%nat.
Proof.
  induction v as [|b|[|z]|str|l IH|ms IH] using Value_ind'; intros n;
    try (cbn; lia).
  - destruct b; cbn; lia.
  - cbn [size print]. destruct (number_text_head z) as (c & more & -> & _).
    cbn [length]. lia.
  - destruct l as [|x xs]; [cbn; lia|].
    apply Forall_cons in IH as [Hx Hxs].
    cbn [size].
    change (list_sum (map (fun x => S (size x)) (x :: xs)))
      with (sizes (x :: xs)).
    rewrite sizes_cons.
    cbn [print length]. rewrite !length_app. cbn [length].
    specialize (Hx (n + 2)%nat).
    assert (sizes xs <=
            length (flat_map (fun y => ","%char :: break (n + 2)
                                         ++ print (n + 2) y) xs))%nat as Hs.
    { clear Hx. induction Hxs as [|y xs Hy _ IHxs]; [cbn; lia|].
      rewrite sizes_cons. cbn [flat_map]. rewrite length_app.
      cbn [length]. rewrite length_app. specialize (Hy (n + 2)%nat). lia. }
    lia.
  - destruct ms as [|m ms]; [cbn; lia|].
    apply Forall_cons in IH as [Hm Hms].
    cbn [size].
    change (list_sum (map (fun m => S (size (snd m))) (m :: ms)))
      with (member_sizes (m :: ms)).
    rewrite member_sizes_cons.
    cbn [print length]. rewrite !length_app. cbn [length].
    rewrite !length_app. cbn [length].
    specialize (Hm (n + 2)%nat).
    assert (member_sizes ms <=
            length (flat_map (fun m' =>
                      ","%char :: break (n + 2) ++ quote (fst m')
                        ++ ":"%char :: " "%char
                        :: print (n + 2) (snd m')) ms))%nat as Hs.
    { clear Hm. induction Hms as [|y ms Hy _ IHms]; [cbn; lia|].
      rewrite member_sizes_cons. cbn [flat_map]. rewrite length_app.
      cbn [length]. rewrite !length_app. cbn [length].
      specialize (Hy (n + 2)%nat). lia. }
    lia.
Qed.

(** [JSON.parse(JSON.stringify(v, null, 2))] is [v] with [null] in place of
    [NaN]. *)
Theorem parse_of_stringify (v : Value) :
  unique_keys v = true -> parse (stringify v) = Some (norm v).
Proof.
  intros Hu. unfold parse, stringify.
  rewrite list_ascii_of_string_of_list_ascii.
  rewrite <- (app_nil_r (print 0 v)) at 2.
  rewrite (parse_print v 0%nat (length (print 0 v)) [] Hu
             (size_le_length v 0%nat) eq_refl).
  reflexivity.
Qed.

Lemma norm_finite (v : Value) : finite v = true -> norm v = v.
Proof.
  induction v as [|b|[|z]|str|l IH|ms IH] using Value_ind';
    cbn [finite norm]; intros Hf; try reflexivity; try discriminate.
  - f_equal. induction IH as [|x l Hx _ IHl]; [reflexivity|].
    cbn [forallb] in Hf. apply andb_true_iff in Hf as [H1 H2].
    cbn [map]. rewrite (Hx H1), (IHl H2). reflexivity.
  - f_equal. induction IH as [|[k x] l Hx _ IHl]; [reflexivity|].
    cbn [forallb snd] in Hf. apply andb_true_iff in Hf as [H1 H2].
    cbn [map fst snd] in *. rewrite (Hx H1), (IHl H2). reflexivity.
Qed.

End JsonFacts.

(** ** The exported document *)

Lemma step_of_step_value (step : Step) :
  step_of_value (step_value step) = Some step.
Proof. destruct step as [? ? ? [?|] ? ?]; reflexivity. Qed.

Lemma steps_of_step_values (l : list Step) :
  mapM step_of_value (map step_value l) = Some l.
Proof.
  induction l as [|step l IH]; [reflexivity|].
  cbn [map mapM]. rewrite step_of_step_value, IH. reflexivity.
Qed.

Lemma outcome_of_outcome_value (outcome : Outcome) :
  outcome_of_value (outcome_value outcome) = Some outcome.
Proof.
  destruct outcome as [id title l].
  unfold outcome_of_value, outcome_value.
  change (property "id" _) with (Some (Json.Num (Json.Int id))).
  change (property "title" _) with (Some (Json.Str title)).
  change (property "steps" _) with (Some (Json.Arr (map step_value l))).
  cbn [as_integer as_text]. rewrite steps_of_step_values. reflexivity.
Qed.

Lemma outcomes_of_outcome_values (os : list Outcome) :
  mapM outcome_of_value (map outcome_value os) = Some os.
Proof.
  induction os as [|outcome os IH]; [reflexivity|].
  cbn [map mapM]. rewrite outcome_of_outcome_value, IH. reflexivity.
Qed.

Lemma notes_of_notes_value (notes : list (string * string)) :
  notes_of_value (notes_value notes) = Some (list_to_map notes).
Proof.
  unfold notes_of_value, notes_value.
  assert (mapM (fun m : string * Json.Value =>
                  match snd m with
                  | Json.Str str => Some (fst m, str)
                  | _ => None
                  end)
            (map (fun note => member (fst note) (Json.Str (snd note))) notes)
          = Some notes) as ->; [|reflexivity].
  induction notes as [|[k note] notes IH]; [reflexivity|].
  cbn [map mapM member fst snd]. rewrite IH. reflexivity.
Qed.

Lemma step_value_ok (step : Step) :
  Json.unique_keys (step_value step) = true /\
  Json.finite (step_value step) = true.
Proof. destruct step as [? ? ? [?|] ? ?]; split; reflexivity. Qed.

Lemma outcome_value_ok (outcome : Outcome) :
  Json.unique_keys (outcome_value outcome) = true /\
  Json.finite (outcome_value outcome) = true.
Proof.
  destruct outcome as [id title l].
  assert (forallb Json.unique_keys (map step_value l) = true /\
          forallb Json.finite (map step_value l) = true) as [Hu Hf].
  { induction l as [|step l [IHu IHf]]; [split; reflexivity|].
    destruct (step_value_ok step) as [Hu Hf].
    cbn [map forallb]. rewrite Hu, Hf, IHu, IHf. split; reflexivity. }
  unfold outcome_value, member.
  cbn [Json.unique_keys Json.finite forallb map fst snd outcome_id
       outcome_title steps].
  rewrite Hu, Hf. split; reflexivity.
Qed.

Lemma outcomes_value_ok (os : list Outcome) :
  Json.unique_keys (outcomes_value os) = true /\
  Json.finite (outcomes_value os) = true.
Proof.
  unfold outcomes_value. cbn [Json.unique_keys Json.finite].
  induction os as [|outcome os [IHu IHf]]; [split; reflexivity|].
  destruct (outcome_value_ok outcome) as [Hu Hf].
  cbn [map forallb]. rewrite Hu, Hf, IHu, IHf. split; reflexivity.
Qed.

Lemma notes_value_ok (notes : list (string * string)) :
  NoDup (map fst notes) ->
  Json.unique_keys (notes_value notes) = true /\
  Json.finite (notes_value notes) = true.
Proof.
  intros Hnd. unfold notes_value. cbn [Json.unique_keys Json.finite].
  rewrite map_map. cbn [member fst].
  rewrite (bool_decide_eq_true_2 _ Hnd). cbn [andb].
  clear Hnd. induction notes as [|note notes [IHu IHf]];
    [split; reflexivity|].
  cbn [map forallb member snd Json.unique_keys Json.finite].
  rewrite IHu, IHf. split; reflexivity.
Qed.

(** The object literal of the export has five distinct keys. *)
Lemma export_object_ok (o n b : Json.Value) (date version : string) :
  Json.unique_keys o = true -> Json.unique_keys n = true ->
  Json.unique_keys b = true ->
  Json.unique_keys (export_object o n b date version) = true.
Proof.
  intros Ho Hn Hb. unfold export_object, member.
  cbn [Json.unique_keys forallb map fst snd].
  rewrite Ho, Hn, Hb. reflexivity.
Qed.

Lemma export_object_finite (o n b : Json.Value) (date version : string) :
  Json.finite o = true -> Json.finite n = true -> Json.finite b = true ->
  Json.norm (export_object o n b date version) =
  export_object o n b date version.
Proof.
  intros Ho Hn Hb. unfold export_object, member.
  cbn [Json.norm map fst snd].
  rewrite !JsonFacts.norm_finite by assumption. reflexivity.
Qed.

(** The import reads the three values of an exported object. *)
Lemma import_values_export_object (items : list Json.Value)
  (ms : list (string * Json.Value)) (bank : Z) (date version : string) :
  import_values
    (export_object (Json.Arr items) (Json.Obj ms) (Json.Num (Json.Int bank))
       date version)
  = Some (Json.Arr items, Json.Obj ms, Json.Num (Json.Int bank)).
Proof.
  unfold import_values, export_object.
  change (property "outcomes" _) with (Some (Json.Arr items)).
  change (property "stepNotes" _) with (Some (Json.Obj ms)).
  change (property "timeBank" _) with (Some (Json.Num (Json.Int bank))).
  cbn [truthy_value is_array_value negb orb or_value].
  unfold Js.truthy_number.
  destruct (Z.eqb_spec bank 0) as [->|_]; reflexivity.
Qed.



(** The outcomes [addStep] installs are those of [addStep_value], wherever
    [parseInt] yields a number. *)
Lemma addStep_value_typed (outcomeId : Z) (s s' : AppState) :
  addStep outcomeId s = Some s' ->
  addStep_value outcomeId s = outcomes_value (outcomes s').
Proof.
  unfold addStep, addStep_value.
  destruct (negb _ || negb _); [intros [= <-]; reflexivity|].
  destruct (mapM _ _) as [os'|] eqn:E; [|discriminate].
  intros [= <-].
  cbn [outcomes showNotification setNotification setAddingStepTo setNewStep
       setOutcomes].
  unfold outcomes_value. f_equal.
  revert os' E. induction (outcomes s) as [|outcome os IH]; intros os' E.
  - injection E as <-. reflexivity.
  - cbn [mapM] in E.
    destruct (addStep_outcome outcomeId (newStep s) outcome) as [o'|] eqn:Eo;
      [|discriminate].
    cbn in E.
    destruct (mapM _ os) as [os''|] eqn:Em; [|discriminate].
    injection E as <-. cbn [map]. rewrite (IH os'' eq_refl). f_equal.
    unfold addStep_outcome in Eo.
    destruct (outcome_id outcome =? outcomeId); [|injection Eo as <-; reflexivity].
    unfold new_step_value.
    destruct (Js.parseInt _) as [est|]; [|discriminate].
    injection Eo as <-. unfold outcome_value.
    cbn [outcome_id outcome_title steps]. rewrite map_app. reflexivity.
Qed.


(* ===================================================================== *)
(** * Creating outcomes and steps: proofs                                *)
(* ===================================================================== *)

Lemma trimStart_nil_iff (l : list ascii) :
  Js.trimStart l = [] <-> forallb Js.is_whitespace l = true.
Proof.
  induction l as [|c l IH]; simpl; [tauto|].
  destruct (Js.is_whitespace c); simpl; [exact IH|].
  split; discriminate.
Qed.

Lemma trimStart_head (l : list ascii) (c : ascii) (r : list ascii) :
  Js.trimStart l = c :: r -> Js.is_whitespace c = false.
Proof.
  induction l as [|d l IH]; simpl; [discriminate|].
  destruct (Js.is_whitespace d) eqn:E; [exact IH|].
  intros [= -> _]. exact E.
Qed.

(** A title trims to the empty string exactly when it is empty or holds
    white space only. *)
Lemma trim_empty_iff (str : string) :
  Js.trim str = ""%string <->
  forallb Js.is_whitespace (list_ascii_of_string str) = true.
Proof.
  unfold Js.trim, Js.trimEnd.
  set (l := list_ascii_of_string str).
  split.
  - intros E.
    apply (f_equal list_ascii_of_string) in E.
    rewrite list_ascii_of_string_of_list_ascii in E. simpl in E.
    apply (f_equal (@rev ascii)) in E. rewrite rev_involutive in E.
    simpl in E. apply trimStart_nil_iff in E.
    destruct (Js.trimStart l) as [|c r] eqn:El.
    + apply trimStart_nil_iff. exact El.
    + apply trimStart_head in El.
      rewrite forallb_forall in E.
      rewrite (E c) in El; [discriminate|].
      apply in_rev. rewrite rev_involutive. left. reflexivity.
  - intros E. apply trimStart_nil_iff in E. rewrite E. reflexivity.
Qed.

Lemma addOutcome_ignores_blank_title (s : AppState) :
  forallb Js.is_whitespace (list_ascii_of_string (newOutcome s)) = true ->
  addOutcome s = s.
Proof.
  intros E. apply trim_empty_iff in E. unfold addOutcome. rewrite E.
  reflexivity.
Qed.

Lemma addStep_ignores_blank_title (outcomeId : Z) (s : AppState) :
  forallb Js.is_whitespace
    (list_ascii_of_string (ns_title (newStep s))) = true ->
  addStep outcomeId s = Some s.
Proof.
  intros E. apply trim_empty_iff in E. unfold addStep. rewrite E.
  reflexivity.
Qed.

Lemma addStep_ignores_empty_estimate (outcomeId : Z) (s : AppState) :
  ns_estimatedMin (newStep s) = ""%string ->
  addStep outcomeId s = Some s.
Proof.
  intros E. unfold addStep. rewrite E. simpl. rewrite orb_true_r.
  reflexivity.
Qed.

(** [addStep] yields a state whenever [parseInt] reads an integer from the
    estimate. *)
Lemma addStep_returns (outcomeId : Z) (s : AppState) :
  is_Some (Js.parseInt (ns_estimatedMin (newStep s))) ->
  is_Some (addStep outcomeId s).
Proof.
  intros [est Hest]. unfold addStep.
  destruct (negb _ || negb _); [eauto|].
  destruct (mapM _ _) as [os'|] eqn:E; [eauto|].
  exfalso. apply eq_None_not_Some in E. apply E.
  apply mapM_is_Some, Forall_forall. intros o _.
  unfold compose, addStep_outcome. rewrite Hest.
  destruct (outcome_id o =? outcomeId); eauto.
Qed.

(** Past the guard, the outcome with the given id gains one step, which is
    not completed and has no actual minutes, at the end of its list. *)
Lemma addStep_appends (outcomeId est : Z) (s : AppState) (i : nat)
  (o : Outcome) :
  Js.trim (ns_title (newStep s)) <> ""%string ->
  ns_estimatedMin (newStep s) <> ""%string ->
  Js.parseInt (ns_estimatedMin (newStep s)) = Some est ->
  outcomes s !! i = Some o ->
  exists s', addStep outcomeId s = Some s' /\
    outcomes s' !! i =
      Some (if outcome_id o =? outcomeId then
              mkOutcome (outcome_id o) (outcome_title o)
                (steps o ++
                   [mkStep (Js.max_with_0 (map step_id (steps o)) + 1)
                      (Js.trim (ns_title (newStep s))) est None false 0])
            else o).
Proof.
  intros Ht He Hest Ho.
  assert (negb (Js.truthy_string (Js.trim (ns_title (newStep s))))
          || negb (Js.truthy_string (ns_estimatedMin (newStep s))) = false)
    as G.
  { destruct (Js.trim (ns_title (newStep s))); [congruence|].
    destruct (ns_estimatedMin (newStep s)); [congruence|]. reflexivity. }
  unfold addStep. rewrite G.
  destruct (mapM _ _) as [os'|] eqn:E.
  - eexists. split; [reflexivity|]. simpl.
    apply mapM_Some in E.
    destruct (Forall2_lookup_l _ _ _ _ _ E Ho) as (o' & Ho' & Hf).
    rewrite Ho'. f_equal. unfold addStep_outcome in Hf. rewrite Hest in Hf.
    destruct (outcome_id o =? outcomeId); congruence.
  - exfalso. apply eq_None_not_Some in E. apply E.
    apply mapM_is_Some, Forall_forall. intros o1 _.
    unfold compose, addStep_outcome. rewrite Hest.
    destruct (outcome_id o1 =? outcomeId); eauto.
Qed.

(** C5.  An estimate of 0 minutes, or a negative one, is not ignored by
    [addStep]: the guard tests that the string of the input is not empty,
    and a step with that estimate is appended to the outcome. *)
Theorem addStep_accepts_nonpositive_estimate :
  option_map outcomes (addStep 1 (step_form "0")) =
    Some [mkOutcome 1 "Write" [mkStep 1 "Draft" 0 None false 0]] /\
  option_map outcomes (addStep 1 (step_form "-5")) =
    Some [mkOutcome 1 "Write" [mkStep 1 "Draft" (-5) None false 0]] /\
  option_map outcomes (addStep 1 (step_form "")) =
    Some (outcomes (step_form "")).
Proof. repeat split; reflexivity. Qed.

(* ===================================================================== *)
(** * The invariant on [actualMin]: proofs                               *)
(* ===================================================================== *)

Lemma outcomes_ok_map_steps (f : Outcome -> bool) (g : Step -> Step)
  (os : list Outcome) :
  (forall step, step_ok step -> step_ok (g step)) ->
  outcomes_ok os ->
  outcomes_ok (map (fun outcome =>
     if f outcome then
       mkOutcome (outcome_id outcome) (outcome_title outcome)
         (map g (steps outcome))
     else outcome) os).
Proof.
  intros Hg. unfold outcomes_ok. induction 1 as [|o os Ho Hos IH]; simpl.
  - constructor.
  - constructor; [|exact IH].
    destruct (f o); [|exact Ho]. simpl.
    induction Ho; simpl; constructor; auto.
Qed.

Lemma Forall_list_filter {A} (P : A -> Prop) (p : A -> bool) (l : list A) :
  Forall P l -> Forall P (List.filter p l).
Proof.
  induction 1 as [|x l Hx Hl IH]; simpl; [constructor|].
  destruct (p x); [constructor|]; assumption.
Qed.

Lemma pauseTimer_ok (s : AppState) :
  outcomes_ok (outcomes s) -> outcomes_ok (outcomes (pauseTimer s)).
Proof.
  intros H. unfold pauseTimer. destruct (activeTimer s) as [a|]; [|exact H].
  cbn [outcomes setOutcomes setTimerSeconds setActiveTimer].
  apply (outcomes_ok_map_steps
           (fun outcome => outcome_id outcome =? outcomeId a)
           (fun step => if step_id step =? stepId a then _ else step));
    [|exact H].
  intros step Hs. destruct (step_id step =? stepId a); [|exact Hs].
  exact Hs.
Qed.

Lemma markStepDone_ok (s : AppState) :
  outcomes_ok (outcomes s) -> outcomes_ok (outcomes (markStepDone s)).
Proof.
  intros H. unfold markStepDone. destruct (activeTimer s) as [a|]; [|exact H].
  cbn [outcomes setOutcomes setTimerSeconds setActiveTimer showNotification
       setNotification].
  apply (outcomes_ok_map_steps
           (fun outcome => outcome_id outcome =? outcomeId a)
           (fun step => if step_id step =? stepId a then _ else step));
    [|exact H].
  intros step Hs. destruct (step_id step =? stepId a); [|exact Hs].
  intros C. discriminate C.
Qed.

Lemma addOutcome_ok (s : AppState) :
  outcomes_ok (outcomes s) -> outcomes_ok (outcomes (addOutcome s)).
Proof.
  intros H. unfold addOutcome.
  destruct (negb _); [exact H|]. simpl.
  apply Forall_app. split; [exact H|]. repeat constructor.
Qed.

Lemma addStep_ok (outcomeId : Z) (s s' : AppState) :
  outcomes_ok (outcomes s) -> addStep outcomeId s = Some s' ->
  outcomes_ok (outcomes s').
Proof.
  intros H. unfold addStep.
  destruct (negb _ || negb _); [intros [= <-]; exact H|].
  destruct (mapM _ _) as [os'|] eqn:E; [|discriminate].
  intros [= <-]. simpl.
  apply mapM_Some in E. unfold outcomes_ok in *.
  induction E as [|o o' os os' Ho _ IH]; [constructor|].
  inversion H as [|? ? Hsteps Hrest]; subst.
  constructor; [|apply IH; exact Hrest].
  unfold addStep_outcome in Ho.
  destruct (outcome_id o =? outcomeId); [|injection Ho as <-; exact Hsteps].
  destruct (Js.parseInt _); [|discriminate]. injection Ho as <-. simpl.
  apply Forall_app. split; [exact Hsteps|].
  constructor; [|constructor]. intros _. reflexivity.
Qed.

Lemma removeOutcome_ok (confirmed : bool) (outcomeId : Z) (s : AppState) :
  outcomes_ok (outcomes s) ->
  outcomes_ok (outcomes (removeOutcome confirmed outcomeId s)).
Proof.
  intros H. unfold removeOutcome. destruct confirmed; simpl; [|exact H].
  apply Forall_list_filter. exact H.
Qed.

Lemma removeStep_ok (outcomeId stepId : Z) (s : AppState) :
  outcomes_ok (outcomes s) ->
  outcomes_ok (outcomes (removeStep outcomeId stepId s)).
Proof.
  intros H. unfold removeStep. simpl. unfold outcomes_ok in *.
  induction H as [|o os Ho Hos IH]; simpl; constructor; [|exact IH].
  destruct (outcome_id o =? outcomeId); [|exact Ho]. simpl.
  apply Forall_list_filter. exact Ho.
Qed.

Lemma importData_ok (event : FileEvent) (s : AppState) :
  import_ok event -> outcomes_ok (outcomes s) ->
  outcomes_ok (outcomes (importData event s)).
Proof.
  intros Hev H. destruct event as [| |text]; simpl; try exact H.
  destruct (import_try text s) as [s'|] eqn:E; [|exact H].
  apply import_try_Some in E as (data & a & -> & Ea & ->).
  simpl in Hev. rewrite Ea in Hev. exact Hev.
Qed.

Lemma handle_ok (e : Event) (s s' : AppState) :
  event_ok e -> outcomes_ok (outcomes s) -> handle e s = Some s' ->
  outcomes_ok (outcomes s').
Proof.
  intros He H.
  destruct e; simpl; try (intros [= <-]);
    auto using pauseTimer_ok, markStepDone_ok, addOutcome_ok,
      removeOutcome_ok, removeStep_ok, importData_ok.
  - apply addStep_ok. exact H.
  - unfold tick. destruct (activeTimer s); exact H.
  - unfold addTime. destruct (_ && _); exact H.
  - unfold exportData. destruct download_ok; exact H.
Qed.

(** C7, the failing case.  The import installs the outcomes of the document
    as they are: from a state that satisfies the invariant it leads to one
    that holds a step with actual minutes that is not completed. *)
Lemma importData_breaks_actualMin_invariant :
  outcomes_ok (outcomes initialState) /\
  ~ outcomes_ok
      (outcomes (importData (Loaded (ParsedDoc inconsistent_doc))
                   initialState)).
Proof.
  split; [constructor|].
  intros H. simpl in H.
  apply Forall_cons in H as [H _]. simpl in H.
  apply Forall_cons in H as [H _].
  specialize (H eq_refl). discriminate H.
Qed.

(** C7, as amended.  A step that is not completed has no actual minutes:
    the states [useState] and the default outcomes start from satisfy this,
    and every event preserves it (adding a step, pausing, completing and
    borrowing among them) provided each import installs outcomes that
    satisfy it; an import that is accepted yields a state that satisfies it
    exactly when the outcomes of the document do. *)
Theorem actualMin_null_until_completed :
  outcomes_ok (outcomes initialState) /\
  outcomes_ok DEFAULT_OUTCOMES /\
  (forall e s s',
      event_ok e -> outcomes_ok (outcomes s) -> handle e s = Some s' ->
      outcomes_ok (outcomes s')) /\
  (forall es s s',
      Forall event_ok es -> outcomes_ok (outcomes s) -> run s es s' ->
      outcomes_ok (outcomes s')) /\
  (forall data a s,
      d_outcomes data = DArr a ->
      (outcomes_ok (outcomes (importData (Loaded (ParsedDoc data)) s)) <->
       outcomes_ok a)).
Proof.
  split; [constructor|].
  split; [repeat constructor|].
  split; [exact handle_ok|].
  split.
  - intros es s s' Hes Hs Hrun. induction Hrun as [|s e s1 es s2 He _ IH].
    + exact Hs.
    + inversion Hes; subst. apply IH; [assumption|].
      eapply handle_ok; eauto.
  - intros data a s E. unfold importData.
    rewrite (import_try_array _ _ _ E). simpl. tauto.
Qed.

Lemma actualMin_null_until_completed_witness :
  outcomes_ok (outcomes (markStepDone example_running)).
Proof.
  apply (proj1 (proj2 (proj2 actualMin_null_until_completed))
           EMarkStepDone example_running (markStepDone example_running)).
  - exact I.
  - repeat constructor.
  - reflexivity.
Defined.

(* ===================================================================== *)
(** * Frame properties of the timer and of deletion                      *)
(* ===================================================================== *)

(** C9.  Starting a timer leaves the outcome list as it is, points the timer
    at the given step and sets the elapsed seconds to 0, whatever timer was
    running and whatever time it had counted: no step is credited with that
    time, neither in [timeSpent] nor in [actualMin]. *)
Theorem startTimer_discards_elapsed (outcomeId stepId : Z) (s : AppState) :
  outcomes (startTimer outcomeId stepId s) = outcomes s /\
  timerSeconds (startTimer outcomeId stepId s) = 0 /\
  activeTimer (startTimer outcomeId stepId s) =
    Some (mkTimer outcomeId stepId) /\
  (forall i j,
      step_at (outcomes (startTimer outcomeId stepId s)) i j =
      step_at (outcomes s) i j) /\
  timeBank (startTimer outcomeId stepId s) = timeBank s /\
  outcomes (startTimer 1 2 example_running) = outcomes example_running.
Proof. repeat split; reflexivity. Qed.

Lemma existsb_filter_false {A} (p : A -> bool) (l : list A) :
  existsb p (List.filter (fun x => negb (p x)) l) = false.
Proof.
  induction l as [|x l IH]; simpl; [reflexivity|].
  destruct (p x) eqn:E; simpl; [exact IH|].
  rewrite E. exact IH.
Qed.

Lemma removeStep_target_gone (a : Timer) (s : AppState) :
  timer_target_exists a
    (outcomes (removeStep (outcomeId a) (stepId a) s)) = false.
Proof.
  unfold removeStep, timer_target_exists. simpl.
  induction (outcomes s) as [|o os IH]; simpl; [reflexivity|].
  rewrite IH, orb_false_r. unfold targets.
  destruct (outcome_id o =? outcomeId a) eqn:E; simpl.
  - rewrite E. simpl.
    apply (existsb_filter_false (fun step => step_id step =? stepId a)).
  - rewrite E. simpl. induction (steps o); simpl; auto.
Qed.

Lemma removeOutcome_target_gone (a : Timer) (s : AppState) :
  timer_target_exists a
    (outcomes (removeOutcome true (outcomeId a) s)) = false.
Proof.
  unfold removeOutcome, timer_target_exists. simpl.
  induction (outcomes s) as [|o os IH]; simpl; [reflexivity|].
  destruct (outcome_id o =? outcomeId a) eqn:E; simpl; [exact IH|].
  rewrite IH, orb_false_r. unfold targets. rewrite E. simpl.
  induction (steps o); simpl; auto.
Qed.

(** C10.  Deleting a step or an outcome leaves the timer pointer and the
    elapsed seconds as they are.  When the deleted step, or the deleted
    outcome, is the one the timer names, no step of the list is named by the
    timer afterwards while the timer still runs; the running example shows
    such a state. *)
Theorem remove_keeps_timer (s : AppState) :
  (forall outcomeId stepId,
      activeTimer (removeStep outcomeId stepId s) = activeTimer s /\
      timerSeconds (removeStep outcomeId stepId s) = timerSeconds s) /\
  (forall confirmed outcomeId,
      activeTimer (removeOutcome confirmed outcomeId s) = activeTimer s /\
      timerSeconds (removeOutcome confirmed outcomeId s) = timerSeconds s) /\
  (forall a,
      activeTimer s = Some a ->
      activeTimer (removeStep (outcomeId a) (stepId a) s) = Some a /\
      timer_target_exists a
        (outcomes (removeStep (outcomeId a) (stepId a) s)) = false /\
      activeTimer (removeOutcome true (outcomeId a) s) = Some a /\
      timer_target_exists a
        (outcomes (removeOutcome true (outcomeId a) s)) = false) /\
  timer_target_exists (mkTimer 1 1) (outcomes example_running) = true /\
  activeTimer (removeStep 1 1 example_running) = Some (mkTimer 1 1) /\
  timerSeconds (removeStep 1 1 example_running) = 125 /\
  outcomes (removeStep 1 1 example_running) =
    [mkOutcome 1 "Write" [mkStep 2 "Edit" 20 None false 0]].
Proof.
  split; [intros; split; reflexivity|].
  split; [intros [] ?; split; reflexivity|].
  split; [|repeat split; reflexivity].
  intros a Ha.
  split; [exact Ha|]. split; [apply removeStep_target_gone|].
  split; [exact Ha|]. apply removeOutcome_target_gone.
Qed.

Lemma remove_keeps_timer_witness :
  activeTimer (removeStep 1 1 example_running) = Some (mkTimer 1 1) /\
  timer_target_exists (mkTimer 1 1)
    (outcomes (removeStep 1 1 example_running)) = false.
Proof.
  pose proof (proj1 (proj2 (proj2 (remove_keeps_timer example_running)))
                (mkTimer 1 1) eq_refl) as (H1 & H2 & _).
  exact (conj H1 H2).
Defined.

(* ===================================================================== *)
(** * The persistence adapter: proofs                                    *)
(* ===================================================================== *)

Lemma by_window (window : option Storage.LocalStorageGetter)
  (P : string -> Prop) (Q : Prop) :
  (forall msg, window = Some (Storage.GetterThrows msg) -> P msg) ->
  ((forall msg, window <> Some (Storage.GetterThrows msg)) -> Q) ->
  match window with
  | Some (Storage.GetterThrows msg) => P msg
  | _ => Q
  end.
Proof.
  intros HP HQ.
  destruct window as [[msg| | |]|]; [apply HP; reflexivity|..];
    apply HQ; intros msg; discriminate.
Qed.

Lemma by_window3 (window : option Storage.LocalStorageGetter)
  (P : string -> Prop) (Q R : Prop) :
  (forall msg, window = Some (Storage.GetterThrows msg) -> P msg) ->
  (window = Some Storage.GetterStorage -> Q) ->
  (has_storage window = false ->
   (forall msg, window <> Some (Storage.GetterThrows msg)) -> R) ->
  match window with
  | Some (Storage.GetterThrows msg) => P msg
  | Some Storage.GetterStorage => Q
  | _ => R
  end.
Proof.
  intros HP HQ HR.
  destruct window as [[msg| | |]|];
    [apply HP; reflexivity| |
     |apply HQ; reflexivity|];
    (apply HR; [reflexivity|intros msg; discriminate]).
Qed.

Section AdapterFacts.

Import Storage.

Context {V : Type}.
Variable JSON_stringify : V -> option string.
Variable JSON_parse : string -> option V.
Variable window : option LocalStorageGetter.
Variable is_undefined : V -> bool.
Variable setItem_ok : gmap string string -> string -> string -> bool.

Local Abbreviation set := (Storage.set JSON_stringify window setItem_ok).
Local Abbreviation get :=
  (Storage.get JSON_parse window is_undefined setItem_ok).
Local Abbreviation remove := (Storage.remove window setItem_ok).
Local Abbreviation clear := (Storage.clear window setItem_ok).
Local Abbreviation probe := (Storage.isStorageAvailable window setItem_ok).
Local Abbreviation setItem := (Storage.localStorage_setItem setItem_ok).

(** The three ways [isBrowser()] ends. *)
Lemma isBrowser_cases :
  (window = Some GetterStorage /\
   forall w : World V, isBrowser window w = (Ok true, w)) \/
  (has_storage window = false /\
   (forall msg, window <> Some (GetterThrows msg)) /\
   forall w : World V, isBrowser window w = (Ok false, w)) \/
  (exists msg, window = Some (GetterThrows msg) /\
   forall w : World V, isBrowser window w = (Thrown msg, w)).
Proof.
  unfold isBrowser.
  destruct window as [[msg| | |]|].
  - right. right. exists msg. split; reflexivity.
  - right. left. repeat split; intros; discriminate.
  - right. left. repeat split; intros; discriminate.
  - left. split; reflexivity.
  - right. left. repeat split; intros; discriminate.
Qed.

Lemma isBrowser_true (w : World V) :
  window = Some GetterStorage -> isBrowser window w = (Ok true, w).
Proof. intros B. unfold isBrowser. rewrite B. reflexivity. Qed.

Lemma isBrowser_throws (msg : string) (w : World V) :
  window = Some (GetterThrows msg) -> isBrowser window w = (Thrown msg, w).
Proof. intros B. unfold isBrowser. rewrite B. reflexivity. Qed.

(** Where the getter throws, every operation of the adapter throws: the
    call of [isBrowser()] comes before the [try] block. *)
Lemma blocked_throws (msg : string) (w : World V) :
  window = Some (GetterThrows msg) ->
  (forall key value, set key value w = (Thrown msg, w)) /\
  (forall key d, get key d w = (Thrown msg, w)).
Proof.
  intros B.
  unfold Storage.set, Storage.get.
  repeat split; intros; unfold bind at 1;
    rewrite (isBrowser_throws msg w B); reflexivity.
Qed.

Lemma blocked_throws_plain (msg : string) (w : World V) :
  window = Some (GetterThrows msg) ->
  (forall key, remove key w = (Thrown msg, w)) /\
  clear w = (Thrown msg, w) /\
  Storage.keys window setItem_ok w = (Thrown msg, w) /\
  probe w = (Thrown msg, w) /\
  Storage.isAvailable window setItem_ok w = (Thrown msg, w) /\
  Storage.getStorageType window setItem_ok w = (Thrown msg, w).
Proof.
  intros B.
  unfold Storage.remove, Storage.clear,
    Storage.keys, Storage.isStorageAvailable, Storage.isAvailable,
    Storage.getStorageType.
  repeat split; intros; unfold bind at 1;
    rewrite (isBrowser_throws msg w B); reflexivity.
Qed.

(** Outside a browser every operation returns at once. *)
Lemma outside_returns (w : World V) :
  isBrowser window w = (Ok false, w) ->
  (forall key value, set key value w = (Ok false, w)) /\
  (forall key d, get key d w = (Ok d, w)).
Proof.
  intros B.
  unfold Storage.set, Storage.get.
  repeat split; intros; unfold bind at 1; rewrite B; reflexivity.
Qed.

Lemma get_outside (key : string) (d : V) (w : World V) :
  isBrowser window w = (Ok false, w) -> get key d w = (Ok d, w).
Proof.
  intros B. unfold Storage.get. unfold bind at 1. rewrite B. reflexivity.
Qed.

Lemma outside_returns_plain (w : World V) :
  isBrowser window w = (Ok false, w) ->
  (forall key, remove key w = (Ok false, w)) /\
  clear w = (Ok false, w) /\
  Storage.keys window setItem_ok w = (Ok ∅, w) /\
  probe w = (Ok false, w) /\
  Storage.isAvailable window setItem_ok w = (Ok false, w) /\
  Storage.getStorageType window setItem_ok w = (Ok "none"%string, w).
Proof.
  intros B.
  unfold Storage.remove, Storage.clear,
    Storage.keys, Storage.isStorageAvailable, Storage.isAvailable,
    Storage.getStorageType.
  repeat split; intros; unfold bind at 1; rewrite B; reflexivity.
Qed.

Lemma probe_returns (w : World V) :
  window = Some GetterStorage -> returns probe w.
Proof.
  intros B.
  unfold returns, isStorageAvailable. unfold bind at 1.
  rewrite (isBrowser_true w B). cbn [negb].
  unfold try_catch, bind, ret, localStorage_setItem, localStorage_removeItem.
  destruct (setItem_ok _ _ _); simpl; eauto.
Qed.

Lemma probe_memory (w w' : World V) (b : bool) :
  probe w = (Ok b, w') -> memoryStorage w' = memoryStorage w.
Proof.
  unfold isStorageAvailable. unfold bind at 1.
  destruct isBrowser_cases as [[B E]|[(B & N & E)|(msg & B & E)]];
    rewrite E; cbn [negb].
  - unfold try_catch, bind, ret, localStorage_setItem,
      localStorage_removeItem.
    destruct (setItem_ok _ _ _); simpl; intros [= _ <-]; reflexivity.
  - intros [= _ <-]; reflexivity.
  - discriminate.
Qed.

(** In a browser [set] returns [true] and the memory map holds the
    value, whatever becomes of the write to the primary store. *)
Lemma set_returns (key : string) (value : V) (w : World V) :
  window = Some GetterStorage ->
  exists w', set key value w = (Ok true, w') /\
    memoryStorage w' !! key = Some value.
Proof.
  intros B. unfold Storage.set. unfold bind at 1.
  rewrite (isBrowser_true w B). cbn [negb].
  unfold try_catch at 1. unfold bind at 1. unfold stringify.
  destruct (JSON_stringify value) as [ser|]; simpl.
  - unfold bind at 1.
    destruct (probe_returns w B) as (b & w1 & Hp).
    rewrite Hp.
    destruct b.
    + unfold bind, localStorage_setItem, memoryStorage_set, ret, try_catch.
      destruct (setItem_ok _ _ _); simpl;
        eexists; (split; [reflexivity|]); simpl;
        apply lookup_insert_eq.
    + unfold bind, memoryStorage_set, ret. simpl.
      eexists; (split; [reflexivity|]); simpl;
        apply lookup_insert_eq.
  - unfold throw, try_catch, bind, memoryStorage_set, ret. simpl.
    eexists; (split; [reflexivity|]); simpl;
      apply lookup_insert_eq.
Qed.

Lemma set_primary_write (key : string) (value : V) (ser : string)
  (w w1 w2 : World V) :
  window = Some GetterStorage ->
  JSON_stringify value = Some ser ->
  probe w = (Ok true, w1) ->
  setItem key ser w1 = (Ok tt, w2) ->
  set key value w =
    (Ok true, mkWorld (localStorage w2) (<[key := value]> (memoryStorage w2)))
  /\ localStorage w2 !! key = Some ser.
Proof.
  intros B Hs Hp Hw. unfold Storage.set. unfold bind at 1.
  rewrite (isBrowser_true w B). cbn [negb].
  unfold try_catch at 1. unfold bind at 1. unfold stringify. rewrite Hs.
  simpl. unfold bind at 1. rewrite Hp.
  unfold bind at 1. rewrite Hw.
  split; [reflexivity|].
  unfold localStorage_setItem in Hw.
  destruct (setItem_ok _ _ _); [|discriminate].
  injection Hw as <-. simpl. apply lookup_insert_eq.
Qed.

Lemma get_returns (key : string) (d : V) (w : World V) :
  window = Some GetterStorage -> returns (get key d) w.
Proof.
  intros B. unfold returns, Storage.get. unfold bind at 1.
  rewrite (isBrowser_true w B). cbn [negb].
  unfold try_catch at 1. unfold bind at 1.
  destruct (probe_returns w B) as (b & w1 & Hp).
  rewrite Hp.
  destruct b.
  - unfold bind, localStorage_getItem, parse, ret, throw, try_catch,
      memoryStorage_get.
    destruct (localStorage w1 !! key) as [str|]; simpl; [|eauto].
    destruct (Js.truthy_string str); simpl; [|eauto].
    destruct (JSON_parse str); simpl; eauto.
  - unfold bind, memoryStorage_get, ret. simpl. eauto.
Qed.

Lemma remove_returns (key : string) (w : World V) :
  window = Some GetterStorage ->
  exists w', remove key w = (Ok true, w').
Proof.
  intros B. unfold Storage.remove. unfold bind at 1.
  rewrite (isBrowser_true w B). cbn [negb].
  unfold try_catch at 1. unfold bind at 1.
  destruct (probe_returns w B) as (b & w1 & Hp).
  rewrite Hp.
  destruct b; unfold bind, localStorage_removeItem, memoryStorage_delete,
    ret; simpl; eauto.
Qed.

Lemma clear_returns (w : World V) :
  window = Some GetterStorage ->
  exists w', clear w = (Ok true, w').
Proof.
  intros B. unfold Storage.clear. unfold bind at 1.
  rewrite (isBrowser_true w B). cbn [negb].
  unfold try_catch at 1. unfold bind at 1.
  destruct (probe_returns w B) as (b & w1 & Hp).
  rewrite Hp.
  destruct b; unfold bind, localStorage_clear, memoryStorage_clear,
    ret; simpl; eauto.
Qed.

(** C8.  The first half of the claim holds: in a browser, when the probe
    finds the primary store available and the write of the serialised value
    to it goes through, the value is also put into the memory map and the
    result is [true].  The second half does not: [isBrowser()] is called
    before the [try] block of every operation, so where reading
    [window.localStorage] throws, [set], [get], [remove] and [clear] throw
    to the caller and leave both stores as they were.  Where [isBrowser()]
    returns, nothing is raised; the result of [set] is then [true] in every
    browser (the memory map takes the value whatever becomes of the primary
    write) and [false] outside one, so in a browser the boolean reports no
    failure. *)
Theorem set_raises_when_storage_is_blocked (key : string) (value : V)
  (w : World V) :
  (forall ser w1 w2,
      window = Some GetterStorage ->
      JSON_stringify value = Some ser ->
      probe w = (Ok true, w1) ->
      setItem key ser w1 = (Ok tt, w2) ->
      set key value w =
        (Ok true,
         mkWorld (localStorage w2) (<[key := value]> (memoryStorage w2)))
      /\ localStorage w2 !! key = Some ser) /\
  (forall msg,
      window = Some (GetterThrows msg) ->
      set key value w = (Thrown msg, w) /\
      (forall d, get key d w = (Thrown msg, w)) /\
      remove key w = (Thrown msg, w) /\
      clear w = (Thrown msg, w)) /\
  ((forall msg, window <> Some (GetterThrows msg)) ->
      (exists w', set key value w = (Ok (has_storage window), w') /\
         (has_storage window = true ->
          memoryStorage w' !! key = Some value)) /\
      (forall d, returns (get key d) w) /\
      returns (remove key) w /\
      returns clear w).
Proof.
  split; [intros; eapply set_primary_write; eauto|].
  split.
  - intros msg B.
    destruct (blocked_throws msg w B) as (Hs & Hg).
    destruct (blocked_throws_plain msg w B) as (Hr & Hc & _).
    repeat split; auto.
  - intros N.
    destruct isBrowser_cases as [[B E]|[(B & _ & E)|(msg & B & E)]].
    + replace (has_storage window) with true by (rewrite B; reflexivity).
      split.
      { destruct (set_returns key value w B) as (w' & Hs & Hm). eauto. }
      split; [intros; apply get_returns; exact B|].
      split.
      * destruct (remove_returns key w B) as (w' & Hr).
        unfold returns. eauto.
      * destruct (clear_returns w B) as (w' & Hc). unfold returns. eauto.
    + rewrite B.
      destruct (outside_returns w (E w)) as (Hs & Hg).
      destruct (outside_returns_plain w (E w)) as (Hr & Hc & _).
      split.
      { exists w. split; [apply Hs|discriminate]. }
      unfold returns.
      split; [intros d; rewrite Hg; eauto|].
      split; [rewrite Hr; eauto|rewrite Hc; eauto].
    + destruct (N msg B).
Qed.

End AdapterFacts.

Lemma set_raises_when_storage_is_blocked_witness :
  (Storage.set (fun _ : Z => Some "15"%string)
     (Some (Storage.GetterThrows "SecurityError")) (fun _ _ _ => true)
     "timebalance-timebank" 15 (Storage.mkWorld ∅ ∅) =
   (Storage.Thrown "SecurityError", Storage.mkWorld ∅ ∅)) /\
  (Storage.set (fun _ : Z => Some "15"%string)
     (Some Storage.GetterStorage) (fun _ _ _ => true)
     "timebalance-timebank" 15 (Storage.mkWorld ∅ ∅) =
   (Storage.Ok true,
    Storage.mkWorld
      (<["timebalance-timebank"%string := "15"%string]>
         (delete "__storage_test__"%string
            (<["__storage_test__"%string := "test"%string]> ∅)))
      (<["timebalance-timebank"%string := 15]> ∅))).
Proof.
  split.
  - exact (proj1 (proj1 (proj2 (set_raises_when_storage_is_blocked
             (fun _ : Z => Some "15"%string) (fun _ => None)
             (Some (Storage.GetterThrows "SecurityError"))
             (fun _ => false) (fun _ _ _ => true)
             "timebalance-timebank" 15 (Storage.mkWorld ∅ ∅)))
           "SecurityError"%string eq_refl)).
  - exact (proj1 (proj1 (set_raises_when_storage_is_blocked
             (fun _ : Z => Some "15"%string) (fun _ => None)
             (Some Storage.GetterStorage)
             (fun _ => false) (fun _ _ _ => true)
             "timebalance-timebank" 15 (Storage.mkWorld ∅ ∅))
           "15"%string
           (Storage.mkWorld
              (delete "__storage_test__"%string
                 (<["__storage_test__"%string := "test"%string]> ∅)) ∅)
           (Storage.mkWorld
              (<["timebalance-timebank"%string := "15"%string]>
                 (delete "__storage_test__"%string
                    (<["__storage_test__"%string := "test"%string]> ∅))) ∅)
           eq_refl eq_refl eq_refl eq_refl)).
Defined.

(* ===================================================================== *)
(** * The persistence adapter: how the operations compose                *)
(* ===================================================================== *)

Section AdapterLaws.

Import Storage.

Context {V : Type}.
Variable JSON_stringify : V -> option string.
Variable JSON_parse : string -> option V.
Variable window : option LocalStorageGetter.
Variable is_undefined : V -> bool.
Variable setItem_ok : gmap string string -> string -> string -> bool.

Local Abbreviation set := (Storage.set JSON_stringify window setItem_ok).
Local Abbreviation get :=
  (Storage.get JSON_parse window is_undefined setItem_ok).
Local Abbreviation remove := (Storage.remove window setItem_ok).
Local Abbreviation clear := (Storage.clear window setItem_ok).
Local Abbreviation keys := (Storage.keys window setItem_ok).
Local Abbreviation probe := (Storage.isStorageAvailable window setItem_ok).
Local Abbreviation isAvailable := (Storage.isAvailable window setItem_ok).
Local Abbreviation getStorageType :=
  (Storage.getStorageType window setItem_ok).

Lemma probe_true (w : World V) :
  window = Some GetterStorage ->
  setItem_ok (localStorage w) testKey "test" = true ->
  probe w =
    (Ok true, mkWorld (delete testKey (localStorage w)) (memoryStorage w)).
Proof.
  intros B H.
  unfold isStorageAvailable. unfold bind at 1.
  rewrite (isBrowser_true window w B). cbn [negb].
  unfold try_catch, bind, ret, localStorage_setItem,
    localStorage_removeItem.
  simpl. fold testKey. rewrite H. simpl.
  rewrite delete_insert_eq. reflexivity.
Qed.

Lemma probe_false (w : World V) :
  window = Some GetterStorage ->
  setItem_ok (localStorage w) testKey "test" = false ->
  probe w = (Ok false, w).
Proof.
  intros B H.
  unfold isStorageAvailable. unfold bind at 1.
  rewrite (isBrowser_true window w B). cbn [negb].
  unfold try_catch, bind, ret, localStorage_setItem,
    localStorage_removeItem.
  simpl. fold testKey. rewrite H. reflexivity.
Qed.

(** [get] when the probe goes through: the item of the primary store is
    read, after the probe has removed its sentinel. *)
Lemma get_available (key : string) (d : V) (w : World V) :
  window = Some GetterStorage ->
  setItem_ok (localStorage w) testKey "test" = true ->
  get key d w =
    (Ok (decode_item JSON_parse is_undefined d (memoryStorage w !! key)
           (delete testKey (localStorage w) !! key)),
     mkWorld (delete testKey (localStorage w)) (memoryStorage w)).
Proof.
  intros B H. unfold Storage.get.
  unfold bind at 1. rewrite (isBrowser_true window w B). cbn [negb].
  unfold try_catch at 1. unfold bind at 1. rewrite (probe_true w B H).
  unfold bind, localStorage_getItem, parse, ret, throw, try_catch,
    memoryStorage_get, decode_item. simpl.
  destruct (delete testKey (localStorage w) !! key) as [str|]; [|reflexivity].
  destruct (Js.truthy_string str); [|reflexivity].
  destruct (JSON_parse str); reflexivity.
Qed.

(** [get] when the probe fails: the memory map is read. *)
Lemma get_unavailable (key : string) (d : V) (w : World V) :
  window = Some GetterStorage ->
  setItem_ok (localStorage w) testKey "test" = false ->
  get key d w = (Ok (defined_or is_undefined (memoryStorage w !! key) d), w).
Proof.
  intros B H. unfold Storage.get.
  unfold bind at 1. rewrite (isBrowser_true window w B). cbn [negb].
  unfold try_catch at 1. unfold bind at 1. rewrite (probe_false w B H).
  reflexivity.
Qed.

(** [set] when the probe goes through: the write to the primary store is
    tried on the store without the sentinel; the memory map takes the value
    whether that write goes through or throws. *)
Lemma set_available (key : string) (value : V) (ser : string) (w : World V) :
  window = Some GetterStorage ->
  JSON_stringify value = Some ser ->
  setItem_ok (localStorage w) testKey "test" = true ->
  set key value w =
    (Ok true,
     mkWorld
       (if setItem_ok (delete testKey (localStorage w)) key ser
        then <[key := ser]> (delete testKey (localStorage w))
        else delete testKey (localStorage w))
       (<[key := value]> (memoryStorage w))).
Proof.
  intros B S H. unfold Storage.set.
  unfold bind at 1. rewrite (isBrowser_true window w B). cbn [negb].
  unfold try_catch at 1. unfold bind at 1. unfold stringify. rewrite S.
  cbn [ret]. unfold bind at 1. rewrite (probe_true w B H).
  unfold bind, localStorage_setItem, memoryStorage_set, ret, try_catch.
  cbn [localStorage memoryStorage].
  destruct (setItem_ok _ key ser); reflexivity.
Qed.

(** [set] when the value does not serialise or the probe fails: only the
    memory map changes. *)
Lemma set_unavailable (key : string) (value : V) (w : World V) :
  window = Some GetterStorage ->
  JSON_stringify value = None \/
  setItem_ok (localStorage w) testKey "test" = false ->
  set key value w =
    (Ok true, mkWorld (localStorage w) (<[key := value]> (memoryStorage w))).
Proof.
  intros B H. unfold Storage.set.
  unfold bind at 1. rewrite (isBrowser_true window w B). cbn [negb].
  unfold try_catch at 1. unfold bind at 1. unfold stringify.
  destruct (JSON_stringify value) as [ser|] eqn:S.
  - destruct H as [H|H]; [discriminate|].
    cbn [ret]. unfold bind at 1. rewrite (probe_false w B H).
    reflexivity.
  - reflexivity.
Qed.

Lemma remove_available (key : string) (w : World V) :
  window = Some GetterStorage ->
  setItem_ok (localStorage w) testKey "test" = true ->
  remove key w =
    (Ok true,
     mkWorld (delete key (delete testKey (localStorage w)))
       (delete key (memoryStorage w))).
Proof.
  intros B H. unfold Storage.remove.
  unfold bind at 1. rewrite (isBrowser_true window w B). cbn [negb].
  unfold try_catch at 1. unfold bind at 1. rewrite (probe_true w B H).
  reflexivity.
Qed.

Lemma remove_unavailable (key : string) (w : World V) :
  window = Some GetterStorage ->
  setItem_ok (localStorage w) testKey "test" = false ->
  remove key w =
    (Ok true, mkWorld (localStorage w) (delete key (memoryStorage w))).
Proof.
  intros B H. unfold Storage.remove.
  unfold bind at 1. rewrite (isBrowser_true window w B). cbn [negb].
  unfold try_catch at 1. unfold bind at 1. rewrite (probe_false w B H).
  reflexivity.
Qed.

Lemma clear_available (w : World V) :
  window = Some GetterStorage ->
  setItem_ok (localStorage w) testKey "test" = true ->
  clear w = (Ok true, mkWorld ∅ ∅).
Proof.
  intros B H. unfold Storage.clear.
  unfold bind at 1. rewrite (isBrowser_true window w B). cbn [negb].
  unfold try_catch at 1. unfold bind at 1. rewrite (probe_true w B H).
  reflexivity.
Qed.

Lemma clear_unavailable (w : World V) :
  window = Some GetterStorage ->
  setItem_ok (localStorage w) testKey "test" = false ->
  clear w = (Ok true, mkWorld (localStorage w) ∅).
Proof.
  intros B H. unfold Storage.clear.
  unfold bind at 1. rewrite (isBrowser_true window w B). cbn [negb].
  unfold try_catch at 1. unfold bind at 1. rewrite (probe_false w B H).
  reflexivity.
Qed.

(** [get] on a world in which neither store holds the key. *)
Lemma get_absent (key : string) (d : V) (w : World V) :
  (forall msg, window <> Some (GetterThrows msg)) ->
  delete testKey (localStorage w) !! key = None ->
  memoryStorage w !! key = None ->
  exists w', get key d w = (Ok d, w').
Proof.
  intros N Hl Hm.
  destruct (isBrowser_cases (V:=V) window)
    as [[B E]|[(B & _ & E)|(msg & B & E)]].
  - destruct (setItem_ok (localStorage w) testKey "test") eqn:H.
    + rewrite (get_available key d w) by assumption.
      rewrite Hl. eexists. reflexivity.
    + rewrite (get_unavailable key d w) by assumption.
      rewrite Hm. eexists. reflexivity.
  - rewrite (get_outside JSON_parse window is_undefined setItem_ok key d w
               (E w)).
    eauto.
  - destruct (N msg B).
Qed.

(** X1.  Reading a key after removing it gives the default value, wherever
    [isBrowser()] returns: in a browser, whatever the primary store accepts,
    and where there is no [window] or no storage object.  Where reading
    [window.localStorage] throws, [remove] throws to the caller and leaves
    the stores as they were. *)
Theorem get_after_remove (key : string) (d : V) (w : World V) :
  match window with
  | Some (GetterThrows msg) => remove key w = (Thrown msg, w)
  | _ =>
      exists b w1 w2,
        remove key w = (Ok b, w1) /\ get key d w1 = (Ok d, w2)
  end.
Proof.
  apply by_window.
  { intros msg B.
    apply (blocked_throws_plain window setItem_ok msg w B). }
  intros N.
  destruct (isBrowser_cases (V:=V) window)
    as [[B E]|[(B & _ & E)|(msg & B & E)]].
  - destruct (setItem_ok (localStorage w) testKey "test") eqn:H.
    + rewrite (remove_available key w) by assumption.
      destruct (get_absent key d
                  (mkWorld (delete key (delete testKey (localStorage w)))
                     (delete key (memoryStorage w)))) as [w2 Hg].
      * exact N.
      * cbn [localStorage]. rewrite lookup_delete. case_decide; [reflexivity|].
        apply lookup_delete_eq.
      * apply lookup_delete_eq.
      * eauto.
    + rewrite (remove_unavailable key w) by assumption.
      do 3 eexists. split; [reflexivity|].
      rewrite get_unavailable by assumption.
      cbn [memoryStorage]. rewrite lookup_delete_eq. reflexivity.
  - destruct (outside_returns_plain window setItem_ok w (E w)) as (Hr & _).
    rewrite Hr. do 3 eexists. split; [reflexivity|].
    apply get_outside, E.
  - destruct (N msg B).
Qed.

(** X2.  After [clear], every key reads as its default value, wherever
    [isBrowser()] returns.  Where reading [window.localStorage] throws,
    [clear] throws to the caller and leaves the stores as they were. *)
Theorem get_after_clear (key : string) (d : V) (w : World V) :
  match window with
  | Some (GetterThrows msg) => clear w = (Thrown msg, w)
  | _ =>
      exists b w1 w2,
        clear w = (Ok b, w1) /\ get key d w1 = (Ok d, w2)
  end.
Proof.
  apply by_window.
  { intros msg B.
    apply (blocked_throws_plain window setItem_ok msg w B). }
  intros N.
  destruct (isBrowser_cases (V:=V) window)
    as [[B E]|[(B & _ & E)|(msg & B & E)]].
  - destruct (setItem_ok (localStorage w) testKey "test") eqn:H.
    + rewrite (clear_available w) by assumption.
      destruct (get_absent key d (mkWorld ∅ ∅)) as [w2 Hg].
      * exact N.
      * cbn [localStorage]. rewrite lookup_delete. case_decide; reflexivity.
      * reflexivity.
      * eauto.
    + rewrite (clear_unavailable w) by assumption.
      do 3 eexists. split; [reflexivity|].
      rewrite get_unavailable by assumption. reflexivity.
  - destruct (outside_returns_plain window setItem_ok w (E w))
      as (_ & Hc & _).
    rewrite Hc. do 3 eexists. split; [reflexivity|].
    apply get_outside, E.
  - destruct (N msg B).
Qed.

(** X3.  While the primary store is unavailable (the probe write is
    refused), [get] after [set] reads the memory map, without any use of
    JSON to read: it returns the value written, unless that value is
    [undefined], which [get] takes for a missing entry and answers with the
    default. *)
Theorem get_after_set_memory (key : string) (value d : V) (w : World V) :
  window = Some GetterStorage ->
  setItem_ok (localStorage w) testKey "test" = false ->
  exists w1 w2,
    set key value w = (Ok true, w1) /\
    get key d w1 = (Ok (if is_undefined value then d else value), w2).
Proof.
  intros B H. rewrite (set_unavailable key value w B) by auto.
  do 2 eexists. split; [reflexivity|].
  rewrite get_unavailable by assumption.
  cbn [memoryStorage]. rewrite lookup_insert_eq. reflexivity.
Qed.

(** X4.  When the primary store takes every write, a value written with
    [set] under a key other than the sentinel, whose serialisation is not
    the empty string, is read back by [get] as what [JSON.parse] makes of
    the serialisation.  When that text does not parse, the memory map is
    the fallback: [get] returns the value itself, or the default when the
    value is [undefined]. *)
Theorem get_after_set_available (key : string) (value d : V) (ser : string)
  (w : World V) :
  window = Some GetterStorage ->
  accepts_all setItem_ok ->
  JSON_stringify value = Some ser ->
  ser <> ""%string ->
  key <> testKey ->
  exists w1 w2,
    set key value w = (Ok true, w1) /\
    get key d w1 =
      (Ok (match JSON_parse ser with
           | Some parsed => parsed
           | None => if is_undefined value then d else value
           end), w2).
Proof.
  intros B A S Hser Hkey.
  rewrite (set_available key value ser w B S) by apply A.
  rewrite A. do 2 eexists. split; [reflexivity|].
  rewrite get_available by (auto; apply A).
  cbn [localStorage memoryStorage].
  rewrite lookup_delete_ne by congruence.
  rewrite !lookup_insert_eq. unfold decode_item.
  destruct ser; [congruence|]. simpl.
  destruct (JSON_parse _); reflexivity.
Qed.

(** X5.  The key of the probe cannot be used: when the primary store takes
    every write, a value stored under ["__storage_test__"] is reported as
    written and yet reads as the default, because the probe of the next call
    removes the item. *)
Theorem sentinel_key_is_lost (value d : V) (w : World V) :
  window = Some GetterStorage ->
  accepts_all setItem_ok ->
  exists w1 w2,
    set testKey value w = (Ok true, w1) /\ get testKey d w1 = (Ok d, w2).
Proof.
  intros B A.
  assert (exists w1, set testKey value w = (Ok true, w1)) as [w1 Hs].
  { destruct (JSON_stringify value) as [ser|] eqn:S.
    - rewrite (set_available testKey value ser w B S) by apply A. eauto.
    - rewrite (set_unavailable testKey value w B) by auto. eauto. }
  exists w1. rewrite Hs.
  rewrite get_available by (auto; apply A).
  rewrite lookup_delete_eq. eexists. split; reflexivity.
Qed.

(** X6.  A write that the primary store refuses while the probe still goes
    through (a full quota) is reported as success and lands in the memory
    map only; as [get] keeps reading the primary store, a key that was not
    there before reads as the default. *)
Theorem refused_write_is_not_read_back (key : string) (value d : V)
  (ser : string) (w : World V) :
  window = Some GetterStorage ->
  (forall m, setItem_ok m testKey "test" = true) ->
  (forall m, setItem_ok m key ser = false) ->
  JSON_stringify value = Some ser ->
  localStorage w !! key = None ->
  exists w1 w2,
    set key value w = (Ok true, w1) /\
    memoryStorage w1 !! key = Some value /\
    get key d w1 = (Ok d, w2).
Proof.
  intros B Hp Hr S Hk.
  rewrite (set_available key value ser w B S) by apply Hp.
  rewrite Hr. do 2 eexists. split; [reflexivity|].
  split; [apply lookup_insert_eq|].
  rewrite get_available by (auto; apply Hp).
  cbn [localStorage memoryStorage].
  assert (delete testKey (delete testKey (localStorage w)) !! key = None)
    as ->.
  { rewrite !lookup_delete. repeat case_decide; auto. }
  reflexivity.
Qed.

(** X7.  When the primary store takes every write, [set] on one key does
    not change what [get] returns for any other key. *)
Theorem set_preserves_other_keys (key key' : string) (value d : V)
  (w : World V) :
  window = Some GetterStorage ->
  accepts_all setItem_ok ->
  key <> key' ->
  exists r w0 w1 w2,
    get key' d w = (Ok r, w0) /\
    set key value w = (Ok true, w1) /\
    get key' d w1 = (Ok r, w2).
Proof.
  intros B A Hne.
  rewrite (get_available key' d w) by (auto; apply A).
  assert (exists w1, set key value w = (Ok true, w1) /\
            memoryStorage w1 !! key' = memoryStorage w !! key' /\
            delete testKey (localStorage w1) !! key' =
              delete testKey (localStorage w) !! key') as (w1 & Hs & Hm & Hl).
  { destruct (JSON_stringify value) as [ser|] eqn:S.
    - rewrite (set_available key value ser w B S) by apply A. rewrite A.
      eexists. split; [reflexivity|]. cbn [localStorage memoryStorage].
      split; [apply lookup_insert_ne; exact Hne|].
      rewrite !lookup_delete. case_decide; [reflexivity|].
      rewrite lookup_insert_ne by exact Hne.
      rewrite lookup_delete. case_decide; congruence.
    - rewrite (set_unavailable key value w B) by auto.
      eexists. split; [reflexivity|]. cbn [localStorage memoryStorage].
      split; [apply lookup_insert_ne; exact Hne|reflexivity]. }
  do 2 eexists. exists w1. eexists.
  split; [reflexivity|]. split; [exact Hs|].
  rewrite (get_available key' d w1) by (auto; apply A).
  rewrite Hm, Hl. reflexivity.
Qed.

(** X8.  Wherever [isBrowser()] returns, [getStorageType] answers
    ["none"], ["localStorage"] or ["memory"]: ["none"] exactly where
    [isBrowser()] is false and ["localStorage"] exactly when [isAvailable]
    answers [true] on the same stores, and both leave the stores in the same
    state.  Neither call has a [try] block: where reading
    [window.localStorage] throws, both throw to the caller. *)
Theorem storage_type_agrees_with_isAvailable (w : World V) :
  match window with
  | Some (GetterThrows msg) =>
      getStorageType w = (Thrown msg, w) /\ isAvailable w = (Thrown msg, w)
  | _ =>
      exists t b w',
        getStorageType w = (Ok t, w') /\ isAvailable w = (Ok b, w') /\
        (t = "none" \/ t = "localStorage" \/ t = "memory")%string /\
        (t = "none"%string <-> has_storage window = false) /\
        (t = "localStorage"%string <-> b = true)
  end.
Proof.
  apply by_window.
  { intros msg B.
    destruct (blocked_throws_plain window setItem_ok msg w B)
      as (_ & _ & _ & _ & Ha & Ht).
    split; assumption. }
  intros N.
  destruct (isBrowser_cases (V:=V) window)
    as [[B E]|[(B & _ & E)|(msg & B & E)]].
  - replace (has_storage window) with true by (rewrite B; reflexivity).
    unfold Storage.getStorageType, Storage.isAvailable.
    unfold bind at 1 3. rewrite (E w). cbn [negb].
    destruct (setItem_ok (localStorage w) testKey "test") eqn:H.
    + unfold bind. rewrite (probe_true w B H). cbn [ret].
      do 3 eexists. repeat split; auto; try discriminate; congruence.
    + unfold bind. rewrite (probe_false w B H). cbn [ret].
      do 3 eexists. repeat split; auto; try discriminate; congruence.
  - destruct (outside_returns_plain window setItem_ok w (E w))
      as (_ & _ & _ & _ & Ha & Ht).
    rewrite Ha, Ht, B.
    do 3 eexists. repeat split; auto; discriminate.
  - destruct (N msg B).
Qed.

Lemma keys_available (w : World V) :
  window = Some GetterStorage ->
  setItem_ok (localStorage w) testKey "test" = true ->
  keys w =
    (Ok (filter (fun key => Is_true (Js.truthy_string key))
           (dom (delete testKey (localStorage w)))
         ∪ dom (memoryStorage w)),
     mkWorld (delete testKey (localStorage w)) (memoryStorage w)).
Proof.
  intros B H. unfold Storage.keys.
  unfold bind at 1. rewrite (isBrowser_true window w B). cbn [negb].
  unfold try_catch at 1. unfold bind at 1. rewrite (probe_true w B H).
  reflexivity.
Qed.

Lemma keys_unavailable (w : World V) :
  window = Some GetterStorage ->
  setItem_ok (localStorage w) testKey "test" = false ->
  keys w = (Ok (∅ ∪ dom (memoryStorage w)), w).
Proof.
  intros B H. unfold Storage.keys.
  unfold bind at 1. rewrite (isBrowser_true window w B). cbn [negb].
  unfold try_catch at 1. unfold bind at 1. rewrite (probe_false w B H).
  reflexivity.
Qed.

(** [keys] lists every key of the memory map, and nothing that neither
    store holds. *)
Lemma keys_bounds (w : World V) :
  (forall msg, window <> Some (GetterThrows msg)) ->
  exists ks w',
    keys w = (Ok ks, w') /\
    (window = Some GetterStorage -> dom (memoryStorage w) ⊆ ks) /\
    ks ⊆ dom (localStorage w) ∪ dom (memoryStorage w).
Proof.
  intros N.
  destruct (isBrowser_cases (V:=V) window)
    as [[B E]|[(B & _ & E)|(msg & B & E)]].
  - destruct (setItem_ok (localStorage w) testKey "test") eqn:H.
    + rewrite (keys_available w B H). do 2 eexists.
      split; [reflexivity|]. split; [intros _; apply union_subseteq_r|].
      intros k. rewrite !elem_of_union, elem_of_filter, !elem_of_dom.
      rewrite lookup_delete. case_decide; intros [[_ [? ?]]|?]; eauto;
        discriminate.
    + rewrite (keys_unavailable w B H). do 2 eexists.
      split; [reflexivity|].
      split; [intros _; apply union_subseteq_r|].
      apply union_least; [apply empty_subseteq|apply union_subseteq_r].
  - destruct (outside_returns_plain window setItem_ok w (E w))
      as (_ & _ & Hk & _).
    rewrite Hk. do 2 eexists.
    split; [reflexivity|].
    split; [intros B'; rewrite B' in B; discriminate|apply empty_subseteq].
  - destruct (N msg B).
Qed.

(** X9.  In a browser, a key written with [set] is listed by [keys]
    afterwards, whether the value went to the primary store or to the
    memory map only. *)
Theorem keys_after_set (key : string) (value : V) (w : World V) :
  window = Some GetterStorage ->
  exists w1 ks w2,
    set key value w = (Ok true, w1) /\ keys w1 = (Ok ks, w2) /\ key ∈ ks.
Proof.
  intros B.
  destruct (set_returns JSON_stringify window setItem_ok key value w B)
    as (w1 & Hs & Hm).
  destruct (keys_bounds w1) as (ks & w2 & Hk & Hsub & _).
  { intros msg Hmsg. rewrite Hmsg in B. discriminate. }
  exists w1, ks, w2.
  split; [exact Hs|]. split; [exact Hk|].
  apply (Hsub B). apply elem_of_dom. eauto.
Qed.

(** X10.  Wherever [isBrowser()] returns, a key is not listed by [keys]
    after [remove] of it, and no key is listed after [clear].  Where reading
    [window.localStorage] throws, [remove], [clear] and [keys] throw to the
    caller. *)
Theorem keys_after_remove_and_clear (key : string) (w : World V) :
  match window with
  | Some (GetterThrows msg) =>
      remove key w = (Thrown msg, w) /\ clear w = (Thrown msg, w) /\
      keys w = (Thrown msg, w)
  | _ =>
      (exists b w1 ks w2,
          remove key w = (Ok b, w1) /\ keys w1 = (Ok ks, w2) /\ key ∉ ks) /\
      (exists b w1 w2,
          clear w = (Ok b, w1) /\ keys w1 = (Ok ∅, w2))
  end.
Proof.
  apply by_window.
  { intros msg B.
    destruct (blocked_throws_plain window setItem_ok msg w B)
      as (Hr & Hc & Hk & _).
    repeat split; auto. }
  intros N.
  destruct (isBrowser_cases (V:=V) window)
    as [[B E]|[(B & _ & E)|(msg & B & E)]].
  - destruct (setItem_ok (localStorage w) testKey "test") eqn:H; split.
    + rewrite (remove_available key w B H).
      destruct (keys_bounds
                  (mkWorld (delete key (delete testKey (localStorage w)))
                     (delete key (memoryStorage w))) N)
        as (ks & w2 & Hk & _ & Hsub).
      do 4 eexists. split; [reflexivity|]. split; [exact Hk|].
      intros Hin. apply Hsub in Hin. cbn [localStorage memoryStorage] in Hin.
      rewrite elem_of_union, !elem_of_dom, !lookup_delete_eq in Hin.
      destruct Hin as [[? ?]|[? ?]]; discriminate.
    + rewrite (clear_available w B H).
      destruct (keys_bounds (mkWorld ∅ (∅ : gmap string V)) N)
        as (ks & w2 & Hk & _ & Hsub).
      cbn [localStorage memoryStorage] in Hsub.
      rewrite !dom_empty_L, union_empty_l_L in Hsub.
      assert (ks = ∅) as -> by (apply leibniz_equiv, equiv_empty, Hsub).
      eauto.
    + rewrite (remove_unavailable key w B H).
      do 4 eexists. split; [reflexivity|].
      split; [apply keys_unavailable; assumption|].
      cbn [memoryStorage]. rewrite elem_of_union, elem_of_dom.
      rewrite lookup_delete_eq. intros [Hin|[? ?]]; [|discriminate].
      apply not_elem_of_empty in Hin. exact Hin.
    + rewrite (clear_unavailable w B H).
      do 3 eexists. split; [reflexivity|].
      rewrite keys_unavailable by assumption. cbn [memoryStorage].
      rewrite dom_empty_L, union_empty_l_L. reflexivity.
  - destruct (outside_returns_plain window setItem_ok w (E w))
      as (Hr & Hc & Hk & _).
    split.
    + rewrite (Hr key). do 4 eexists. split; [reflexivity|].
      split; [exact Hk|]. apply not_elem_of_empty.
    + rewrite Hc. do 3 eexists. split; [reflexivity|exact Hk].
  - destruct (N msg B).
Qed.

End AdapterLaws.

Lemma get_after_set_memory_witness :
  exists w1 w2,
    Storage.set (fun _ : Z => Some "15"%string)
      (Some Storage.GetterStorage) (fun _ _ _ => false)
      "timebalance-timebank" 15 (Storage.mkWorld ∅ ∅) = (Storage.Ok true, w1) /\
    Storage.get (fun _ : string => Some 15)
      (Some Storage.GetterStorage) (fun _ => false) (fun _ _ _ => false)
      "timebalance-timebank" 0 w1 = (Storage.Ok 15, w2).
Proof.
  exact (get_after_set_memory (fun _ : Z => Some "15"%string)
           (fun _ : string => Some 15)
           (Some Storage.GetterStorage) (fun _ => false) (fun _ _ _ => false)
           "timebalance-timebank" 15 0 (Storage.mkWorld ∅ ∅)
           eq_refl eq_refl).
Defined.

Lemma get_after_set_available_witness :
  exists w1 w2,
    Storage.set (fun _ : Z => Some "15"%string)
      (Some Storage.GetterStorage) (fun _ _ _ => true)
      "timebalance-timebank" 15 (Storage.mkWorld ∅ ∅) = (Storage.Ok true, w1) /\
    Storage.get (fun _ : string => Some 15)
      (Some Storage.GetterStorage) (fun _ => false) (fun _ _ _ => true)
      "timebalance-timebank" 0 w1 = (Storage.Ok 15, w2).
Proof.
  apply (get_after_set_available (fun _ : Z => Some "15"%string)
           (fun _ : string => Some 15)
           (Some Storage.GetterStorage) (fun _ => false) (fun _ _ _ => true)
           "timebalance-timebank" 15 0 "15" (Storage.mkWorld ∅ ∅)).
  - reflexivity.
  - intros m k v. reflexivity.
  - reflexivity.
  - discriminate.
  - discriminate.
Defined.

Lemma sentinel_key_is_lost_witness :
  exists w1 w2,
    Storage.set (fun _ : Z => Some "15"%string)
      (Some Storage.GetterStorage) (fun _ _ _ => true)
      testKey 15 (Storage.mkWorld ∅ ∅) = (Storage.Ok true, w1) /\
    Storage.get (fun _ : string => Some 15)
      (Some Storage.GetterStorage) (fun _ => false) (fun _ _ _ => true)
      testKey 0 w1 = (Storage.Ok 0, w2).
Proof.
  apply (sentinel_key_is_lost (fun _ : Z => Some "15"%string)
           (fun _ : string => Some 15)
           (Some Storage.GetterStorage) (fun _ => false) (fun _ _ _ => true)
           15 0 (Storage.mkWorld ∅ ∅)).
  - reflexivity.
  - intros m k v. reflexivity.
Defined.

Lemma refused_write_is_not_read_back_witness :
  exists w1 w2,
    Storage.set (fun _ : Z => Some "15"%string)
      (Some Storage.GetterStorage)
      (fun _ k _ => String.eqb k testKey)
      "timebalance-timebank" 15 (Storage.mkWorld ∅ ∅) = (Storage.Ok true, w1) /\
    Storage.memoryStorage w1 !! "timebalance-timebank"%string = Some 15 /\
    Storage.get (fun _ : string => Some 15)
      (Some Storage.GetterStorage) (fun _ => false)
      (fun _ k _ => String.eqb k testKey)
      "timebalance-timebank" 0 w1 = (Storage.Ok 0, w2).
Proof.
  apply (refused_write_is_not_read_back (fun _ : Z => Some "15"%string)
           (fun _ : string => Some 15)
           (Some Storage.GetterStorage) (fun _ => false)
           (fun _ k _ => String.eqb k testKey)
           "timebalance-timebank" 15 0 "15" (Storage.mkWorld ∅ ∅)).
  - reflexivity.
  - intros m. reflexivity.
  - intros m. reflexivity.
  - reflexivity.
  - reflexivity.
Defined.

Lemma set_preserves_other_keys_witness :
  exists r w0 w1 w2,
    Storage.get (fun _ : string => Some 15)
      (Some Storage.GetterStorage) (fun _ => false) (fun _ _ _ => true)
      "timebalance-notes" 0 (Storage.mkWorld ∅ ∅) = (Storage.Ok r, w0) /\
    Storage.set (fun _ : Z => Some "15"%string)
      (Some Storage.GetterStorage) (fun _ _ _ => true)
      "timebalance-timebank" 15 (Storage.mkWorld ∅ ∅) = (Storage.Ok true, w1) /\
    Storage.get (fun _ : string => Some 15)
      (Some Storage.GetterStorage) (fun _ => false) (fun _ _ _ => true)
      "timebalance-notes" 0 w1 = (Storage.Ok r, w2).
Proof.
  apply (set_preserves_other_keys (fun _ : Z => Some "15"%string)
           (fun _ : string => Some 15)
           (Some Storage.GetterStorage) (fun _ => false) (fun _ _ _ => true)
           "timebalance-timebank" "timebalance-notes" 15 0
           (Storage.mkWorld ∅ ∅)).
  - reflexivity.
  - intros m k v. reflexivity.
  - discriminate.
Defined.

Lemma keys_after_set_witness :
  exists w1 ks w2,
    Storage.set (fun _ : Z => Some "15"%string)
      (Some Storage.GetterStorage) (fun _ _ _ => false)
      "timebalance-timebank" 15 (Storage.mkWorld ∅ ∅) = (Storage.Ok true, w1) /\
    Storage.keys (Some Storage.GetterStorage) (fun _ _ _ => false) w1 = (Storage.Ok ks, w2) /\
    "timebalance-timebank"%string ∈ ks.
Proof.
  exact (keys_after_set (fun _ : Z => Some "15"%string)
           (Some Storage.GetterStorage)
           (fun _ _ _ => false) "timebalance-timebank" 15
           (Storage.mkWorld ∅ ∅) eq_refl).
Defined.

(* ===================================================================== *)
(** * What changes a balance and what does not                           *)
(* ===================================================================== *)

Lemma globalBalance_eq_spec (s : AppState) :
  globalBalance s = spec_global_balance (outcomes s) (timeBank s).
Proof.
  unfold globalBalance. rewrite globalBalance_fold.
  unfold spec_global_balance. rewrite Z.add_0_l. f_equal.
  apply Zsum_ext, balance_spec.
Qed.

Lemma totalEstimatedToday_eq (s : AppState) :
  totalEstimatedToday s =
  Zsum (map (fun o => Zsum (map estimatedMin (steps o))) (outcomes s)).
Proof.
  unfold totalEstimatedToday.
  rewrite (fold_left_add_acc (fun o => sum_by estimatedMin (steps o))).
  rewrite Z.add_0_l. apply Zsum_ext. intros o. apply sum_by_Zsum.
Qed.

(** A sum over all steps is not changed by an update of the steps of some
    outcomes that keeps the summand of every step. *)
Lemma Zsum_steps_frame (h : Step -> Z) (f : Outcome -> bool)
  (g : Step -> Step) (os : list Outcome) :
  (forall st, h (g st) = h st) ->
  Zsum (map (fun o => Zsum (map h (steps o)))
          (map (fun outcome =>
                  if f outcome then
                    mkOutcome (outcome_id outcome) (outcome_title outcome)
                      (map g (steps outcome))
                  else outcome) os))
  = Zsum (map (fun o => Zsum (map h (steps o))) os).
Proof.
  intros Hg. rewrite map_map. apply Zsum_ext. intros o.
  destruct (f o); [|reflexivity]. cbn [steps].
  rewrite map_map. apply Zsum_ext. exact Hg.
Qed.

Lemma pauseTimer_globalBalance (s : AppState) :
  globalBalance (pauseTimer s) = globalBalance s.
Proof.
  rewrite !globalBalance_eq_spec. unfold pauseTimer.
  destruct (activeTimer s) as [a|]; [|reflexivity].
  cbn [outcomes timeBank setOutcomes setTimerSeconds setActiveTimer].
  unfold spec_global_balance. f_equal.
  apply (Zsum_steps_frame spec_step_balance
           (fun outcome => outcome_id outcome =? outcomeId a)
           (fun step => if step_id step =? stepId a then _ else step)).
  intros st. destruct (step_id st =? stepId a); reflexivity.
Qed.

Lemma pauseTimer_totalEstimatedToday (s : AppState) :
  totalEstimatedToday (pauseTimer s) = totalEstimatedToday s.
Proof.
  rewrite !totalEstimatedToday_eq. unfold pauseTimer.
  destruct (activeTimer s) as [a|]; [|reflexivity].
  cbn [outcomes setOutcomes setTimerSeconds setActiveTimer].
  apply (Zsum_steps_frame estimatedMin
           (fun outcome => outcome_id outcome =? outcomeId a)
           (fun step => if step_id step =? stepId a then _ else step)).
  intros st. destruct (step_id st =? stepId a); reflexivity.
Qed.

Lemma markStepDone_totalEstimatedToday (s : AppState) :
  totalEstimatedToday (markStepDone s) = totalEstimatedToday s.
Proof.
  rewrite !totalEstimatedToday_eq. unfold markStepDone.
  destruct (activeTimer s) as [a|]; [|reflexivity].
  cbn [outcomes setOutcomes setTimerSeconds setActiveTimer showNotification
       setNotification].
  apply (Zsum_steps_frame estimatedMin
           (fun outcome => outcome_id outcome =? outcomeId a)
           (fun step => if step_id step =? stepId a then _ else step)).
  intros st. destruct (step_id st =? stepId a); reflexivity.
Qed.

(** X11.  Pausing never changes a balance: the global balance and the
    planned total are the same before and after [pauseTimer], whatever the
    timer points at.  Completing a step leaves the planned total as it is,
    and a borrow that goes through lowers the global balance by exactly 10. *)
Theorem pausing_keeps_balances (s : AppState) :
  globalBalance (pauseTimer s) = globalBalance s /\
  totalEstimatedToday (pauseTimer s) = totalEstimatedToday s /\
  totalEstimatedToday (markStepDone s) = totalEstimatedToday s /\
  (is_Some (activeTimer s) /\ 10 <= timeBank s ->
     globalBalance (addTime s) = globalBalance s - 10).
Proof.
  split; [apply pauseTimer_globalBalance|].
  split; [apply pauseTimer_totalEstimatedToday|].
  split; [apply markStepDone_totalEstimatedToday|].
  intros [Ha Hb]. rewrite !globalBalance_eq_spec. unfold addTime.
  rewrite (bool_decide_eq_true_2 _ Ha).
  replace (timeBank s >=? 10) with true
    by (symmetry; apply Z.geb_le; lia).
  cbn [andb outcomes timeBank showNotification setNotification
       setTimerSeconds setTimeBank].
  unfold spec_global_balance. lia.
Qed.

Lemma pausing_keeps_balances_witness :
  globalBalance (addTime (setTimeBank (fun _ => 15) example_running)) =
  globalBalance (setTimeBank (fun _ => 15) example_running) - 10.
Proof.
  apply (pausing_keeps_balances (setTimeBank (fun _ => 15) example_running)).
  split; [eexists; reflexivity | simpl; lia].
Defined.

(** X12.  Saving an edited title changes titles only.  [saveOutcomeEdit]
    leaves every step as it is; both it and [saveStepEdit] leave the global
    balance, the planned total, the timer and the time bank as they are.  A
    value that is blank is ignored: the state, the edit in progress
    included, stays as it is. *)
Theorem title_edits_keep_accounting (u : UiState) :
  (forall i j,
      step_at (outcomes (app (saveOutcomeEdit u))) i j =
      step_at (outcomes (app u)) i j) /\
  globalBalance (app (saveOutcomeEdit u)) = globalBalance (app u) /\
  totalEstimatedToday (app (saveOutcomeEdit u)) = totalEstimatedToday (app u) /\
  (activeTimer (app (saveOutcomeEdit u)) = activeTimer (app u) /\
   timerSeconds (app (saveOutcomeEdit u)) = timerSeconds (app u) /\
   timeBank (app (saveOutcomeEdit u)) = timeBank (app u)) /\
  (forall u', saveStepEdit u = Some u' ->
      globalBalance (app u') = globalBalance (app u) /\
      totalEstimatedToday (app u') = totalEstimatedToday (app u) /\
      activeTimer (app u') = activeTimer (app u) /\
      timerSeconds (app u') = timerSeconds (app u) /\
      timeBank (app u') = timeBank (app u) /\
      forall i j o st,
        outcomes (app u) !! i = Some o -> steps o !! j = Some st ->
        exists st',
          step_at (outcomes (app u')) i j = Some st' /\
          step_id st' = step_id st /\
          estimatedMin st' = estimatedMin st /\
          actualMin st' = actualMin st /\
          completed st' = completed st /\
          timeSpent st' = timeSpent st) /\
  (Js.trim (editValue u) = ""%string ->
      saveOutcomeEdit u = u /\ saveStepEdit u = Some u).
Proof.
  assert (Hmap : outcomes (app (saveOutcomeEdit u)) =
                 map (fun outcome =>
                        if id_is (outcome_id outcome) (editingOutcome u) then
                          mkOutcome (outcome_id outcome)
                            (Js.trim (editValue u)) (steps outcome)
                        else outcome) (outcomes (app u))
                 \/ saveOutcomeEdit u = u).
  { unfold saveOutcomeEdit. destruct (negb _); [right|left]; reflexivity. }
  assert (Hsteps : map steps (outcomes (app (saveOutcomeEdit u))) =
                   map steps (outcomes (app u))).
  { destruct Hmap as [-> | ->]; [|reflexivity].
    rewrite map_map. apply map_ext. intros o.
    destruct (id_is _ _); reflexivity. }
  split; [|split; [|split; [|split; [|split]]]].
  - intros i j. unfold step_at.
    pose proof (f_equal (fun l => l !! i) Hsteps) as E. cbn beta in E.
    rewrite !lookup_map in E.
    destruct (outcomes (app (saveOutcomeEdit u)) !! i) as [o1|];
      destruct (outcomes (app u) !! i) as [o2|]; simpl in E;
      congruence.
  - rewrite !globalBalance_eq_spec. unfold spec_global_balance.
    f_equal.
    + unfold spec_outcome_balance.
      rewrite <- (map_map steps (fun l => Zsum (map spec_step_balance l))).
      rewrite Hsteps, map_map. reflexivity.
    + destruct Hmap as [_ | ->]; [|reflexivity].
      unfold saveOutcomeEdit. destruct (negb _); reflexivity.
  - rewrite !totalEstimatedToday_eq.
    rewrite <- (map_map steps (fun l => Zsum (map estimatedMin l))).
    rewrite Hsteps, map_map. reflexivity.
  - unfold saveOutcomeEdit. destruct (negb _); repeat split.
  - intros u' Hu'.
    assert (Hsame : forall i j o st,
               outcomes (app u) !! i = Some o -> steps o !! j = Some st ->
               step_at (outcomes (app u)) i j = Some st).
    { intros i j o st Ho Hst. unfold step_at. rewrite Ho. exact Hst. }
    unfold saveStepEdit in Hu'.
    destruct (negb _);
      [injection Hu' as <-; repeat split; auto; intros i j o st Ho Hst;
       exists st; rewrite (Hsame i j o st Ho Hst); repeat split|].
    destruct (editingStep u) as [e|].
    + injection Hu' as <-.
      cbn [app setEditValue setEditingStep setApp activeTimer timerSeconds
           timeBank setOutcomes].
      rewrite !globalBalance_eq_spec, !totalEstimatedToday_eq.
      cbn [outcomes timeBank].
      repeat split.
      * unfold spec_global_balance. f_equal.
        apply (Zsum_steps_frame spec_step_balance
                 (fun outcome => outcome_id outcome =? outcomeId e)
                 (fun step => if step_id step =? stepId e then _ else step)).
        intros st. destruct (step_id st =? stepId e); reflexivity.
      * apply (Zsum_steps_frame estimatedMin
                 (fun outcome => outcome_id outcome =? outcomeId e)
                 (fun step => if step_id step =? stepId e then _ else step)).
        intros st. destruct (step_id st =? stepId e); reflexivity.
      * intros i j o st Ho Hst. cbn [outcomes setOutcomes].
        rewrite (step_at_map_map
                   (fun outcome => outcome_id outcome =? outcomeId e)
                   (fun step =>
                      if step_id step =? stepId e then
                        mkStep (step_id step) (Js.trim (editValue u))
                          (estimatedMin step) (actualMin step)
                          (completed step) (timeSpent step)
                      else step)
                   _ i j o st Ho Hst).
        eexists. split; [reflexivity|].
        destruct (outcome_id o =? outcomeId e); [|auto].
        destruct (step_id st =? stepId e); auto.
    + destruct (outcomes (app u)) eqn:Eo; [|discriminate].
      injection Hu' as <-. repeat split; auto.
      intros i j o st Ho. rewrite lookup_nil in Ho. discriminate.
  - intros E. unfold saveOutcomeEdit, saveStepEdit. rewrite E. auto.
Qed.

Lemma title_edits_keep_accounting_witness :
  globalBalance (app (setEditValue ""
     (setEditingStep None
        (setApp (setOutcomes (fun _ =>
           [mkOutcome 1 "Write" [mkStep 1 "Outline" 10 None false 5;
                                 mkStep 2 "Edit" 20 None false 0]]))
           example_editing))))
  = globalBalance (app example_editing).
Proof.
  apply (title_edits_keep_accounting example_editing).
  reflexivity.
Defined.

Lemma Zsum_ext_lookup {A} (f f' : A -> Z) (l : list A) :
  (forall k y, l !! k = Some y -> f' y = f y) ->
  Zsum (map f' l) = Zsum (map f l).
Proof.
  induction l as [|x l IH]; intros H; simpl; [reflexivity|].
  rewrite (H 0%nat x eq_refl). f_equal.
  apply IH. intros k y Hk. apply (H (S k) y Hk).
Qed.

(** A sum whose summand changes at one position only. *)
Lemma Zsum_map_update {A} (f f' : A -> Z) (l : list A) (i : nat) (x : A) :
  l !! i = Some x ->
  (forall k y, k <> i -> l !! k = Some y -> f' y = f y) ->
  Zsum (map f' l) = Zsum (map f l) + f' x - f x.
Proof.
  revert i. induction l as [|z l IH]; intros [|i] Hi H;
    try discriminate; simpl in *.
  - injection Hi as ->.
    rewrite (Zsum_ext_lookup f f' l); [lia|].
    intros k y Hk. apply (H (S k) y); [lia|exact Hk].
  - rewrite (H 0%nat z) by (auto; lia).
    rewrite (IH i Hi); [lia|].
    intros k y Hne Hk. apply (H (S k) y); [lia|exact Hk].
Qed.

Lemma NoDup_map_lookup_ne {A} (f : A -> Z) (l : list A) (i k : nat)
  (x y : A) :
  NoDup (map f l) -> l !! i = Some x -> l !! k = Some y -> k <> i ->
  f y <> f x.
Proof.
  intros Hnd Hi Hk Hne E. apply Hne.
  apply (NoDup_lookup (map f l) k i (f x) Hnd).
  - rewrite lookup_map, Hk. simpl. congruence.
  - rewrite lookup_map, Hi. reflexivity.
Qed.

(** With distinct ids, completing the step the timer names changes the
    global balance by what that step contributes afterwards minus what it
    contributed before. *)
Lemma markStepDone_globalBalance (s : AppState) (a : Timer) (i j : nat)
  (o : Outcome) (st : Step) :
  ids_unique (outcomes s) ->
  activeTimer s = Some a ->
  outcomes s !! i = Some o -> steps o !! j = Some st ->
  targets a o st = true ->
  globalBalance (markStepDone s) =
    globalBalance s
    + spec_step_balance (finished (timerSeconds s) st)
    - spec_step_balance st.
Proof.
  intros [Hos Hsts] Ha Ho Hst Ht.
  apply andb_true_iff in Ht as [Hoid Hsid].
  apply Z.eqb_eq in Hoid, Hsid.
  rewrite !globalBalance_eq_spec. unfold markStepDone. rewrite Ha.
  cbn [outcomes timeBank setOutcomes setTimerSeconds setActiveTimer
       showNotification setNotification].
  unfold spec_global_balance. rewrite map_map.
  rewrite (Zsum_map_update spec_outcome_balance _ (outcomes s) i o Ho).
  - cbn beta. rewrite Hoid, Z.eqb_refl.
    unfold spec_outcome_balance. cbn [steps]. rewrite map_map.
    rewrite (Zsum_map_update spec_step_balance _ (steps o) j st Hst).
    + cbn beta. rewrite Hsid, Z.eqb_refl.
      rewrite or_number_Some_0.
      unfold spec_step_balance, finished.
      cbn [completed estimatedMin actualMin]. lia.
    + intros k y Hne Hk. cbn beta.
      assert (step_id y <> step_id st) as Hid.
      { rewrite Forall_forall in Hsts.
        apply (NoDup_map_lookup_ne step_id (steps o) j k st y); auto.
        apply Hsts. apply list_elem_of_lookup. eauto. }
      replace (step_id y =? stepId a) with false; [reflexivity|].
      symmetry. apply Z.eqb_neq. congruence.
  - intros k y Hne Hk. cbn beta.
    assert (outcome_id y <> outcome_id o) as Hid
      by (apply (NoDup_map_lookup_ne outcome_id (outcomes s) i k o y); auto).
    replace (outcome_id y =? outcomeId a) with false; [reflexivity|].
    symmetry. apply Z.eqb_neq. congruence.
Qed.

(** X13.  With distinct ids, completing the step the timer names, when that
    step is not completed yet, moves the global balance by its estimate
    minus its actual minutes, the latter being the minutes spent so far plus
    the ceiling of the elapsed seconds over 60. *)
Theorem markStepDone_moves_balance (s : AppState) (a : Timer) (i j : nat)
  (o : Outcome) (st : Step) :
  ids_unique (outcomes s) ->
  activeTimer s = Some a ->
  outcomes s !! i = Some o -> steps o !! j = Some st ->
  targets a o st = true ->
  completed st = false ->
  globalBalance (markStepDone s) =
    globalBalance s + estimatedMin st
    - (timeSpent st + Js.ceil_div (timerSeconds s) 60).
Proof.
  intros Hu Ha Ho Hst Ht Hc.
  rewrite (markStepDone_globalBalance s a i j o st Hu Ha Ho Hst Ht).
  unfold spec_step_balance, finished. rewrite Hc. simpl. lia.
Qed.

Lemma ceil_div_add_600 (sec : Z) :
  Js.ceil_div (sec + 600) 60 = Js.ceil_div sec 60 + 10.
Proof.
  unfold Js.ceil_div.
  replace (- (sec + 600)) with (- sec + (-10) * 60) by lia.
  rewrite Z.div_add by lia. lia.
Qed.

(** X14.  Borrowed time is paid twice.  With distinct ids, a borrow that
    goes through followed by the completion of the running step leaves the
    global balance 20 minutes below what the completion alone gives: 10 are
    taken from the bank and the 600 seconds added to the timer count as 10
    more actual minutes of the step. *)
Theorem borrow_then_complete_costs_twenty (s : AppState) (a : Timer)
  (i j : nat) (o : Outcome) (st : Step) :
  ids_unique (outcomes s) ->
  activeTimer s = Some a ->
  10 <= timeBank s ->
  outcomes s !! i = Some o -> steps o !! j = Some st ->
  targets a o st = true ->
  globalBalance (markStepDone (addTime s)) =
    globalBalance (markStepDone s) - 20.
Proof.
  intros Hu Ha Hb Ho Hst Ht.
  assert (addTime s =
          showNotification "Added 10 minutes from time bank" NSuccess
            (setTimerSeconds (fun prev => prev + 600)
               (setTimeBank (fun prev => prev - 10) s))) as E.
  { unfold addTime. rewrite Ha.
    replace (timeBank s >=? 10) with true
      by (symmetry; apply Z.geb_le; lia).
    reflexivity. }
  rewrite (markStepDone_globalBalance s a i j o st Hu Ha Ho Hst Ht).
  rewrite (markStepDone_globalBalance (addTime s) a i j o st);
    rewrite ?E; auto.
  cbn [timerSeconds showNotification setNotification setTimerSeconds
       setTimeBank].
  rewrite !globalBalance_eq_spec.
  cbn [outcomes timeBank showNotification setNotification setTimerSeconds
       setTimeBank].
  unfold spec_global_balance, spec_step_balance, finished.
  cbn [completed estimatedMin actualMin Js.to_number].
  rewrite ceil_div_add_600. lia.
Qed.

(** The running example, with 15 minutes in the bank. *)
Lemma borrow_then_complete_costs_twenty_witness :
  globalBalance (markStepDone (addTime (setTimeBank (fun _ => 15) example_running)))
  = globalBalance (markStepDone (setTimeBank (fun _ => 15) example_running)) - 20.
Proof.
  apply (borrow_then_complete_costs_twenty
           (setTimeBank (fun _ => 15) example_running) (mkTimer 1 1)
           0%nat 0%nat
           (mkOutcome 1 "Write" [mkStep 1 "Draft" 10 None false 5;
                                 mkStep 2 "Edit" 20 None false 0])
           (mkStep 1 "Draft" 10 None false 5)).
  - split.
    + repeat constructor. simpl. intros H. inversion H.
    + repeat constructor; simpl.
      * intros H. apply list_elem_of_In in H. simpl in H.
        destruct H as [H|[]]. discriminate H.
      * intros H. inversion H.
  - reflexivity.
  - simpl. lia.
  - reflexivity.
  - reflexivity.
  - reflexivity.
Defined.

Lemma markStepDone_moves_balance_witness :
  globalBalance (markStepDone example_running) =
  globalBalance example_running + 10 - (5 + Js.ceil_div 125 60).
Proof.
  apply (markStepDone_moves_balance example_running (mkTimer 1 1)
           0%nat 0%nat
           (mkOutcome 1 "Write" [mkStep 1 "Draft" 10 None false 5;
                                 mkStep 2 "Edit" 20 None false 0])
           (mkStep 1 "Draft" 10 None false 5)).
  - split.
    + repeat constructor. simpl. intros H. inversion H.
    + repeat constructor; simpl.
      * intros H. apply list_elem_of_In in H. simpl in H.
        destruct H as [H|[]]. discriminate H.
      * intros H. inversion H.
  - reflexivity.
  - reflexivity.
  - reflexivity.
  - reflexivity.
  - reflexivity.
Defined.

(* ===================================================================== *)
(** * Work sessions                                                      *)
(* ===================================================================== *)

Lemma ticks_running (n : nat) (s : AppState) (a : Timer) :
  activeTimer s = Some a ->
  timerSeconds (ticks n s) = timerSeconds s + Z.of_nat n /\
  activeTimer (ticks n s) = Some a /\
  outcomes (ticks n s) = outcomes s.
Proof.
  intros Ha. induction n as [|n (IHt & IHa & IHo)].
  - simpl. repeat split; [lia|exact Ha].
  - change (ticks (S n) s) with (tick (ticks n s)).
    unfold tick. rewrite IHa.
    cbn [timerSeconds activeTimer outcomes setTimerSeconds].
    rewrite IHt. repeat split; [lia|exact IHa|exact IHo].
Qed.

Lemma pauseTimer_lookup (s : AppState) (a : Timer) (i : nat) (o : Outcome) :
  activeTimer s = Some a ->
  outcomes s !! i = Some o ->
  exists o',
    outcomes (pauseTimer s) !! i = Some o' /\
    outcome_id o' = outcome_id o /\
    (forall j st, steps o !! j = Some st ->
       steps o' !! j =
         Some (if targets a o st then paused (timerSeconds s) st else st)).
Proof.
  intros Ha Ho. unfold pauseTimer. rewrite Ha.
  cbn [outcomes setOutcomes setTimerSeconds setActiveTimer].
  rewrite lookup_map, Ho. cbn [option_map]. eexists. split; [reflexivity|].
  unfold targets, paused.
  destruct (outcome_id o =? outcomeId a); cbn [andb outcome_id steps].
  - split; [reflexivity|]. intros j st Hst.
    rewrite lookup_map, Hst. cbn [option_map].
    destruct (step_id st =? stepId a); [|reflexivity].
    rewrite or_number_Some_0. reflexivity.
  - split; [reflexivity|]. intros j st Hst. exact Hst.
Qed.

Lemma session_lookup (n : nat) (oid sid : Z) (s : AppState) (i : nat)
  (o : Outcome) :
  outcomes s !! i = Some o ->
  exists o',
    outcomes (session n oid sid s) !! i = Some o' /\
    outcome_id o' = outcome_id o /\
    (forall j st, steps o !! j = Some st ->
       steps o' !! j =
         Some (if targets (mkTimer oid sid) o st
               then paused (Z.of_nat n) st else st)).
Proof.
  intros Ho. unfold session.
  destruct (ticks_running n (startTimer oid sid s) (mkTimer oid sid) eq_refl)
    as (Ht & Ha & Hos).
  cbn [timerSeconds startTimer setTimerSeconds setActiveTimer] in Ht.
  rewrite Z.add_0_l in Ht.
  rewrite <- Ht.
  apply pauseTimer_lookup; [exact Ha|]. rewrite Hos. exact Ho.
Qed.

Lemma ceil_div_60_subadditive (a b : Z) :
  Js.ceil_div (a + b) 60 <= Js.ceil_div a 60 + Js.ceil_div b 60.
Proof.
  unfold Js.ceil_div.
  pose proof (Z.div_mod (- a) 60 ltac:(lia)).
  pose proof (Z.mod_pos_bound (- a) 60 ltac:(lia)).
  pose proof (Z.div_mod (- b) 60 ltac:(lia)).
  pose proof (Z.mod_pos_bound (- b) 60 ltac:(lia)).
  pose proof (Z.div_mod (- (a + b)) 60 ltac:(lia)).
  pose proof (Z.mod_pos_bound (- (a + b)) 60 ltac:(lia)).
  lia.
Qed.

(** X15.  A work session (start, [n] seconds, pause) adds the ceiling of
    [n]/60 minutes to the time spent on the step; a second session adds its
    own ceiling on top.  Every session is rounded up by itself, so the time
    recorded for two sessions is never below what one session of the same
    total length records, and can exceed it. *)
Theorem sessions_round_up_separately (n m : nat) (oid sid : Z)
  (s : AppState) (i j : nat) (o : Outcome) (st : Step) :
  outcomes s !! i = Some o -> steps o !! j = Some st ->
  targets (mkTimer oid sid) o st = true ->
  step_at (outcomes (session n oid sid s)) i j =
    Some (paused (Z.of_nat n) st) /\
  step_at (outcomes (session m oid sid (session n oid sid s))) i j =
    Some (paused (Z.of_nat m) (paused (Z.of_nat n) st)) /\
  timeSpent (paused (Z.of_nat m) (paused (Z.of_nat n) st)) =
    timeSpent st + Js.ceil_div (Z.of_nat n) 60 + Js.ceil_div (Z.of_nat m) 60 /\
  timeSpent (paused (Z.of_nat (n + m)) st) <=
    timeSpent (paused (Z.of_nat m) (paused (Z.of_nat n) st)).
Proof.
  intros Ho Hst Ht.
  destruct (session_lookup n oid sid s i o Ho) as (o1 & Ho1 & Hid1 & Hs1).
  specialize (Hs1 j st Hst). rewrite Ht in Hs1.
  destruct (session_lookup m oid sid (session n oid sid s) i o1 Ho1)
    as (o2 & Ho2 & Hid2 & Hs2).
  specialize (Hs2 j _ Hs1).
  assert (targets (mkTimer oid sid) o1 (paused (Z.of_nat n) st) = true) as Ht1.
  { unfold targets in *. rewrite Hid1. exact Ht. }
  rewrite Ht1 in Hs2.
  split; [unfold step_at; rewrite Ho1; exact Hs1|].
  split; [unfold step_at; rewrite Ho2; exact Hs2|].
  split; [reflexivity|].
  cbn [timeSpent paused].
  pose proof (ceil_div_60_subadditive (Z.of_nat n) (Z.of_nat m)).
  rewrite Nat2Z.inj_add. lia.
Qed.

(** Two sessions of one second each on the first step of the running
    example record two minutes. *)
Lemma sessions_round_up_separately_witness :
  step_at (outcomes (session 1 1 1 (session 1 1 1 example_running)))
    0%nat 0%nat
  = Some (paused 1 (paused 1 (mkStep 1 "Draft" 10 None false 5))).
Proof.
  apply (sessions_round_up_separately 1 1 1 1 example_running 0%nat 0%nat
           (mkOutcome 1 "Write" [mkStep 1 "Draft" 10 None false 5;
                                 mkStep 2 "Edit" 20 None false 0])
           (mkStep 1 "Draft" 10 None false 5)
           eq_refl eq_refl eq_refl).
Defined.

(* ===================================================================== *)
(** * Ids stay distinct                                                  *)
(* ===================================================================== *)

Lemma max_with_0_ge (l : list Z) (x : Z) :
  In x l -> x <= Js.max_with_0 l.
Proof.
  induction l as [|y l IH]; simpl; [tauto|].
  intros [->|H]; [lia|]. specialize (IH H). lia.
Qed.

(** The id given to a new outcome or step is not in use. *)
Lemma fresh_id_not_in (l : list Z) : ~ In (Js.max_with_0 l + 1) l.
Proof. intros H. apply max_with_0_ge in H. lia. Qed.

Lemma NoDup_snoc_fresh (l : list Z) :
  NoDup l -> NoDup (l ++ [Js.max_with_0 l + 1]).
Proof.
  intros H. apply NoDup_app. split; [exact H|].
  split; [|apply NoDup_singleton].
  intros x Hx Hin. apply list_elem_of_singleton in Hin. subst x.
  apply list_elem_of_In in Hx. exact (fresh_id_not_in l Hx).
Qed.

Lemma NoDup_map_filter {A} (f : A -> Z) (p : A -> bool) (l : list A) :
  NoDup (map f l) -> NoDup (map f (List.filter p l)).
Proof.
  induction l as [|x l IH]; simpl; [auto|].
  intros H. apply NoDup_cons in H as [Hx Hl].
  destruct (p x); simpl; [|auto].
  apply NoDup_cons. split; [|auto].
  intros Hin. apply Hx.
  apply list_elem_of_In in Hin. apply list_elem_of_In.
  apply in_map_iff in Hin as (y & Hy & Hin). apply in_map_iff.
  exists y. split; [exact Hy|]. apply filter_In in Hin. tauto.
Qed.

Lemma ids_unique_map_steps (f : Outcome -> bool) (g : Step -> Step)
  (os : list Outcome) :
  (forall st, step_id (g st) = step_id st) ->
  ids_unique os ->
  ids_unique (map (fun outcome =>
     if f outcome then
       mkOutcome (outcome_id outcome) (outcome_title outcome)
         (map g (steps outcome))
     else outcome) os).
Proof.
  intros Hg [Ho Hs]. split.
  - rewrite map_map.
    erewrite map_ext; [exact Ho|].
    intros o. destruct (f o); reflexivity.
  - clear Ho. induction Hs as [|o os Hx _ IH]; simpl; constructor; auto.
    destruct (f o); [|exact Hx]. cbn [steps]. rewrite map_map.
    erewrite map_ext; [exact Hx|]. intros st. apply Hg.
Qed.

Lemma pauseTimer_ids (s : AppState) :
  ids_unique (outcomes s) -> ids_unique (outcomes (pauseTimer s)).
Proof.
  intros H. unfold pauseTimer. destruct (activeTimer s) as [a|]; [|exact H].
  cbn [outcomes setOutcomes setTimerSeconds setActiveTimer].
  apply (ids_unique_map_steps
           (fun outcome => outcome_id outcome =? outcomeId a)
           (fun step => if step_id step =? stepId a then _ else step));
    [|exact H].
  intros st. destruct (step_id st =? stepId a); reflexivity.
Qed.

Lemma markStepDone_ids (s : AppState) :
  ids_unique (outcomes s) -> ids_unique (outcomes (markStepDone s)).
Proof.
  intros H. unfold markStepDone. destruct (activeTimer s) as [a|]; [|exact H].
  cbn [outcomes setOutcomes setTimerSeconds setActiveTimer showNotification
       setNotification].
  apply (ids_unique_map_steps
           (fun outcome => outcome_id outcome =? outcomeId a)
           (fun step => if step_id step =? stepId a then _ else step));
    [|exact H].
  intros st. destruct (step_id st =? stepId a); reflexivity.
Qed.

Lemma addOutcome_ids (s : AppState) :
  ids_unique (outcomes s) -> ids_unique (outcomes (addOutcome s)).
Proof.
  intros [Ho Hs]. unfold addOutcome. destruct (negb _); [split; assumption|].
  cbn [outcomes showNotification setNotification setNewOutcome setOutcomes].
  split.
  - rewrite map_app. cbn [map outcome_id]. apply NoDup_snoc_fresh, Ho.
  - apply Forall_app. split; [exact Hs|]. repeat constructor.
Qed.

Lemma addStep_ids (outcomeId : Z) (s s' : AppState) :
  ids_unique (outcomes s) -> addStep outcomeId s = Some s' ->
  ids_unique (outcomes s').
Proof.
  intros H. unfold addStep.
  destruct (negb _ || negb _); [intros [= <-]; exact H|].
  destruct (mapM _ _) as [os'|] eqn:E; [|discriminate].
  intros [= <-].
  cbn [outcomes showNotification setNotification setAddingStepTo setNewStep
       setOutcomes].
  apply mapM_Some in E. destruct H as [Ho Hs].
  assert (map outcome_id os' = map outcome_id (outcomes s) /\
          Forall (fun outcome => NoDup (map step_id (steps outcome))) os')
    as [Eids Hs'].
  { clear Ho. induction E as [|o o' os os' Hoo' _ IH]; [split; constructor|].
    apply Forall_cons in Hs as [Hx Hs]. destruct (IH Hs) as [IH1 IH2].
    unfold addStep_outcome in Hoo'.
    destruct (outcome_id o =? outcomeId).
    - destruct (Js.parseInt _); [|discriminate]. injection Hoo' as <-.
      cbn [map outcome_id]. split; [congruence|].
      constructor; [|exact IH2]. cbn [steps]. rewrite map_app.
      cbn [map step_id]. apply NoDup_snoc_fresh, Hx.
    - injection Hoo' as <-. cbn [map]. split; [congruence|].
      constructor; assumption. }
  split; [rewrite Eids; exact Ho|exact Hs'].
Qed.

Lemma removeOutcome_ids (confirmed : bool) (outcomeId : Z) (s : AppState) :
  ids_unique (outcomes s) ->
  ids_unique (outcomes (removeOutcome confirmed outcomeId s)).
Proof.
  intros [Ho Hs]. unfold removeOutcome.
  destruct confirmed; [|split; assumption].
  cbn [negb outcomes showNotification setNotification setOutcomes]. split.
  - apply NoDup_map_filter, Ho.
  - apply Forall_list_filter, Hs.
Qed.

Lemma removeStep_ids (outcomeId stepId : Z) (s : AppState) :
  ids_unique (outcomes s) ->
  ids_unique (outcomes (removeStep outcomeId stepId s)).
Proof.
  intros [Ho Hs]. unfold removeStep.
  cbn [outcomes showNotification setNotification setOutcomes]. split.
  - rewrite map_map. erewrite map_ext; [exact Ho|].
    intros o. destruct (outcome_id o =? outcomeId); reflexivity.
  - clear Ho. induction Hs as [|o os Hx _ IH]; simpl; constructor; auto.
    destruct (outcome_id o =? outcomeId); [|exact Hx]. cbn [steps].
    apply NoDup_map_filter, Hx.
Qed.

Lemma handle_ids (e : Event) (s s' : AppState) :
  event_keeps_ids e -> ids_unique (outcomes s) -> handle e s = Some s' ->
  ids_unique (outcomes s').
Proof.
  intros He H.
  destruct e; simpl; try (intros [= <-]);
    auto using pauseTimer_ids, markStepDone_ids, addOutcome_ids,
      removeOutcome_ids, removeStep_ids.
  - apply addStep_ids. exact H.
  - unfold tick. destruct (activeTimer s); exact H.
  - unfold addTime. destruct (_ && _); exact H.
  - unfold exportData. destruct download_ok; exact H.
  - destruct event as [| |text]; simpl; try exact H.
    destruct (import_try text s) as [s1|] eqn:E; [|exact H].
    apply import_try_Some in E as (data & a & -> & Ea & ->).
    simpl in He. rewrite Ea in He. exact He.
Qed.

(** X16.  Ids stay distinct.  A new outcome gets an id that no outcome of
    the list has, a new step an id that no step of its outcome has.  Hence,
    starting from the empty list or from the default outcomes, every run of
    events leads to a list in which outcome ids are pairwise distinct and
    step ids are pairwise distinct within each outcome, provided every
    import installs such a list; title edits keep such a list as well. *)
Theorem ids_stay_unique :
  ids_unique (outcomes initialState) /\
  ids_unique DEFAULT_OUTCOMES /\
  (forall l, ~ In (Js.max_with_0 l + 1) l) /\
  (forall es s s',
      Forall event_keeps_ids es -> ids_unique (outcomes s) -> run s es s' ->
      ids_unique (outcomes s')) /\
  (forall u, ids_unique (outcomes (app u)) ->
      ids_unique (outcomes (app (saveOutcomeEdit u))) /\
      (forall u', saveStepEdit u = Some u' ->
         ids_unique (outcomes (app u')))).
Proof.
  split; [split; constructor|].
  split.
  { split.
    - repeat constructor; simpl; rewrite ?list_elem_of_In; simpl; intuition lia.
    - repeat constructor; simpl; rewrite ?list_elem_of_In; simpl;
        intuition lia. }
  split; [exact fresh_id_not_in|].
  split.
  - intros es s s' Hes Hs Hrun. induction Hrun as [|s e s1 es s2 He _ IH].
    + exact Hs.
    + inversion Hes; subst. apply IH; [assumption|].
      eapply handle_ids; eauto.
  - intros u [Ho Hs]. split.
    + unfold saveOutcomeEdit. destruct (negb _); [split; assumption|].
      cbn [app outcomes setEditValue setEditingOutcome setApp setOutcomes].
      split.
      * rewrite map_map. erewrite map_ext; [exact Ho|].
        intros o. destruct (id_is _ _); reflexivity.
      * clear Ho. induction Hs as [|o os Hx _ IH]; simpl; constructor; auto.
        destruct (id_is _ _); exact Hx.
    + intros u' Hu'. unfold saveStepEdit in Hu'.
      destruct (negb _); [injection Hu' as <-; split; assumption|].
      destruct (editingStep u) as [e|].
      * injection Hu' as <-.
        cbn [app outcomes setEditValue setEditingStep setApp setOutcomes].
        apply (ids_unique_map_steps
                 (fun outcome => outcome_id outcome =? outcomeId e)
                 (fun step => if step_id step =? stepId e then _ else step));
          [|split; assumption].
        intros st. destruct (step_id st =? stepId e); reflexivity.
      * destruct (outcomes (app u)) eqn:E; [|discriminate].
        injection Hu' as <-. cbn [app setEditValue setEditingStep].
        rewrite E. split; constructor.
Qed.

Lemma ids_stay_unique_witness :
  ids_unique (outcomes (markStepDone example_running)).
Proof.
  apply (proj1 (proj2 (proj2 (proj2 ids_stay_unique)))
           [EMarkStepDone] example_running (markStepDone example_running)).
  - repeat constructor.
  - split.
    + repeat constructor. simpl. intros H. inversion H.
    + repeat constructor; simpl.
      * intros H. apply list_elem_of_In in H. simpl in H.
        destruct H as [H|[]]. discriminate H.
      * intros H. inversion H.
  - eapply run_cons; [reflexivity|apply run_nil].
Defined.

(* ===================================================================== *)
(** * Numbers in strings                                                 *)
(* ===================================================================== *)

Lemma uint_all_digits (d : Decimal.uint) :
  JsText.all_chars JsText.is_digit (NilEmpty.string_of_uint d) = true.
Proof. induction d; simpl; auto. Qed.

Lemma uint_string_nonempty (d : Decimal.uint) :
  d <> Decimal.Nil -> NilEmpty.string_of_uint d <> ""%string.
Proof. destruct d; simpl; congruence. Qed.

Lemma NilZero_uint_eq (d : Decimal.uint) :
  d <> Decimal.Nil ->
  NilZero.string_of_uint d = NilEmpty.string_of_uint d.
Proof. destruct d; simpl; congruence. Qed.

(** The text of a number that is not negative: digits, at least one. *)
Lemma toString_nonneg (n : Z) :
  0 <= n ->
  JsText.all_chars JsText.is_digit (JsText.toString n) = true /\
  JsText.toString n <> ""%string.
Proof.
  intros Hn. unfold JsText.toString. destruct n as [|p|p]; [| |lia].
  - split; [reflexivity|discriminate].
  - cbn [Z.to_int NilZero.string_of_int].
    rewrite NilZero_uint_eq by apply Unsigned.to_uint_nonnil.
    split; [apply uint_all_digits|].
    apply uint_string_nonempty, Unsigned.to_uint_nonnil.
Qed.

(** The text of a negative number: a minus sign, then digits, at least
    one. *)
Lemma toString_neg (n : Z) :
  n < 0 ->
  exists t, JsText.toString n = String "-" t /\
    JsText.all_chars JsText.is_digit t = true /\ t <> ""%string.
Proof.
  intros Hn. unfold JsText.toString. destruct n as [|p|p]; [lia|lia|].
  cbn [Z.to_int NilZero.string_of_int].
  rewrite NilZero_uint_eq by apply Unsigned.to_uint_nonnil.
  eexists. split; [reflexivity|].
  split; [apply uint_all_digits|].
  apply uint_string_nonempty, Unsigned.to_uint_nonnil.
Qed.

Lemma toString_inj (a b : Z) :
  JsText.toString a = JsText.toString b -> a = b.
Proof.
  unfold JsText.toString. intros E. apply DecimalZ.to_int_inj.
  assert (forall n, Z.to_int n <> Decimal.Pos Decimal.Nil /\
                    Z.to_int n <> Decimal.Neg Decimal.Nil) as Hnn.
  { intros [|p|p]; simpl; split; try discriminate;
      intros [= H]; exact (Unsigned.to_uint_nonnil p H). }
  apply (f_equal NilZero.int_of_string) in E.
  rewrite !NilZero.isi in E by apply Hnn.
  congruence.
Qed.

(** Two texts that start with digits and go on with a character that is no
    digit are equal only if the digits and the rests are. *)
Lemma digits_prefix_inj (a b : string) (c c' : ascii) (r r' : string) :
  JsText.all_chars JsText.is_digit a = true ->
  JsText.all_chars JsText.is_digit b = true ->
  JsText.is_digit c = false -> JsText.is_digit c' = false ->
  (a ++ String c r = b ++ String c' r')%string ->
  a = b /\ String c r = String c' r'.
Proof.
  revert b. induction a as [|x a IH]; intros [|y b] Ha Hb Hc Hc' E;
    simpl in *.
  - auto.
  - injection E as -> _. apply andb_true_iff in Hb as [Hb _]. congruence.
  - injection E as -> _. apply andb_true_iff in Ha as [Ha _]. congruence.
  - injection E as -> E.
    apply andb_true_iff in Ha as [_ Ha]. apply andb_true_iff in Hb as [_ Hb].
    destruct (IH b Ha Hb Hc Hc' E) as [-> ?]. auto.
Qed.

(** The text of a number followed by a character that is no digit (the
    minus sign is allowed) determines the number and what follows. *)
Lemma toString_sep_inj (a b : Z) (c c' : ascii) (r r' : string) :
  JsText.is_digit c = false -> JsText.is_digit c' = false ->
  (JsText.toString a ++ String c r = JsText.toString b ++ String c' r')%string ->
  a = b /\ String c r = String c' r'.
Proof.
  intros Hc Hc' E.
  assert (forall n, 0 <= n -> exists x t, JsText.toString n = String x t /\
            JsText.is_digit x = true) as Hhead.
  { intros n Hn. destruct (toString_nonneg n Hn) as [Hd Hne].
    destruct (JsText.toString n) as [|x t]; [congruence|].
    simpl in Hd. apply andb_true_iff in Hd as [Hx _]. eauto. }
  destruct (Z.lt_ge_cases a 0) as [Ha|Ha];
    destruct (Z.lt_ge_cases b 0) as [Hb|Hb].
  - destruct (toString_neg a Ha) as (ta & Ea & Hta & _).
    destruct (toString_neg b Hb) as (tb & Eb & Htb & _).
    rewrite Ea, Eb in E. simpl in E. injection E as E.
    destruct (digits_prefix_inj ta tb c c' r r' Hta Htb Hc Hc' E) as [-> ?].
    split; [|assumption]. apply toString_inj. congruence.
  - destruct (toString_neg a Ha) as (ta & Ea & _).
    destruct (Hhead b Hb) as (x & t & Eb & Hx).
    rewrite Ea, Eb in E. simpl in E. injection E as <- _. discriminate Hx.
  - destruct (toString_neg b Hb) as (tb & Eb & _).
    destruct (Hhead a Ha) as (x & t & Ea & Hx).
    rewrite Ea, Eb in E. simpl in E. injection E as -> _. discriminate Hx.
  - destruct (toString_nonneg a Ha) as [Hda _].
    destruct (toString_nonneg b Hb) as [Hdb _].
    destruct (digits_prefix_inj _ _ c c' r r' Hda Hdb Hc Hc' E) as [E' ?].
    split; [|assumption]. apply toString_inj. exact E'.
Qed.

(* ===================================================================== *)
(** * Notes                                                              *)
(* ===================================================================== *)

(** The key of a note determines the outcome, the step and the day. *)
Lemma noteKey_inj (o o' st st' : Z) (d d' : string) :
  noteKey o st d = noteKey o' st' d' -> o = o' /\ st = st' /\ d = d'.
Proof.
  unfold noteKey. intros E.
  change ("-" ++ ?x)%string with (String "-" x) in E.
  apply toString_sep_inj in E as [-> E]; [|reflexivity..].
  injection E as E.
  apply toString_sep_inj in E as [-> E]; [|reflexivity..].
  injection E as ->. auto.
Qed.

(** X17.  A note is read back on the day it was saved: after
    [saveStepNote] for a step, [getStepNote] for the same step gives the
    note, whatever was stored before and at whatever times of that day the
    two calls are made. *)
Theorem note_is_read_back (now now' : string) (o st : Z) (note : string)
  (s : AppState) :
  today now = today now' ->
  getStepNote now' o st (saveStepNote now o st note s) = note.
Proof.
  intros E. unfold getStepNote, saveStepNote. cbn [stepNotes setStepNotes].
  rewrite E, lookup_insert_eq. destruct note; reflexivity.
Qed.

Lemma note_is_read_back_witness :
  getStepNote "2025-01-31T18:30:00.000Z" 1 2
    (saveStepNote "2025-01-31T09:00:00.000Z" 1 2 "ask Ana" example_running)
  = "ask Ana"%string.
Proof.
  apply (note_is_read_back "2025-01-31T09:00:00.000Z"
           "2025-01-31T18:30:00.000Z" 1 2 "ask Ana" example_running).
  reflexivity.
Defined.

(** X18.  Notes do not interfere: saving a note for one step on one day
    leaves the note read for any other step, or for the same step on
    another day, as it was.  The key of a note determines outcome, step and
    day, for all integer ids. *)
Theorem notes_are_independent (now now' : string) (o o' st st' : Z)
  (note : string) (s : AppState) :
  o <> o' \/ st <> st' \/ today now <> today now' ->
  getStepNote now' o' st' (saveStepNote now o st note s) =
  getStepNote now' o' st' s.
Proof.
  intros Hne. unfold getStepNote, saveStepNote. cbn [stepNotes setStepNotes].
  rewrite lookup_insert_ne; [reflexivity|].
  intros E. apply noteKey_inj in E as (-> & -> & E).
  destruct Hne as [H|[H|H]]; congruence.
Qed.

Lemma notes_are_independent_witness :
  getStepNote "2025-01-31T09:00:00.000Z" 1 23
    (saveStepNote "2025-01-31T09:00:00.000Z" 12 3 "ask Ana" example_running)
  = getStepNote "2025-01-31T09:00:00.000Z" 1 23 example_running.
Proof.
  apply (notes_are_independent "2025-01-31T09:00:00.000Z"
           "2025-01-31T09:00:00.000Z" 12 1 3 23 "ask Ana" example_running).
  left. discriminate.
Defined.

Lemma filter_drops_last_created (l : list Step) (st : Step) :
  step_id st = Js.max_with_0 (map step_id l) + 1 ->
  List.filter (fun step => negb (step_id step =? step_id st)) (l ++ [st]) = l.
Proof.
  intros E. rewrite List.filter_app. simpl. rewrite Z.eqb_refl. simpl.
  rewrite app_nil_r.
  assert (forall x, In x l -> step_id x <> step_id st) as Hne.
  { intros x Hx.
    pose proof (max_with_0_ge (map step_id l) (step_id x)
                  (in_map step_id l x Hx)). lia. }
  clear E. induction l as [|x l IH]; simpl; [reflexivity|].
  replace (step_id x =? step_id st) with false
    by (symmetry; apply Z.eqb_neq, Hne; left; reflexivity).
  simpl. f_equal. apply IH. intros y Hy. apply Hne. right. exact Hy.
Qed.

(** X19.  Notes outlive their step, and ids are used again.  When the step
    created last in an outcome (the one with the highest id) is deleted and
    a new step is added to that outcome, the new step gets the id of the
    deleted one; as neither operation touches the notes, the notes of the
    deleted step are now those of the new step. *)
Theorem deleted_step_id_and_notes_reappear (s : AppState) (i : nat)
  (o : Outcome) (l : list Step) (st : Step) (est : Z) (now : string) :
  outcomes s !! i = Some o ->
  steps o = l ++ [st] ->
  step_id st = Js.max_with_0 (map step_id l) + 1 ->
  Js.trim (ns_title (newStep s)) <> ""%string ->
  ns_estimatedMin (newStep s) <> ""%string ->
  Js.parseInt (ns_estimatedMin (newStep s)) = Some est ->
  exists s',
    addStep (outcome_id o) (removeStep (outcome_id o) (step_id st) s) = Some s' /\
    step_at (outcomes s') i (length l) =
      Some (mkStep (step_id st) (Js.trim (ns_title (newStep s))) est
              None false 0) /\
    stepNotes s' = stepNotes s /\
    getStepNote now (outcome_id o) (step_id st) s' =
      getStepNote now (outcome_id o) (step_id st) s.
Proof.
  intros Ho Hsteps Hid Ht He Hest.
  set (s1 := removeStep (outcome_id o) (step_id st) s).
  assert (outcomes s1 !! i =
          Some (mkOutcome (outcome_id o) (outcome_title o) l)) as Ho1.
  { unfold s1, removeStep.
    cbn [outcomes showNotification setNotification setOutcomes].
    rewrite lookup_map, Ho. cbn [option_map]. rewrite Z.eqb_refl.
    rewrite Hsteps, (filter_drops_last_created l st Hid). reflexivity. }
  destruct (addStep_appends (outcome_id o) est s1 i _ Ht He Hest Ho1)
    as (s' & Hadd & Hlook).
  exists s'. split; [exact Hadd|].
  cbn [outcome_id outcome_title steps] in Hlook. rewrite Z.eqb_refl in Hlook.
  assert (stepNotes s' = stepNotes s) as Hnotes.
  { unfold addStep in Hadd.
    destruct (negb _ || negb _); [injection Hadd as <-; reflexivity|].
    destruct (mapM _ _); [|discriminate]. injection Hadd as <-. reflexivity. }
  split; [|split; [exact Hnotes|]].
  - unfold step_at. rewrite Hlook. cbn [steps].
    rewrite lookup_app_r by lia. rewrite Nat.sub_diag, <- Hid. reflexivity.
  - unfold getStepNote. rewrite Hnotes. reflexivity.
Qed.

Lemma deleted_step_id_and_notes_reappear_witness :
  exists s',
    addStep 1 (removeStep 1 2 example_noted) = Some s' /\
    step_at (outcomes s') 0 1 = Some (mkStep 2 "Publish" 15 None false 0) /\
    stepNotes s' = stepNotes example_noted /\
    getStepNote "2025-01-31T09:00:00.000Z" 1 2 s' =
      getStepNote "2025-01-31T09:00:00.000Z" 1 2 example_noted.
Proof.
  apply (deleted_step_id_and_notes_reappear example_noted 0%nat
           (mkOutcome 1 "Write" [mkStep 1 "Draft" 10 None false 5;
                                 mkStep 2 "Edit" 20 None false 0])
           [mkStep 1 "Draft" 10 None false 5]
           (mkStep 2 "Edit" 20 None false 0) 15
           "2025-01-31T09:00:00.000Z");
    try reflexivity; discriminate.
Defined.

(* ===================================================================== *)
(** * The adapter with a store that takes every write, or none           *)
(* ===================================================================== *)

Section AdapterModes.

Import Storage.

Context {V : Type}.
Variable JSON_stringify : V -> option string.
Variable JSON_parse : string -> option V.
Variable window : option LocalStorageGetter.
Variable is_undefined : V -> bool.
Variable setItem_ok : gmap string string -> string -> string -> bool.

Local Abbreviation set := (Storage.set JSON_stringify window setItem_ok).
Local Abbreviation get :=
  (Storage.get JSON_parse window is_undefined setItem_ok).
Local Abbreviation remove := (Storage.remove window setItem_ok).
Local Abbreviation getStorageType :=
  (Storage.getStorageType window setItem_ok).

Lemma item_delete_sentinel (m : gmap string string) (k : string) :
  delete testKey (delete testKey m) !! k = delete testKey m !! k.
Proof. rewrite !lookup_delete. repeat case_decide; reflexivity. Qed.

Lemma set_accepting (k : string) (v : V) (ser : string) (w : World V) :
  window = Some GetterStorage -> accepts_all setItem_ok ->
  JSON_stringify v = Some ser -> k <> testKey ->
  exists w',
    set k v w = (Ok true, w') /\
    item w' k = Some ser /\
    (forall k', k' <> k -> item w' k' = item w k') /\
    memoryStorage w' = <[k := v]> (memoryStorage w).
Proof.
  intros B A S Hk.
  rewrite (set_available JSON_stringify window setItem_ok k v ser w B S)
    by apply A.
  rewrite A. eexists. split; [reflexivity|]. unfold item.
  cbn [localStorage memoryStorage].
  split; [|split; [|reflexivity]].
  - rewrite lookup_delete_ne by congruence. apply lookup_insert_eq.
  - intros k' Hne. rewrite !lookup_delete. case_decide; [reflexivity|].
    rewrite lookup_insert_ne by congruence.
    rewrite lookup_delete. case_decide; congruence.
Qed.

Lemma get_accepting (k : string) (d : V) (w : World V) :
  window = Some GetterStorage -> accepts_all setItem_ok ->
  exists w',
    get k d w =
      (Ok (decode_item JSON_parse is_undefined d (memoryStorage w !! k)
             (item w k)), w') /\
    (forall k', item w' k' = item w k') /\
    memoryStorage w' = memoryStorage w.
Proof.
  intros B A.
  rewrite (get_available JSON_parse window is_undefined setItem_ok k d w B)
    by apply A.
  eexists. split; [reflexivity|]. unfold item. cbn [localStorage memoryStorage].
  split; [|reflexivity]. intros k'. apply item_delete_sentinel.
Qed.

Lemma getStorageType_accepting (w : World V) :
  window = Some GetterStorage -> accepts_all setItem_ok ->
  exists w',
    getStorageType w = (Ok "localStorage"%string, w') /\
    (forall k', item w' k' = item w k') /\
    memoryStorage w' = memoryStorage w.
Proof.
  intros B A. unfold Storage.getStorageType. unfold bind at 1.
  rewrite (isBrowser_true window w B). cbn [negb].
  unfold bind. rewrite (probe_true window setItem_ok w B (A _ _ _)).
  cbn [ret].
  eexists. split; [reflexivity|]. unfold item. cbn [localStorage memoryStorage].
  split; [|reflexivity]. intros k'. apply item_delete_sentinel.
Qed.

Lemma set_refusing (k : string) (v : V) (w : World V) :
  window = Some GetterStorage -> (forall m, setItem_ok m testKey "test" = false) ->
  set k v w =
    (Ok true, mkWorld (localStorage w) (<[k := v]> (memoryStorage w))).
Proof.
  intros B R.
  apply (set_unavailable JSON_stringify window setItem_ok k v w B).
  right. apply R.
Qed.

Lemma get_refusing (k : string) (d : V) (w : World V) :
  window = Some GetterStorage -> (forall m, setItem_ok m testKey "test" = false) ->
  get k d w = (Ok (defined_or is_undefined (memoryStorage w !! k) d), w).
Proof.
  intros B R.
  apply (get_unavailable JSON_parse window is_undefined setItem_ok k d w B).
  apply R.
Qed.

Lemma getStorageType_refusing (w : World V) :
  window = Some GetterStorage -> (forall m, setItem_ok m testKey "test" = false) ->
  getStorageType w = (Ok "memory"%string, w).
Proof.
  intros B R. unfold Storage.getStorageType. unfold bind at 1.
  rewrite (isBrowser_true window w B). cbn [negb].
  unfold bind. rewrite (probe_false window setItem_ok w B (R _)).
  reflexivity.
Qed.

(** In a browser, [remove] makes its key absent and keeps absent keys
    absent. *)
Lemma remove_absent (k : string) (w : World V) :
  window = Some GetterStorage ->
  exists w',
    remove k w = (Ok true, w') /\
    absent setItem_ok w' k /\
    (forall k', absent setItem_ok w k' -> absent setItem_ok w' k').
Proof.
  intros B. unfold absent.
  destruct (setItem_ok (localStorage w) testKey "test") eqn:H.
  - rewrite (remove_available window setItem_ok k w B H).
    eexists. split; [reflexivity|]. cbn [localStorage memoryStorage].
    split.
    + split; [apply lookup_delete_eq|left; apply lookup_delete_eq].
    + intros k' [Hm [Hl|Hl]]; [|congruence].
      split.
      * rewrite lookup_delete. case_decide; auto.
      * left. rewrite !lookup_delete. repeat case_decide; auto.
  - rewrite (remove_unavailable window setItem_ok k w B H).
    eexists. split; [reflexivity|]. cbn [localStorage memoryStorage].
    split.
    + split; [apply lookup_delete_eq|right; exact H].
    + intros k' [Hm _].
      split; [|right; exact H].
      rewrite lookup_delete. case_decide; auto.
Qed.

(** In a browser, [get] of an absent key gives the default, and keeps
    absent keys absent. *)
Lemma get_absent_key (k : string) (d : V) (w : World V) :
  window = Some GetterStorage ->
  exists r w',
    get k d w = (Ok r, w') /\
    (absent setItem_ok w k -> r = d) /\
    (forall k', absent setItem_ok w k' -> absent setItem_ok w' k').
Proof.
  intros B. unfold absent.
  destruct (setItem_ok (localStorage w) testKey "test") eqn:H.
  - rewrite (get_available JSON_parse window is_undefined setItem_ok k d w
               B H).
    do 2 eexists. split; [reflexivity|]. cbn [localStorage memoryStorage].
    split.
    + intros [Hm [Hl|Hl]]; [|congruence].
      rewrite lookup_delete. case_decide; [reflexivity|].
      rewrite Hl. reflexivity.
    + intros k' [Hm [Hl|Hl]]; [|congruence].
      split; [exact Hm|]. left.
      rewrite lookup_delete. case_decide; auto.
  - rewrite (get_unavailable JSON_parse window is_undefined setItem_ok k d w
               B H).
    do 2 eexists. split; [reflexivity|].
    split; [intros [Hm _]; rewrite Hm; reflexivity|].
    intros k' [Hm _]. split; [exact Hm|right; exact H].
Qed.

Lemma getStorageType_absent (w : World V) :
  window = Some GetterStorage ->
  exists t w',
    getStorageType w = (Ok t, w') /\
    (t = "localStorage" \/ t = "memory")%string /\
    (forall k', absent setItem_ok w k' -> absent setItem_ok w' k').
Proof.
  intros B. unfold Storage.getStorageType, absent. unfold bind at 1.
  rewrite (isBrowser_true window w B). cbn [negb].
  destruct (setItem_ok (localStorage w) testKey "test") eqn:H.
  - unfold bind. rewrite (probe_true window setItem_ok w B H). cbn [ret].
    do 2 eexists. split; [reflexivity|]. split; [auto|].
    cbn [localStorage memoryStorage].
    intros k' [Hm [Hl|Hl]]; [|congruence].
    split; [exact Hm|]. left. rewrite lookup_delete. case_decide; auto.
  - unfold bind. rewrite (probe_false window setItem_ok w B H). cbn [ret].
    do 2 eexists. split; [reflexivity|]. split; [auto|].
    intros k' [Hm _]. split; [exact Hm|right; exact H].
Qed.

End AdapterModes.

(* ===================================================================== *)
(** * Saving and loading: proofs                                         *)
(* ===================================================================== *)

Section PersistenceFacts.

Import Storage.

Variable JSON_stringify : Stored -> option string.
Variable JSON_parse : string -> option Stored.
Variable window : option Storage.LocalStorageGetter.
Variable setItem_ok : gmap string string -> string -> string -> bool.

Local Abbreviation save := (saveData JSON_stringify window setItem_ok).
Local Abbreviation load := (loadData JSON_parse window setItem_ok).
Local Abbreviation auto_save :=
  (autoSave JSON_stringify window setItem_ok).
Local Abbreviation clear_all := (clearAllData window setItem_ok).
Local Abbreviation set := (Storage.set JSON_stringify window setItem_ok).
Local Abbreviation get := (Storage.get JSON_parse window stored_is_undefined
     setItem_ok).

(** X20.  [saveData] never throws and never shows the notice "Data saved to
    memory (localStorage unavailable)".  Where [isBrowser()] finds the
    storage object every [set] answers [true], also when the value went to
    the memory map only, so the save counts as successful and [lastSaved] is
    set.  Where reading [window.localStorage] throws, the first [set] throws,
    the [catch] block shows "Failed to save data", and neither the stores
    nor [lastSaved] change.  Elsewhere the storage type is ["none"] and the
    other warning is shown. *)
Theorem saveData_never_reports_memory (now now' : string) (u : UiState)
  (w : World Stored) :
  match window with
  | Some (GetterThrows msg) =>
      save now now' u w =
        (Ok (setApp (showNotification "Failed to save data" NError) u), w)
  | Some GetterStorage =>
      exists w', save now now' u w = (Ok (setLastSaved (Some now') u), w')
  | _ =>
      save now now' u w =
        (Ok (setApp (showNotification
                       "Some data may not have saved correctly" NWarning) u),
         w)
  end.
Proof.
  apply by_window3.
  - intros msg B. unfold saveData, try_catch. unfold bind at 1.
    destruct (blocked_throws JSON_stringify (fun _ => None) window
                stored_is_undefined setItem_ok msg w B) as (Hs & _).
    rewrite Hs. reflexivity.
  - intros B.
    destruct (set_returns JSON_stringify window setItem_ok KEY_OUTCOMES
                (SOutcomes (outcomes (app u))) w B) as (w1 & H1 & _).
    destruct (set_returns JSON_stringify window setItem_ok KEY_NOTES
                (SNotes (stepNotes (app u))) w1 B) as (w2 & H2 & _).
    destruct (set_returns JSON_stringify window setItem_ok KEY_TIME_BANK
                (SNumber (timeBank (app u))) w2 B) as (w3 & H3 & _).
    destruct (set_returns JSON_stringify window setItem_ok KEY_TIMER
                (STimer (activeTimer (app u)) (timerSeconds (app u))) w3 B)
      as (w4 & H4 & _).
    destruct (set_returns JSON_stringify window setItem_ok KEY_LAST_SAVED
                (SString now) w4 B) as (w5 & H5 & _).
    exists w5.
    unfold saveData, try_catch. unfold bind at 1. rewrite H1.
    unfold bind at 1. rewrite H2. unfold bind at 1. rewrite H3.
    unfold bind at 1. rewrite H4. unfold bind at 1. rewrite H5.
    reflexivity.
  - intros B N.
    destruct (isBrowser_cases (V:=Stored) window)
      as [[B' E]|[(_ & _ & E)|(msg & B' & E)]];
      [rewrite B' in B; discriminate| |destruct (N msg B')].
    destruct (outside_returns JSON_stringify (fun _ => None) window
                stored_is_undefined setItem_ok w (E w)) as (Hs & _).
    destruct (outside_returns_plain window setItem_ok w (E w))
      as (_ & _ & _ & _ & _ & Ht).
    unfold saveData, try_catch. unfold bind at 1. rewrite Hs.
    unfold bind at 1. rewrite Hs. unfold bind at 1. rewrite Hs.
    unfold bind at 1. rewrite Hs. unfold bind at 1. rewrite Hs.
    cbn [forallb andb]. unfold bind at 1. rewrite Ht. reflexivity.
Qed.

Lemma set_readable (k : string) (v : Stored) (w : World Stored) :
  window = Some GetterStorage -> accepts_all setItem_ok ->
  round_trips JSON_stringify JSON_parse v -> k <> testKey ->
  exists w',
    set k v w = (Ok true, w') /\
    readable JSON_parse w' k v /\
    (forall k' v', k' <> k ->
       readable JSON_parse w k' v' -> readable JSON_parse w' k' v').
Proof.
  intros B A (ser & S & Hne & P) Hk.
  destruct (set_accepting JSON_stringify window setItem_ok k v ser w
              B A S Hk) as (w' & Hs & Hi & Hf & _).
  exists w'. split; [exact Hs|]. split.
  - exists ser. auto.
  - intros k' v' Hk' (ser' & Hi' & ? & ?). exists ser'.
    rewrite (Hf k' Hk'). auto.
Qed.

Lemma get_readable (k : string) (d v : Stored) (w : World Stored) :
  window = Some GetterStorage -> accepts_all setItem_ok ->
  readable JSON_parse w k v ->
  exists w',
    get k d w = (Ok v, w') /\
    (forall k' v', readable JSON_parse w k' v' -> readable JSON_parse w' k' v').
Proof.
  intros B A (ser & Hi & Hne & P).
  destruct (get_accepting JSON_parse window stored_is_undefined setItem_ok
              k d w B A) as (w' & Hg & Hf & _).
  exists w'. split.
  - rewrite Hg, Hi. unfold decode_item.
    destruct ser; [congruence|]. cbn [Js.truthy_string]. rewrite P.
    reflexivity.
  - intros k' v' (ser' & Hi' & ? & ?). exists ser'. rewrite Hf. auto.
Qed.

(** What [loadData] makes of the five values it reads. *)
Lemma loadData_of_reads (u0 : UiState) (t : string)
  (w w0 w1 w2 w3 w4 w5 : World Stored) (v1 v2 v3 v4 v5 : Stored) :
  Storage.getStorageType window setItem_ok w = (Ok t, w0) ->
  get KEY_OUTCOMES SNull w0 = (Ok v1, w1) ->
  get KEY_NOTES (SNotes ∅) w1 = (Ok v2, w2) ->
  get KEY_TIME_BANK (SNumber 0) w2 = (Ok v3, w3) ->
  get KEY_TIMER SNull w3 = (Ok v4, w4) ->
  get KEY_LAST_SAVED SNull w4 = (Ok v5, w5) ->
  load u0 w =
    (Ok (option_map (setIsLoading false)
           (install_loaded t v1 v2 v3 v4 v5 u0)), w5).
Proof.
  intros Ht H1 H2 H3 H4 H5.
  unfold loadData, loadData_try. unfold bind at 1. unfold try_catch.
  unfold bind at 1. rewrite Ht. unfold bind at 1. rewrite H1.
  unfold bind at 1. rewrite H2. unfold bind at 1. rewrite H3.
  unfold bind at 1. rewrite H4. unfold bind at 1. rewrite H5.
  reflexivity.
Qed.

(** Installing the five values that were saved from [u] gives the data of
    [u]. *)
Lemma install_saved (t now : string) (u u0 : UiState) :
  exists u2,
    install_loaded t (SOutcomes (outcomes (app u))) (SNotes (stepNotes (app u)))
      (SNumber (timeBank (app u)))
      (STimer (activeTimer (app u)) (timerSeconds (app u))) (SString now) u0
    = Some u2 /\
    same_data u u2 /\ storageType u2 = t.
Proof.
  unfold install_loaded.
  cbn [outcomes_or_default as_notes as_number restore_timer
       restore_lastSaved].
  rewrite or_number_Some_0.
  destruct (Js.truthy_string now), (String.eqb t "memory"),
    (String.eqb t "none");
    eexists; (split; [reflexivity|]); repeat split.
Qed.

Lemma save_accepting (now now' : string) (u : UiState) (w : World Stored) :
  window = Some GetterStorage -> accepts_all setItem_ok ->
  Forall (round_trips JSON_stringify JSON_parse) (saved_values now u) ->
  exists w',
    save now now' u w = (Ok (setLastSaved (Some now') u), w') /\
    readable JSON_parse w' KEY_OUTCOMES (SOutcomes (outcomes (app u))) /\
    readable JSON_parse w' KEY_NOTES (SNotes (stepNotes (app u))) /\
    readable JSON_parse w' KEY_TIME_BANK (SNumber (timeBank (app u))) /\
    readable JSON_parse w' KEY_TIMER
      (STimer (activeTimer (app u)) (timerSeconds (app u))) /\
    readable JSON_parse w' KEY_LAST_SAVED (SString now).
Proof.
  intros B A Hrt. unfold saved_values in Hrt.
  apply Forall_cons in Hrt as [R1 Hrt]. apply Forall_cons in Hrt as [R2 Hrt].
  apply Forall_cons in Hrt as [R3 Hrt]. apply Forall_cons in Hrt as [R4 Hrt].
  apply Forall_cons in Hrt as [R5 _].
  destruct (set_readable KEY_OUTCOMES _ w B A R1 ltac:(discriminate))
    as (w1 & H1 & D1 & _).
  destruct (set_readable KEY_NOTES _ w1 B A R2 ltac:(discriminate))
    as (w2 & H2 & D2 & F2).
  destruct (set_readable KEY_TIME_BANK _ w2 B A R3 ltac:(discriminate))
    as (w3 & H3 & D3 & F3).
  destruct (set_readable KEY_TIMER _ w3 B A R4 ltac:(discriminate))
    as (w4 & H4 & D4 & F4).
  destruct (set_readable KEY_LAST_SAVED _ w4 B A R5 ltac:(discriminate))
    as (w5 & H5 & D5 & F5).
  exists w5. split.
  - unfold saveData, try_catch. unfold bind at 1. rewrite H1.
    unfold bind at 1. rewrite H2. unfold bind at 1. rewrite H3.
    unfold bind at 1. rewrite H4. unfold bind at 1. rewrite H5.
    reflexivity.
  - repeat split.
    + apply F5, F4, F3, F2, D1; discriminate.
    + apply F5, F4, F3, D2; discriminate.
    + apply F5, F4, D3; discriminate.
    + apply F5, D4; discriminate.
    + exact D5.
Qed.

Lemma load_readable (u u0 : UiState) (now : string) (w : World Stored) :
  window = Some GetterStorage -> accepts_all setItem_ok ->
  readable JSON_parse w KEY_OUTCOMES (SOutcomes (outcomes (app u))) ->
  readable JSON_parse w KEY_NOTES (SNotes (stepNotes (app u))) ->
  readable JSON_parse w KEY_TIME_BANK (SNumber (timeBank (app u))) ->
  readable JSON_parse w KEY_TIMER
    (STimer (activeTimer (app u)) (timerSeconds (app u))) ->
  readable JSON_parse w KEY_LAST_SAVED (SString now) ->
  exists u2 w',
    load u0 w = (Ok (Some u2), w') /\
    same_data u u2 /\ isLoading u2 = false /\
    storageType u2 = "localStorage"%string.
Proof.
  intros B A D1 D2 D3 D4 D5.
  destruct (getStorageType_accepting window setItem_ok w B A)
    as (w0 & Ht & Hf & _).
  assert (forall k v, readable JSON_parse w k v -> readable JSON_parse w0 k v)
    as F0.
  { intros k v (ser & Hi & ? & ?). exists ser. rewrite Hf. auto. }
  destruct (get_readable KEY_OUTCOMES SNull _ w0 B A (F0 _ _ D1))
    as (w1 & H1 & F1).
  destruct (get_readable KEY_NOTES (SNotes ∅) _ w1 B A (F1 _ _ (F0 _ _ D2)))
    as (w2 & H2 & F2).
  destruct (get_readable KEY_TIME_BANK (SNumber 0) _ w2 B A
              (F2 _ _ (F1 _ _ (F0 _ _ D3)))) as (w3 & H3 & F3).
  destruct (get_readable KEY_TIMER SNull _ w3 B A
              (F3 _ _ (F2 _ _ (F1 _ _ (F0 _ _ D4))))) as (w4 & H4 & F4).
  destruct (get_readable KEY_LAST_SAVED SNull _ w4 B A
              (F4 _ _ (F3 _ _ (F2 _ _ (F1 _ _ (F0 _ _ D5))))))
    as (w5 & H5 & _).
  rewrite (loadData_of_reads u0 _ w w0 w1 w2 w3 w4 w5 _ _ _ _ _
             Ht H1 H2 H3 H4 H5).
  destruct (install_saved "localStorage" now u u0) as (u2 & E & Hd & Hty).
  rewrite E. cbn [option_map]. do 2 eexists. split; [reflexivity|].
  destruct Hd as (? & ? & ? & ? & ?).
  repeat split; assumption.
Qed.

(** X21.  With a primary store that takes every write, and values that
    serialise to a text which parses back to them, what [saveData] saves is
    what [loadData] loads: outcomes, notes, time bank, timer pointer and
    elapsed seconds after the load are those of the saved state, whatever
    the state the load starts from. *)
Theorem load_after_save_available (now now' : string) (u u0 : UiState)
  (w : World Stored) :
  window = Some GetterStorage -> accepts_all setItem_ok ->
  Forall (round_trips JSON_stringify JSON_parse) (saved_values now u) ->
  exists w1 u2 w2,
    save now now' u w = (Ok (setLastSaved (Some now') u), w1) /\
    load u0 w1 = (Ok (Some u2), w2) /\
    same_data u u2 /\ isLoading u2 = false /\
    storageType u2 = "localStorage"%string.
Proof.
  intros B A Hrt.
  destruct (save_accepting now now' u w B A Hrt)
    as (w1 & Hs & D1 & D2 & D3 & D4 & D5).
  destruct (load_readable u u0 now w1 B A D1 D2 D3 D4 D5)
    as (u2 & w2 & Hl & Hd).
  exists w1, u2, w2. auto.
Qed.

(** X22.  With a primary store that refuses every write, [saveData] still
    answers with success and what it saved is what [loadData] loads in the
    same process, from the memory map and without any use of JSON; the load
    reports the storage type ["memory"]. *)
Theorem load_after_save_memory (now now' : string) (u u0 : UiState)
  (w : World Stored) :
  window = Some GetterStorage ->
  (forall m, setItem_ok m testKey "test" = false) ->
  exists w1 u2 w2,
    save now now' u w = (Ok (setLastSaved (Some now') u), w1) /\
    load u0 w1 = (Ok (Some u2), w2) /\
    same_data u u2 /\ isLoading u2 = false /\
    storageType u2 = "memory"%string.
Proof.
  intros B R.
  set (mem :=
         <[KEY_LAST_SAVED := SString now]>
           (<[KEY_TIMER := STimer (activeTimer (app u)) (timerSeconds (app u))]>
              (<[KEY_TIME_BANK := SNumber (timeBank (app u))]>
                 (<[KEY_NOTES := SNotes (stepNotes (app u))]>
                    (<[KEY_OUTCOMES := SOutcomes (outcomes (app u))]>
                       (memoryStorage w)))))).
  set (w1 := mkWorld (localStorage w) mem).
  assert (save now now' u w = (Ok (setLastSaved (Some now') u), w1)) as Hs.
  { unfold saveData, try_catch.
    unfold bind at 1.
    rewrite (set_refusing JSON_stringify window setItem_ok _ _ _ B R).
    unfold bind at 1.
    rewrite (set_refusing JSON_stringify window setItem_ok _ _ _ B R).
    unfold bind at 1.
    rewrite (set_refusing JSON_stringify window setItem_ok _ _ _ B R).
    unfold bind at 1.
    rewrite (set_refusing JSON_stringify window setItem_ok _ _ _ B R).
    unfold bind at 1.
    rewrite (set_refusing JSON_stringify window setItem_ok _ _ _ B R).
    reflexivity. }
  assert (mem !! KEY_OUTCOMES = Some (SOutcomes (outcomes (app u))) /\
          mem !! KEY_NOTES = Some (SNotes (stepNotes (app u))) /\
          mem !! KEY_TIME_BANK = Some (SNumber (timeBank (app u))) /\
          mem !! KEY_TIMER =
            Some (STimer (activeTimer (app u)) (timerSeconds (app u))) /\
          mem !! KEY_LAST_SAVED = Some (SString now))
    as (L1 & L2 & L3 & L4 & L5).
  { unfold mem. repeat split;
      repeat (rewrite lookup_insert_ne by discriminate);
      apply lookup_insert_eq. }
  pose proof (getStorageType_refusing window setItem_ok w1 B R) as Ht.
  pose proof (fun k d => get_refusing JSON_parse window stored_is_undefined
                          setItem_ok k d w1 B R) as Hg.
  destruct (install_saved "memory" now u u0) as (u2 & E & Hd & Hty).
  exists w1, (setIsLoading false u2), w1.
  split; [exact Hs|]. split.
  - rewrite (loadData_of_reads u0 _ w1 w1 w1 w1 w1 w1 w1 _ _ _ _ _
               Ht (Hg _ _) (Hg _ _) (Hg _ _) (Hg _ _) (Hg _ _)).
    change (memoryStorage w1) with mem. rewrite L1, L2, L3, L4, L5.
    cbn [defined_or stored_is_undefined]. rewrite E. reflexivity.
  - destruct Hd as (? & ? & ? & ? & ?).
    repeat split; assumption.
Qed.

(** Installing the defaults of the five reads. *)
Lemma install_defaults (t : string) (u0 : UiState) :
  exists u2,
    install_loaded t SNull (SNotes ∅) (SNumber 0) SNull SNull u0 = Some u2 /\
    outcomes (app u2) = DEFAULT_OUTCOMES /\
    stepNotes (app u2) = ∅ /\
    timeBank (app u2) = 0 /\
    activeTimer (app u2) = activeTimer (app u0) /\
    timerSeconds (app u2) = timerSeconds (app u0) /\
    lastSaved u2 = lastSaved u0.
Proof.
  unfold install_loaded.
  cbn [outcomes_or_default as_notes as_number restore_timer
       restore_lastSaved].
  destruct (String.eqb t "memory"), (String.eqb t "none");
    eexists; (split; [reflexivity|]); repeat split.
Qed.

Lemma remove_each_absent (w : World Stored) :
  window = Some GetterStorage ->
  exists w',
    remove_each window setItem_ok STORAGE_KEYS w = (Ok tt, w') /\
    Forall (absent setItem_ok w') STORAGE_KEYS.
Proof.
  intros B. unfold STORAGE_KEYS. cbn [remove_each].
  destruct (remove_absent window setItem_ok KEY_OUTCOMES w B)
    as (w1 & H1 & A1 & _).
  destruct (remove_absent window setItem_ok KEY_NOTES w1 B)
    as (w2 & H2 & A2 & F2).
  destruct (remove_absent window setItem_ok KEY_TIME_BANK w2 B)
    as (w3 & H3 & A3 & F3).
  destruct (remove_absent window setItem_ok KEY_TIMER w3 B)
    as (w4 & H4 & A4 & F4).
  destruct (remove_absent window setItem_ok KEY_LAST_SAVED w4 B)
    as (w5 & H5 & A5 & F5).
  exists w5. split.
  - unfold bind at 1. rewrite H1. unfold bind at 1. rewrite H2.
    unfold bind at 1. rewrite H3. unfold bind at 1. rewrite H4.
    unfold bind at 1. rewrite H5. reflexivity.
  - repeat apply Forall_cons_2; [| | | | |apply Forall_nil_2].
    + apply F5, F4, F3, F2, A1.
    + apply F5, F4, F3, A2.
    + apply F5, F4, A3.
    + apply F5, A4.
    + exact A5.
Qed.

Lemma load_absent (u0 : UiState) (w : World Stored) :
  window = Some GetterStorage ->
  Forall (absent setItem_ok w) STORAGE_KEYS ->
  exists t w',
    load u0 w =
      (Ok (option_map (setIsLoading false)
             (install_loaded t SNull (SNotes ∅) (SNumber 0) SNull SNull u0)),
       w').
Proof.
  intros B Habs. unfold STORAGE_KEYS in Habs.
  apply Forall_cons in Habs as [A1 Habs].
  apply Forall_cons in Habs as [A2 Habs].
  apply Forall_cons in Habs as [A3 Habs].
  apply Forall_cons in Habs as [A4 Habs].
  apply Forall_cons in Habs as [A5 _].
  destruct (getStorageType_absent window setItem_ok w B)
    as (t & w0 & Ht & _ & F0).
  destruct (get_absent_key JSON_parse window stored_is_undefined
              setItem_ok KEY_OUTCOMES SNull
              w0 B) as (v1 & w1 & H1 & E1 & F1).
  destruct (get_absent_key JSON_parse window stored_is_undefined
              setItem_ok KEY_NOTES
              (SNotes ∅) w1 B) as (v2 & w2 & H2 & E2 & F2).
  destruct (get_absent_key JSON_parse window stored_is_undefined
              setItem_ok KEY_TIME_BANK
              (SNumber 0) w2 B) as (v3 & w3 & H3 & E3 & F3).
  destruct (get_absent_key JSON_parse window stored_is_undefined
              setItem_ok KEY_TIMER SNull
              w3 B) as (v4 & w4 & H4 & E4 & F4).
  destruct (get_absent_key JSON_parse window stored_is_undefined
              setItem_ok KEY_LAST_SAVED
              SNull w4 B) as (v5 & w5 & H5 & E5 & _).
  rewrite (E1 (F0 _ A1)) in H1.
  rewrite (E2 (F1 _ (F0 _ A2))) in H2.
  rewrite (E3 (F2 _ (F1 _ (F0 _ A3)))) in H3.
  rewrite (E4 (F3 _ (F2 _ (F1 _ (F0 _ A4))))) in H4.
  rewrite (E5 (F4 _ (F3 _ (F2 _ (F1 _ (F0 _ A5)))))) in H5.
  exists t, w5.
  apply (loadData_of_reads u0 t w w0 w1 w2 w3 w4 w5 _ _ _ _ _
           Ht H1 H2 H3 H4 H5).
Qed.

(** What [loadData] does where reading [window.localStorage] throws: the
    first call, [getStorageType], throws, and the [catch] block installs the
    default outcomes and nothing else. *)
Lemma load_blocked (msg : string) (u0 : UiState) (w : World Stored) :
  window = Some (GetterThrows msg) ->
  load u0 w =
    (Ok (Some (setIsLoading false
                 (setApp (setOutcomes (fun _ => DEFAULT_OUTCOMES))
                    (setApp (showNotification
                               "Failed to load saved data. Starting fresh."
                               NWarning) u0)))), w).
Proof.
  intros B.
  destruct (blocked_throws_plain window setItem_ok msg w B)
    as (_ & _ & _ & _ & _ & Ht).
  unfold loadData, loadData_try. unfold bind at 1. unfold try_catch.
  unfold bind at 1. rewrite Ht. reflexivity.
Qed.

Lemma load_outside (u0 : UiState) (w : World Stored) :
  isBrowser window w = (Ok false, w) ->
  load u0 w =
    (Ok (option_map (setIsLoading false)
           (install_loaded "none" SNull (SNotes ∅) (SNumber 0) SNull SNull
              u0)), w).
Proof.
  intros E.
  destruct (outside_returns_plain window setItem_ok w E)
    as (_ & _ & _ & _ & _ & Ht).
  pose proof (fun k d => get_outside JSON_parse window stored_is_undefined
                           setItem_ok k d w E) as Hg.
  apply (loadData_of_reads u0 _ w w w w w w w _ _ _ _ _
           Ht (Hg _ _) (Hg _ _) (Hg _ _) (Hg _ _) (Hg _ _)).
Qed.

(** X23.  After [clearAllData], confirmed by the user, the list of outcomes,
    the notes, the time bank and the timer of the component are empty.
    Wherever [isBrowser()] returns, whatever the primary store accepts, the
    next [loadData] finds nothing under any of the five keys: it installs
    the default outcomes, no notes and an empty bank.  Where reading
    [window.localStorage] throws, the first [remove] throws and the stores
    stay as they were, [clearAllData] shows "Failed to clear data", and the
    next [loadData] installs only the default outcomes: notes and bank stay
    those of the state it starts from. *)
Theorem load_after_clearAllData (u u0 : UiState) (w : World Stored) :
  exists u1 w1 u2 w2,
    clear_all true u w = (Ok u1, w1) /\
    outcomes (app u1) = [] /\ stepNotes (app u1) = ∅ /\
    timeBank (app u1) = 0 /\ activeTimer (app u1) = None /\
    load u0 w1 = (Ok (Some u2), w2) /\
    outcomes (app u2) = DEFAULT_OUTCOMES /\
    activeTimer (app u2) = activeTimer (app u0) /\
    isLoading u2 = false /\
    match window with
    | Some (GetterThrows msg) =>
        w1 = w /\ w2 = w /\
        notification (app u1) =
          Some (mkNotification "Failed to clear data" NError) /\
        stepNotes (app u2) = stepNotes (app u0) /\
        timeBank (app u2) = timeBank (app u0)
    | _ =>
        notification (app u1) =
          Some (mkNotification "All data cleared" NSuccess) /\
        stepNotes (app u2) = ∅ /\ timeBank (app u2) = 0
    end.
Proof.
  destruct (isBrowser_cases (V:=Stored) window)
    as [[B E]|[(B & N & E)|(msg & B & E)]].
  - destruct (remove_each_absent w B) as (w1 & Hr & Habs).
    destruct (load_absent u0 w1 B Habs) as (t & w2 & Hl).
    destruct (install_defaults t u0) as (u2 & E' & ? & ? & ? & ? & ? & ?).
    rewrite E' in Hl.
    eexists. exists w1, (setIsLoading false u2), w2.
    split.
    { unfold clearAllData. cbn [negb]. unfold try_catch.
      unfold bind at 1. rewrite Hr. reflexivity. }
    split; [reflexivity|]. split; [reflexivity|]. split; [reflexivity|].
    split; [reflexivity|].
    split; [exact Hl|].
    split; [assumption|]. split; [assumption|]. split; [reflexivity|].
    rewrite B. repeat split; assumption.
  - destruct (install_defaults "none" u0)
      as (u2 & E' & ? & ? & ? & ? & ? & ?).
    destruct (outside_returns_plain window setItem_ok w (E w))
      as (Hr & _).
    eexists. exists w, (setIsLoading false u2), w.
    split.
    { unfold clearAllData, STORAGE_KEYS. cbn [negb remove_each].
      unfold try_catch. unfold bind at 1. unfold bind at 1. rewrite Hr.
      unfold bind at 1. rewrite Hr. unfold bind at 1. rewrite Hr.
      unfold bind at 1. rewrite Hr. unfold bind at 1. rewrite Hr.
      reflexivity. }
    split; [reflexivity|]. split; [reflexivity|]. split; [reflexivity|].
    split; [reflexivity|].
    split; [rewrite (load_outside u0 w (E w)), E'; reflexivity|].
    split; [assumption|]. split; [assumption|]. split; [reflexivity|].
    apply by_window; [intros msg B'; destruct (N msg B')|].
    intros _. repeat split; assumption.
  - destruct (blocked_throws_plain window setItem_ok msg w B) as (Hr & _).
    eexists. exists w. eexists. exists w.
    split.
    { unfold clearAllData, STORAGE_KEYS. cbn [negb remove_each].
      unfold try_catch. unfold bind at 1. unfold bind at 1. rewrite Hr.
      reflexivity. }
    split; [reflexivity|]. split; [reflexivity|]. split; [reflexivity|].
    split; [reflexivity|].
    split; [apply (load_blocked msg u0 w B)|].
    rewrite B. repeat split.
Qed.

(** X24.  An empty list of outcomes is never saved: the effect that saves
    the state skips the save while the list is empty.  With a primary store
    that takes every write, once a list that is not empty has been saved and
    the list has then become empty (its last outcome was deleted), the
    effect writes nothing and the next [loadData] brings the saved list
    back. *)
Theorem emptied_list_is_not_saved (now now' later later' : string)
  (u u' u0 : UiState) (w : World Stored) :
  window = Some GetterStorage -> accepts_all setItem_ok ->
  Forall (round_trips JSON_stringify JSON_parse) (saved_values now u) ->
  isLoading u = false -> outcomes (app u) <> [] ->
  outcomes (app u') = [] ->
  exists w1 u2 w2,
    auto_save true now now' u w = (Ok (setLastSaved (Some now') u), w1) /\
    auto_save true later later' u' w1 = (Ok u', w1) /\
    load u0 w1 = (Ok (Some u2), w2) /\
    outcomes (app u2) = outcomes (app u).
Proof.
  intros B A Hrt Hl Hne He.
  destruct (save_accepting now now' u w B A Hrt)
    as (w1 & Hs & D1 & D2 & D3 & D4 & D5).
  destruct (load_readable u u0 now w1 B A D1 D2 D3 D4 D5)
    as (u2 & w2 & Hld & (Ho & _) & _).
  exists w1, u2, w2. split; [|split; [|split]].
  - unfold autoSave. rewrite Hl.
    destruct (outcomes (app u)); [congruence|]. exact Hs.
  - unfold autoSave. rewrite He. cbn. rewrite andb_false_r. reflexivity.
  - exact Hld.
  - exact Ho.
Qed.

End PersistenceFacts.

Lemma example_round_trips (now : string) :
  Forall (round_trips example_stringify (example_parse now))
    (saved_values now example_ui).
Proof.
  repeat constructor;
    (eexists; split; [reflexivity|]; split; [discriminate|reflexivity]).
Qed.

Lemma load_after_save_available_witness :
  exists w1 u2 w2,
    saveData example_stringify (Some Storage.GetterStorage) (fun _ _ _ => true)
      "2025-01-31T09:00:00.000Z" "2025-01-31T09:00:00.001Z" example_ui
      (Storage.mkWorld ∅ ∅)
    = (Storage.Ok (setLastSaved (Some "2025-01-31T09:00:00.001Z"%string)
                     example_ui), w1) /\
    loadData (example_parse "2025-01-31T09:00:00.000Z")
      (Some Storage.GetterStorage)
      (fun _ _ _ => true) initialUi w1 = (Storage.Ok (Some u2), w2) /\
    same_data example_ui u2 /\ isLoading u2 = false /\
    storageType u2 = "localStorage"%string.
Proof.
  apply (load_after_save_available example_stringify
           (example_parse "2025-01-31T09:00:00.000Z")
           (Some Storage.GetterStorage) (fun _ _ _ => true)
           "2025-01-31T09:00:00.000Z" "2025-01-31T09:00:00.001Z"
           example_ui initialUi (Storage.mkWorld ∅ ∅)).
  - reflexivity.
  - intros m k v. reflexivity.
  - apply example_round_trips.
Defined.

Lemma load_after_save_memory_witness :
  exists w1 u2 w2,
    saveData example_stringify (Some Storage.GetterStorage) (fun _ _ _ => false)
      "2025-01-31T09:00:00.000Z" "2025-01-31T09:00:00.001Z" example_ui
      (Storage.mkWorld ∅ ∅)
    = (Storage.Ok (setLastSaved (Some "2025-01-31T09:00:00.001Z"%string)
                     example_ui), w1) /\
    loadData (fun _ => None) (Some Storage.GetterStorage) (fun _ _ _ => false) initialUi w1
    = (Storage.Ok (Some u2), w2) /\
    same_data example_ui u2 /\ isLoading u2 = false /\
    storageType u2 = "memory"%string.
Proof.
  apply (load_after_save_memory example_stringify (fun _ => None)
           (Some Storage.GetterStorage)
           (fun _ _ _ => false)
           "2025-01-31T09:00:00.000Z" "2025-01-31T09:00:00.001Z"
           example_ui initialUi (Storage.mkWorld ∅ ∅)).
  - reflexivity.
  - intros m. reflexivity.
Defined.

Lemma emptied_list_is_not_saved_witness :
  exists w1 u2 w2,
    autoSave example_stringify (Some Storage.GetterStorage) (fun _ _ _ => true) true
      "2025-01-31T09:00:00.000Z" "2025-01-31T09:00:00.001Z" example_ui
      (Storage.mkWorld ∅ ∅)
    = (Storage.Ok (setLastSaved (Some "2025-01-31T09:00:00.001Z"%string)
                     example_ui), w1) /\
    autoSave example_stringify (Some Storage.GetterStorage) (fun _ _ _ => true) true
      "2025-01-31T09:05:00.000Z" "2025-01-31T09:05:00.001Z"
      (setApp (removeOutcome true 1) example_ui) w1
    = (Storage.Ok (setApp (removeOutcome true 1) example_ui), w1) /\
    loadData (example_parse "2025-01-31T09:00:00.000Z")
      (Some Storage.GetterStorage)
      (fun _ _ _ => true) initialUi w1 = (Storage.Ok (Some u2), w2) /\
    outcomes (app u2) = outcomes (app example_ui).
Proof.
  apply (emptied_list_is_not_saved example_stringify
           (example_parse "2025-01-31T09:00:00.000Z")
           (Some Storage.GetterStorage) (fun _ _ _ => true)
           "2025-01-31T09:00:00.000Z" "2025-01-31T09:00:00.001Z"
           "2025-01-31T09:05:00.000Z" "2025-01-31T09:05:00.001Z"
           example_ui (setApp (removeOutcome true 1) example_ui) initialUi
           (Storage.mkWorld ∅ ∅)).
  - reflexivity.
  - intros m k v. reflexivity.
  - apply example_round_trips.
  - reflexivity.
  - discriminate.
  - reflexivity.
Defined.

(* ===================================================================== *)
(** * The two formatters                                                 *)
(* ===================================================================== *)

Lemma pad2_inj (x y : Z) :
  0 <= x < 60 -> 0 <= y < 60 -> pad2 x = pad2 y -> x = y.
Proof.
  intros Hx Hy E.
  assert (forall z, 0 <= z < 60 -> In z below_60) as Hin.
  { intros z Hz. unfold below_60. apply in_map_iff.
    exists (Z.to_nat z). split; [lia|]. apply in_seq. lia. }
  assert (pad2_distinct = true) as Hd by (vm_compute; reflexivity).
  unfold pad2_distinct in Hd. rewrite forallb_forall in Hd.
  specialize (Hd x (Hin x Hx)). rewrite forallb_forall in Hd.
  specialize (Hd y (Hin y Hy)). rewrite E, String.eqb_refl in Hd.
  simpl in Hd. apply Z.eqb_eq. exact Hd.
Qed.

(** X25.  The clock text of the timer shows the elapsed time without loss:
    two different numbers of elapsed seconds (not negative) never get the
    same text. *)
Theorem formatSeconds_injective (a b : Z) :
  0 <= a -> 0 <= b -> a <> b -> formatSeconds a <> formatSeconds b.
Proof.
  intros Ha Hb Hne E. apply Hne. unfold formatSeconds in E.
  change (":" ++ ?x)%string with (String ":" x) in E.
  apply toString_sep_inj in E as [Hq E]; [|reflexivity..].
  injection E as E.
  rewrite !Z.rem_mod_nonneg in E by lia.
  apply pad2_inj in E; try (apply Z.mod_pos_bound; lia).
  rewrite (Z.div_mod a 60), (Z.div_mod b 60) by lia. lia.
Qed.

Lemma formatSeconds_injective_witness :
  formatSeconds 65 <> formatSeconds 605.
Proof.
  apply (formatSeconds_injective 65 605); lia.
Defined.

Lemma list_ascii_of_append (a b : string) :
  list_ascii_of_string (a ++ b) =
  (list_ascii_of_string a ++ list_ascii_of_string b)%list.
Proof. induction a as [|c a IH]; simpl; [reflexivity|]. rewrite IH. reflexivity. Qed.

Lemma trimEnd_snoc_keep (l : list ascii) (c : ascii) :
  Js.is_whitespace c = false -> Js.trimEnd (l ++ [c]) = (l ++ [c])%list.
Proof.
  intros H. unfold Js.trimEnd. rewrite rev_app_distr. simpl. rewrite H.
  simpl. rewrite rev_involutive. reflexivity.
Qed.

Lemma trimEnd_snoc_drop (l : list ascii) (c : ascii) :
  Js.is_whitespace c = true -> Js.trimEnd (l ++ [c]) = Js.trimEnd l.
Proof.
  intros H. unfold Js.trimEnd. rewrite rev_app_distr. simpl. rewrite H.
  reflexivity.
Qed.

(** [trim] of a text that starts and ends with a character that is no
    white space, and of such a text followed by a space. *)
Lemma trim_clean (c d : ascii) (t : string) :
  Js.is_whitespace c = false -> Js.is_whitespace d = false ->
  Js.trim (String c (t ++ String d "")) = String c (t ++ String d "") /\
  Js.trim (String c (t ++ String d " ")) = String c (t ++ String d "").
Proof.
  intros Hc Hd.
  assert (list_ascii_of_string (String c (t ++ String d "")) =
          ((c :: list_ascii_of_string t) ++ [d])%list) as L1.
  { cbn [list_ascii_of_string]. rewrite list_ascii_of_append. reflexivity. }
  assert (list_ascii_of_string (String c (t ++ String d " ")) =
          (((c :: list_ascii_of_string t) ++ [d]) ++ [" "%char])%list) as L2.
  { cbn [list_ascii_of_string]. rewrite list_ascii_of_append.
    cbn [list_ascii_of_string]. rewrite <- !app_assoc. reflexivity. }
  assert (forall l, Js.trimStart ((c :: l) ++ [d]) = ((c :: l) ++ [d])%list)
    as Hs by (intros l; simpl; rewrite Hc; reflexivity).
  unfold Js.trim. split.
  - rewrite L1, Hs, trimEnd_snoc_keep by exact Hd.
    rewrite <- L1. apply string_of_list_ascii_of_string.
  - rewrite L2.
    assert (Js.trimStart (((c :: list_ascii_of_string t) ++ [d]) ++ [" "%char])
            = (((c :: list_ascii_of_string t) ++ [d]) ++ [" "%char])%list)
      as -> by (simpl; rewrite Hc; reflexivity).
    rewrite trimEnd_snoc_drop by reflexivity.
    rewrite trimEnd_snoc_keep by exact Hd.
    rewrite <- L1. apply string_of_list_ascii_of_string.
Qed.

Lemma string_app_assoc (a b c : string) :
  ((a ++ b) ++ c = a ++ (b ++ c))%string.
Proof.
  induction a as [|x a IH]; [reflexivity|].
  change (String x ((a ++ b) ++ c) = String x (a ++ (b ++ c)))%string.
  rewrite IH. reflexivity.
Qed.

(** The text of [formatTime] for a number other than 0: the sign, then
    hours and minutes, minutes only, or hours only. *)
Lemma formatTime_shape (m : Z) :
  m <> 0 ->
  formatTime m =
    String (if m <? 0 then "-"%char else "+"%char)
      (if Z.abs m / 60 >? 0 then
         if Z.abs m mod 60 >? 0 then
           (JsText.toString (Z.abs m / 60) ++
            String "h" (String " " (JsText.toString (Z.abs m mod 60) ++ "m")))
         else (JsText.toString (Z.abs m / 60) ++ "h")
       else (JsText.toString (Z.abs m mod 60) ++ "m"))%string.
Proof.
  intros Hm. unfold formatTime.
  replace (m =? 0) with false by (symmetry; apply Z.eqb_neq; exact Hm).
  rewrite Z.rem_mod_nonneg by lia.
  set (H := JsText.toString (Z.abs m / 60)).
  set (R := JsText.toString (Z.abs m mod 60)).
  set (sc := if m <? 0 then "-"%char else "+"%char).
  assert (Js.is_whitespace sc = false) as Hsc
    by (unfold sc; destruct (m <? 0); reflexivity).
  assert (((if m <? 0 then "-" else "+") : string) = String sc "") as ->
    by (unfold sc; destruct (m <? 0); reflexivity).
  cbv zeta.
  destruct (Z.abs m / 60 >? 0); [|reflexivity].
  destruct (Z.abs m mod 60 >? 0).
  - change (String sc "" ++ H ++ "h " ++ R ++ "m")%string
      with (String sc (H ++ (String "h" (String " " R) ++ String "m" "")))%string.
    rewrite <- string_app_assoc.
    rewrite (proj1 (trim_clean sc "m" _ Hsc eq_refl)).
    rewrite string_app_assoc. reflexivity.
  - change (String sc "" ++ H ++ "h " ++ "")%string
      with (String sc (H ++ String "h" " "))%string.
    apply (trim_clean sc "h" H Hsc eq_refl).
Qed.

(** X26.  The balance text shows the balance without loss: two different
    numbers of minutes never get the same text, and the text of a number
    other than 0 starts with its sign. *)
Theorem formatTime_injective (a b : Z) :
  (a <> b -> formatTime a <> formatTime b) /\
  (a <> 0 ->
   exists t, formatTime a = String (if a <? 0 then "-"%char else "+"%char) t).
Proof.
  split; [|intros Ha; rewrite (formatTime_shape a Ha); eauto].
  intros Hne E. apply Hne.
  assert (forall m, m <> 0 -> formatTime m <> "0m"%string) as Hzero.
  { intros m Hm. rewrite (formatTime_shape m Hm).
    destruct (m <? 0); discriminate. }
  destruct (Z.eq_dec a 0) as [->|Ha]; destruct (Z.eq_dec b 0) as [->|Hb];
    [reflexivity| | |].
  { exfalso. apply (Hzero b Hb). symmetry. exact E. }
  { exfalso. apply (Hzero a Ha). exact E. }
  rewrite (formatTime_shape a Ha), (formatTime_shape b Hb) in E.
  injection E as Hsign E.
  assert ((a <? 0) = (b <? 0)) as Hs
    by (destruct (a <? 0), (b <? 0); congruence).
  clear Hsign.
  pose proof (Z.div_mod (Z.abs a) 60 ltac:(lia)) as Da.
  pose proof (Z.div_mod (Z.abs b) 60 ltac:(lia)) as Db.
  assert (Z.abs a / 60 = Z.abs b / 60 /\ Z.abs a mod 60 = Z.abs b mod 60)
    as [Eh Er].
  { destruct (Z.gtb_spec (Z.abs a / 60) 0) as [Hha|Hha];
      destruct (Z.gtb_spec (Z.abs b / 60) 0) as [Hhb|Hhb].
    - destruct (Z.gtb_spec (Z.abs a mod 60) 0) as [Hra|Hra];
        destruct (Z.gtb_spec (Z.abs b mod 60) 0) as [Hrb|Hrb];
        apply toString_sep_inj in E as [Eh E]; try reflexivity;
        (split; [exact Eh|]).
      + injection E as E.
        apply toString_sep_inj in E as [Er _]; [exact Er|reflexivity..].
      + discriminate E.
      + discriminate E.
      + pose proof (Z.mod_pos_bound (Z.abs a) 60 ltac:(lia)).
        pose proof (Z.mod_pos_bound (Z.abs b) 60 ltac:(lia)). lia.
    - destruct (Z.gtb_spec (Z.abs a mod 60) 0);
        apply toString_sep_inj in E as [_ E]; try reflexivity;
        discriminate E.
    - destruct (Z.gtb_spec (Z.abs b mod 60) 0);
        apply toString_sep_inj in E as [_ E]; try reflexivity;
        discriminate E.
    - apply toString_sep_inj in E as [Er _]; [|reflexivity..].
      pose proof (Z.div_pos (Z.abs a) 60 ltac:(lia) ltac:(lia)).
      pose proof (Z.div_pos (Z.abs b) 60 ltac:(lia) ltac:(lia)).
      split; [lia|exact Er]. }
  assert (Z.abs a = Z.abs b) as Habs by lia.
  destruct (Z.ltb_spec a 0), (Z.ltb_spec b 0); try discriminate Hs; lia.
Qed.

Lemma formatTime_injective_witness :
  formatTime 60 <> formatTime (-60) /\
  exists t, formatTime (-125) = String "-" t.
Proof.
  split.
  - apply (formatTime_injective 60 (-60)). lia.
  - apply (formatTime_injective (-125) 0). lia.
Defined.
